(** * The annotation editor of [AnnotationCanvas.tsx]

    A shallow embedding of the geometry utilities, the undo history and the
    pointer-driven tool state machine of
    [src/components/AnnotationCanvas.tsx], followed by the properties that
    the specification states about them.

    Numbers.  A JavaScript [number] is an IEEE 754 binary64 value, and is
    modelled by Rocq's primitive [float]: [+], [-], [*], [/] round to
    nearest, ties to even; there are two zeros, two infinities and NaN;
    [===] on numbers is the IEEE equality [=?] (NaN differs from itself,
    [+0] equals [-0]); [<] and [<=] are [<?] and [<=?], false as soon as
    one side is NaN.  The facts about this arithmetic that the proofs
    need are derived from the specification of the primitive operations
    ([Floats.FloatAxioms]).

    [Math.hypot] and the exponentiation operator are left to the
    JavaScript engine by ECMAScript ("implementation-approximated"): the
    embedding takes them from an [Engine], and every property is proved
    for every engine. *)

From Stdlib Require Import String.
From Stdlib Require Import ZArith Floats.
From Stdlib Require Import List Bool Arith Lia.
Import ListNotations.

Open Scope float_scope.

(** A decimal literal denotes the nearest double, as it does in
    JavaScript. *)
Set Warnings "-inexact-float".

(** ** JavaScript numbers *)

(** [a === b], [a < b], [a <= b], [a > b], [a >= b]. *)
Definition num_eq (a b : float) : bool := a =? b.
Definition num_lt (a b : float) : bool := a <? b.
Definition num_le (a b : float) : bool := a <=? b.
Definition num_gt (a b : float) : bool := b <? a.
Definition num_ge (a b : float) : bool := b <=? a.

(** [Math.min(a, b)] and [Math.max(a, b)]: NaN if one argument is NaN, and
    [-0] counts as smaller than [+0]. *)
Definition Math_min (a b : float) : float :=
  if is_nan a then a
  else if is_nan b then b
  else if a <? b then a
  else if b <? a then b
  else if get_sign a then a else b.

Definition Math_max (a b : float) : float :=
  if is_nan a then a
  else if is_nan b then b
  else if a <? b then b
  else if b <? a then a
  else if get_sign a then b else a.

(** [Math.abs] is the primitive [abs]. *)
Definition Math_abs (a : float) : float := abs a.

(** What the engine provides: [Math.hypot(a, b)] and [a ** 2]. *)
Class Engine : Type := {
  Math_hypot : float -> float -> float;
  square : float -> float
}.

(** An engine to run the samples on: the textbook formulas, each
    operation rounded. *)
Definition reference_engine : Engine :=
  {| Math_hypot := fun a b => sqrt (a * a + b * b);
     square := fun a => a * a |}.

(** A guarded quotient: [None] stands for a division whose denominator
    is zero. *)
Definition checked_div (a b : float) : option float :=
  if num_eq b 0 then None else Some (a / b).

(** ** Data model ([lib/types]) *)

Record AnnotationPoint : Type := mkPoint { x : float; y : float }.

Inductive AnnotationType : Type := bbox_t | polygon_t | freehand_t.

(** The [x] and [y] of a rectangle are [rx] and [ry] here: [x] and [y]
    name the coordinates of a point. *)
Record Rect : Type := mkRect { rx : float; ry : float; width : float; height : float }.

Record AnnotationShape : Type := mkShape {
  id : string;
  type : AnnotationType;
  color : option string;
  label : option string;
  points : option (list AnnotationPoint);
  bbox : option Rect
}.

Inductive Tool : Type := Bbox | Polygon | Freehand | Select | Erase.

Definition Tool_eqb (a b : Tool) : bool :=
  match a, b with
  | Bbox, Bbox | Polygon, Polygon | Freehand, Freehand
  | Select, Select | Erase, Erase => true
  | _, _ => false
  end.

(** ** Constants *)

Definition COLORS : list string :=
  [ "#ef4444"; "#f97316"; "#f59e0b"; "#84cc16"; "#10b981"; "#14b8a6";
    "#06b6d4"; "#3b82f6"; "#6366f1"; "#8b5cf6"; "#a855f7"; "#ec4899" ]%string.

(** [COLORS[0]] *)
Definition COLORS_0 : string := nth 0 COLORS EmptyString.

Definition MIN_BOX_SIZE : float := 8.
Definition POLYGON_CLOSE_DISTANCE : float := 14.
Definition FREEHAND_CLOSE_DISTANCE : float := 12.
Definition MAX_UNDO_STACK : nat := 50.

(** Sequencing of state updates, in the order the handler performs them. *)
Notation "s |> f" := (f s) (at level 45, left associativity, only parsing).

(** ** Geometry utilities *)

Section WithEngine.
Context {engine : Engine}.

Definition clonePoint (p : AnnotationPoint) : AnnotationPoint :=
  {| x := x p; y := y p |}.

Definition cloneRect (r : Rect) : Rect :=
  {| rx := rx r; ry := ry r; width := width r; height := height r |}.

Definition cloneShape (shape : AnnotationShape) : AnnotationShape :=
  {| id := id shape;
     type := type shape;
     color := color shape;
     label := label shape;
     points := option_map (map clonePoint) (points shape);
     bbox := option_map cloneRect (bbox shape) |}.

Definition cloneAnnotations (shapes : list AnnotationShape) : list AnnotationShape :=
  map cloneShape shapes.

(** [points.slice(0, -1)] is [removelast points]. *)
Definition ensureClosed (pts : list AnnotationPoint) (threshold : float)
  : list AnnotationPoint :=
  if (length pts <? 2)%nat then pts
  else
    match pts with
    | [] => pts
    | first :: _ =>
        let lastp := last pts first in
        let distance := Math_hypot (x lastp - x first) (y lastp - y first) in
        if num_eq distance 0 then pts
        else if num_le distance threshold then removelast pts ++ [first]
        else pts ++ [first]
    end.

(** [Math.min(...xs)] and [Math.max(...xs)]: the arguments are folded from
    [+Infinity] and from [-Infinity].  The limit that an engine puts on
    the number of spread arguments is not modelled. *)
Definition min_of (xs : list float) : float := fold_left Math_min xs infinity.
Definition max_of (xs : list float) : float := fold_left Math_max xs neg_infinity.

Definition computeShapeBounds (shape : AnnotationShape) : option Rect :=
  match bbox shape with
  | Some b => Some (cloneRect b)
  | None =>
      match points shape with
      | Some (p :: ps) =>
          let xs := map x (p :: ps) in
          let ys := map y (p :: ps) in
          let minX := min_of xs in
          let maxX := max_of xs in
          let minY := min_of ys in
          let maxY := max_of ys in
          Some {| rx := minX; ry := minY;
                  width := maxX - minX; height := maxY - minY |}
      | _ => None
      end
  end.

Definition normalizeRect (start stop : AnnotationPoint) : Rect :=
  {| rx := Math_min (x start) (x stop);
     ry := Math_min (y start) (y stop);
     width := Math_abs (x stop - x start);
     height := Math_abs (y stop - y start) |}.

Definition rectsIntersect (a b : Rect) : bool :=
  num_lt (rx a) (rx b + width b) && num_gt (rx a + width a) (rx b)
  && num_lt (ry a) (ry b + height b) && num_gt (ry a + height a) (ry b).

Definition distancePointToSegment (point start stop : AnnotationPoint) : float :=
  let l2 := square (x stop - x start) + square (y stop - y start) in
  if num_eq l2 0 then Math_hypot (x point - x start) (y point - y start)
  else
    let t := ((x point - x start) * (x stop - x start)
              + (y point - y start) * (y stop - y start)) / l2 in
    let t := Math_max 0 (Math_min 1 t) in
    let projection :=
      {| x := x start + t * (x stop - x start);
         y := y start + t * (y stop - y start) |} in
    Math_hypot (x point - x projection) (y point - y projection).

(** The loop visits the consecutive pairs [polyline[i], polyline[i+1]]. *)
Fixpoint isPointNearPolyline (point : AnnotationPoint)
  (polyline : list AnnotationPoint) (tolerance : float) : bool :=
  match polyline with
  | start :: (stop :: _) as rest =>
      if num_le (distancePointToSegment point start stop) tolerance then true
      else isPointNearPolyline point rest tolerance
  | _ => false
  end.

(** One iteration of the ray-casting loop: [vi] is [polygon[i]], [vj] is
    [polygon[j]].  The conjunction is evaluated left to right, so the
    quotient is computed only when the first conjunct holds. *)
Definition edgeIntersect (point vi vj : AnnotationPoint) : bool :=
  let xi := x vi in let yi := y vi in
  let xj := x vj in let yj := y vj in
  negb (Bool.eqb (num_gt yi (y point)) (num_gt yj (y point)))
  && num_lt (x point) (((xj - xi) * (y point - yi)) / (yj - yi) + xi).

(** The same iteration with the division guarded. *)
Definition edgeIntersect_checked (point vi vj : AnnotationPoint) : option bool :=
  let xi := x vi in let yi := y vi in
  let xj := x vj in let yj := y vj in
  if negb (Bool.eqb (num_gt yi (y point)) (num_gt yj (y point))) then
    match checked_div ((xj - xi) * (y point - yi)) (yj - yi) with
    | Some q => Some (num_lt (x point) (q + xi))
    | None => None
    end
  else Some false.

(** [for (i = 0, j = n - 1; i < n; j = i++)]: [rest] holds
    [polygon[i..]], [vj] is [polygon[j]]. *)
Fixpoint pip_loop (point : AnnotationPoint) (rest : list AnnotationPoint)
  (vj : AnnotationPoint) (inside : bool) : bool :=
  match rest with
  | [] => inside
  | vi :: rest' =>
      let inside := if edgeIntersect point vi vj then negb inside else inside in
      pip_loop point rest' vi inside
  end.

Definition isPointInPolygon (point : AnnotationPoint)
  (polygon : list AnnotationPoint) : bool :=
  match polygon with
  | [] => false
  | v0 :: _ => pip_loop point polygon (last polygon v0) false
  end.

Fixpoint pip_loop_checked (point : AnnotationPoint) (rest : list AnnotationPoint)
  (vj : AnnotationPoint) (inside : bool) : option bool :=
  match rest with
  | [] => Some inside
  | vi :: rest' =>
      match edgeIntersect_checked point vi vj with
      | Some b => pip_loop_checked point rest' vi (if b then negb inside else inside)
      | None => None
      end
  end.

Definition isPointInPolygon_checked (point : AnnotationPoint)
  (polygon : list AnnotationPoint) : option bool :=
  match polygon with
  | [] => Some false
  | v0 :: _ => pip_loop_checked point polygon (last polygon v0) false
  end.

(** ** Editor state

    The [useState] cells and the [useRef] cells of the component that the
    tools read or write.  Arrays are lists in index order: the annotation
    collection in insertion order, the undo stack with its oldest snapshot
    first ([push] appends, [shift] drops the head, [pop] takes the last).
    [toolRef] and [polygonPointsRef] mirror [tool] and [polygonPoints] and
    are read through them. *)

Record EditorState : Type := mkState {
  annotations : list AnnotationShape;
  tool : Tool;
  currentColor : string;
  selectedIds : list string;
  isDrawing : bool;
  startPos : option AnnotationPoint;
  draftShape : option AnnotationShape;
  polygonPoints : list AnnotationPoint;
  selectionRect : option Rect;
  selectionStartRef : option AnnotationPoint;
  freehandPointsRef : list AnnotationPoint;
  drawingColorRef : string;
  undoStackRef : list (list AnnotationShape)
}.

(** The state after mounting the component on an item whose stored
    annotations are [seed]. *)
Definition initialState (seed : list AnnotationShape) : EditorState :=
  {| annotations := seed;
     tool := Bbox;
     currentColor := COLORS_0;
     selectedIds := [];
     isDrawing := false;
     startPos := None;
     draftShape := None;
     polygonPoints := [];
     selectionRect := None;
     selectionStartRef := None;
     freehandPointsRef := [];
     drawingColorRef := COLORS_0;
     undoStackRef := [] |}.

(** Field updates. *)
Definition set_annotations v (s : EditorState) : EditorState :=
  mkState v (tool s) (currentColor s) (selectedIds s) (isDrawing s) (startPos s)
    (draftShape s) (polygonPoints s) (selectionRect s) (selectionStartRef s)
    (freehandPointsRef s) (drawingColorRef s) (undoStackRef s).
Definition set_tool v (s : EditorState) : EditorState :=
  mkState (annotations s) v (currentColor s) (selectedIds s) (isDrawing s) (startPos s)
    (draftShape s) (polygonPoints s) (selectionRect s) (selectionStartRef s)
    (freehandPointsRef s) (drawingColorRef s) (undoStackRef s).
Definition set_currentColor v (s : EditorState) : EditorState :=
  mkState (annotations s) (tool s) v (selectedIds s) (isDrawing s) (startPos s)
    (draftShape s) (polygonPoints s) (selectionRect s) (selectionStartRef s)
    (freehandPointsRef s) (drawingColorRef s) (undoStackRef s).
Definition set_selectedIds v (s : EditorState) : EditorState :=
  mkState (annotations s) (tool s) (currentColor s) v (isDrawing s) (startPos s)
    (draftShape s) (polygonPoints s) (selectionRect s) (selectionStartRef s)
    (freehandPointsRef s) (drawingColorRef s) (undoStackRef s).
Definition set_isDrawing v (s : EditorState) : EditorState :=
  mkState (annotations s) (tool s) (currentColor s) (selectedIds s) v (startPos s)
    (draftShape s) (polygonPoints s) (selectionRect s) (selectionStartRef s)
    (freehandPointsRef s) (drawingColorRef s) (undoStackRef s).
Definition set_startPos v (s : EditorState) : EditorState :=
  mkState (annotations s) (tool s) (currentColor s) (selectedIds s) (isDrawing s) v
    (draftShape s) (polygonPoints s) (selectionRect s) (selectionStartRef s)
    (freehandPointsRef s) (drawingColorRef s) (undoStackRef s).
Definition set_draftShape v (s : EditorState) : EditorState :=
  mkState (annotations s) (tool s) (currentColor s) (selectedIds s) (isDrawing s) (startPos s)
    v (polygonPoints s) (selectionRect s) (selectionStartRef s)
    (freehandPointsRef s) (drawingColorRef s) (undoStackRef s).
Definition set_polygonPoints v (s : EditorState) : EditorState :=
  mkState (annotations s) (tool s) (currentColor s) (selectedIds s) (isDrawing s) (startPos s)
    (draftShape s) v (selectionRect s) (selectionStartRef s)
    (freehandPointsRef s) (drawingColorRef s) (undoStackRef s).
Definition set_selectionRect v (s : EditorState) : EditorState :=
  mkState (annotations s) (tool s) (currentColor s) (selectedIds s) (isDrawing s) (startPos s)
    (draftShape s) (polygonPoints s) v (selectionStartRef s)
    (freehandPointsRef s) (drawingColorRef s) (undoStackRef s).
Definition set_selectionStartRef v (s : EditorState) : EditorState :=
  mkState (annotations s) (tool s) (currentColor s) (selectedIds s) (isDrawing s) (startPos s)
    (draftShape s) (polygonPoints s) (selectionRect s) v
    (freehandPointsRef s) (drawingColorRef s) (undoStackRef s).
Definition set_freehandPointsRef v (s : EditorState) : EditorState :=
  mkState (annotations s) (tool s) (currentColor s) (selectedIds s) (isDrawing s) (startPos s)
    (draftShape s) (polygonPoints s) (selectionRect s) (selectionStartRef s)
    v (drawingColorRef s) (undoStackRef s).
Definition set_drawingColorRef v (s : EditorState) : EditorState :=
  mkState (annotations s) (tool s) (currentColor s) (selectedIds s) (isDrawing s) (startPos s)
    (draftShape s) (polygonPoints s) (selectionRect s) (selectionStartRef s)
    (freehandPointsRef s) v (undoStackRef s).
Definition set_undoStackRef v (s : EditorState) : EditorState :=
  mkState (annotations s) (tool s) (currentColor s) (selectedIds s) (isDrawing s) (startPos s)
    (draftShape s) (polygonPoints s) (selectionRect s) (selectionStartRef s)
    (freehandPointsRef s) (drawingColorRef s) v.

(** ** Undo history *)

(** [undoStackRef.current.push(clone); if (length > MAX) shift()] *)
Definition pushUndoSnapshot (snapshot : list AnnotationShape) (s : EditorState)
  : EditorState :=
  let pushed := undoStackRef s ++ [cloneAnnotations snapshot] in
  if (MAX_UNDO_STACK <? length pushed)%nat
  then set_undoStackRef (tl pushed) s
  else set_undoStackRef pushed s.

(** [pop()] returns [undefined] on an empty array; an array, even an empty
    one, is truthy. *)
Definition undoLastAnnotationChange (s : EditorState) : EditorState :=
  match rev (undoStackRef s) with
  | [] => s
  | previous :: _ =>
      s |> set_undoStackRef (removelast (undoStackRef s))
        |> set_annotations previous
        |> set_selectedIds []
  end.

(** The [keydown] handler once the key is recognised as undo and the focus
    is not in an editable element. *)
Definition handleUndoKey (s : EditorState) : EditorState :=
  if Tool_eqb (tool s) Polygon && (0 <? length (polygonPoints s))%nat
  then set_polygonPoints (removelast (polygonPoints s)) s
  else undoLastAnnotationChange s.

(** ** Hit testing *)

Definition inBBox (point : AnnotationPoint) (b : Rect) : bool :=
  num_ge (x point) (rx b) && num_le (x point) (rx b + width b)
  && num_ge (y point) (ry b) && num_le (y point) (ry b + height b).

Definition isFreehand (t : AnnotationType) : bool :=
  match t with freehand_t => true | _ => false end.

(** The body of the loop of [findAnnotationAt] for one shape: whether one
    of its three [return shape.id] is taken. *)
Definition shapeHit (point : AnnotationPoint) (shape : AnnotationShape) : bool :=
  if match bbox shape with Some b => inBBox point b | None => false end
  then true
  else if match points shape with
          | Some pts => (3 <=? length pts)%nat && isPointInPolygon point pts
          | None => false
          end
  then true
  else if isFreehand (type shape)
          && match points shape with
             | Some pts => (2 <=? length pts)%nat && isPointNearPolyline point pts 8
             | None => false
             end
  then true
  else false.

(** [for (index = length - 1; index >= 0; index -= 1)]: [n] is
    [index + 1]. *)
Fixpoint findAnnotationAt_loop (anns : list AnnotationShape)
  (point : AnnotationPoint) (n : nat) : option string :=
  match n with
  | O => None
  | S index =>
      match nth_error anns index with
      | Some shape =>
          if shapeHit point shape then Some (id shape)
          else findAnnotationAt_loop anns point index
      | None => findAnnotationAt_loop anns point index
      end
  end.

Definition findAnnotationAt (s : EditorState) (point : AnnotationPoint)
  : option string :=
  findAnnotationAt_loop (annotations s) point (length (annotations s)).

(** A string is truthy unless it is empty. *)
Definition truthy (str : string) : bool :=
  match str with EmptyString => false | _ => true end.

Definition includes (ids : list string) (i : string) : bool :=
  existsb (String.eqb i) ids.

(** [Array.from(new Set(ids))]: first occurrences, in order. *)
Fixpoint dedupe_from (seen ids : list string) : list string :=
  match ids with
  | [] => []
  | i :: rest =>
      if includes seen i then dedupe_from seen rest
      else i :: dedupe_from (seen ++ [i]) rest
  end.

Definition dedupe (ids : list string) : list string := dedupe_from [] ids.

(** ** Tool handlers

    A handler reads the state cells of the render it was created in and
    the live value of the refs; [freshId] is the value that
    [generateAnnotationId()] returns if the handler calls it. *)

(** The update shared by the three finalizers:
    [setAnnotations(prev => { pushUndoSnapshot(prev); return [...prev, newShape] });
     setSelectedIds([newShape.id])]. *)
Definition commitShape (newShape : AnnotationShape) (s : EditorState) : EditorState :=
  s |> pushUndoSnapshot (annotations s)
    |> set_annotations (annotations s ++ [newShape])
    |> set_selectedIds [id newShape].

(** [arr[arr.length - 1]], [undefined] on an empty array. *)
Definition lastElement {A : Type} (l : list A) : option A :=
  match l with
  | [] => None
  | a :: _ => Some (last l a)
  end.

Definition appendFreehandPoint (point : AnnotationPoint) (force : bool)
  (s : EditorState) : EditorState :=
  let pts := freehandPointsRef s in
  let minDistance := 2 in
  let accept :=
    match lastElement pts with
    | None => true
    | Some lastp =>
        force || num_ge (Math_hypot (x point - x lastp) (y point - y lastp)) minDistance
    end in
  if accept then
    s |> set_freehandPointsRef (pts ++ [point])
      |> set_draftShape (Some {| id := "draft-freehand";
                                 type := freehand_t;
                                 color := Some (drawingColorRef s);
                                 label := None;
                                 points := Some (pts ++ [point]);
                                 bbox := None |})
  else s.

Definition finalizeFreehand (freshId : string) (s : EditorState) : EditorState :=
  let pts := freehandPointsRef s in
  if (length pts <? 2)%nat then
    s |> set_freehandPointsRef [] |> set_draftShape None
      |> set_isDrawing false |> set_startPos None
  else
    let newShape :=
      {| id := freshId;
         type := freehand_t;
         color := Some (drawingColorRef s);
         label := None;
         points := Some (ensureClosed pts FREEHAND_CLOSE_DISTANCE);
         bbox := None |} in
    s |> commitShape newShape
      |> set_freehandPointsRef [] |> set_draftShape None
      |> set_isDrawing false |> set_startPos None.

Definition finalizePolygon (pts : list AnnotationPoint) (freshId : string)
  (s : EditorState) : EditorState :=
  if (length pts <? 3)%nat then s
  else
    let newShape :=
      {| id := freshId;
         type := polygon_t;
         color := Some (drawingColorRef s);
         label := None;
         points := Some (ensureClosed pts POLYGON_CLOSE_DISTANCE);
         bbox := None |} in
    s |> commitShape newShape |> set_polygonPoints [].

Definition finalizeBoundingBox (coords : AnnotationPoint) (freshId : string)
  (s : EditorState) : EditorState :=
  match startPos s with
  | None => s
  | Some start =>
      let w := Math_abs (x coords - x start) in
      let h := Math_abs (y coords - y start) in
      if num_lt w MIN_BOX_SIZE || num_lt h MIN_BOX_SIZE then s
      else
        let newShape :=
          {| id := freshId;
             type := bbox_t;
             color := Some (currentColor s);
             label := None;
             points := None;
             bbox := Some {| rx := Math_min (x start) (x coords);
                             ry := Math_min (y start) (y coords);
                             width := w;
                             height := h |} |} in
        commitShape newShape s
  end.

Definition removeById (found : string) (shapes : list AnnotationShape)
  : list AnnotationShape :=
  filter (fun shape => negb (String.eqb (id shape) found)) shapes.

Definition withoutId (found : string) (ids : list string) : list string :=
  filter (fun i => negb (String.eqb i found)) ids.

Definition handleMouseDown (coords : AnnotationPoint) (shiftKey : bool)
  (freshId : string) (s : EditorState) : EditorState :=
  match tool s with
  | Select =>
      let s1 :=
        s |> set_selectionStartRef (Some coords)
          |> set_isDrawing true
          |> set_selectionRect
               (Some {| rx := x coords; ry := y coords; width := 0; height := 0 |}) in
      if negb shiftKey then set_selectedIds [] s1 else s1
  | Erase =>
      match findAnnotationAt s coords with
      | Some found =>
          if truthy found then
            s |> pushUndoSnapshot (annotations s)
              |> set_annotations (removeById found (annotations s))
              |> set_selectedIds (withoutId found (selectedIds s))
          else s
      | None => s
      end
  | Bbox =>
      s |> set_isDrawing true
        |> set_drawingColorRef (currentColor s)
        |> set_startPos (Some coords)
        |> set_draftShape
             (Some {| id := "draft-bbox";
                      type := bbox_t;
                      color := Some (currentColor s);
                      label := None;
                      points := None;
                      bbox := Some {| rx := x coords; ry := y coords;
                                      width := 0; height := 0 |} |})
  | Freehand =>
      s |> set_isDrawing true
        |> set_drawingColorRef (currentColor s)
        |> set_freehandPointsRef []
        |> appendFreehandPoint coords true
  | Polygon =>
      let s1 :=
        if (length (polygonPoints s) =? 0)%nat
        then set_drawingColorRef (currentColor s) s else s in
      let closing :=
        (3 <=? length (polygonPoints s))%nat
        && match polygonPoints s with
           | first :: _ =>
               num_le (Math_hypot (x coords - x first) (y coords - y first))
                 POLYGON_CLOSE_DISTANCE
           | [] => false
           end in
      if closing then finalizePolygon (polygonPoints s) freshId s1
      else set_polygonPoints (polygonPoints s ++ [coords]) s1
  end.

Definition handleMouseMove (coords : AnnotationPoint) (s : EditorState)
  : EditorState :=
  match tool s, selectionStartRef s with
  | Select, Some start => set_selectionRect (Some (normalizeRect start coords)) s
  | _, _ =>
      if negb (isDrawing s) then s
      else
        match tool s, startPos s with
        | Bbox, Some start =>
            set_draftShape
              (Some {| id := "draft-bbox";
                       type := bbox_t;
                       color := Some (drawingColorRef s);
                       label := None;
                       points := None;
                       bbox := Some {| rx := Math_min (x start) (x coords);
                                       ry := Math_min (y start) (y coords);
                                       width := Math_abs (x coords - x start);
                                       height := Math_abs (y coords - y start) |} |}) s
        | Freehand, _ => appendFreehandPoint coords false s
        | _, _ => s
        end
  end.

(** The ids of the shapes whose bounds meet the selection rectangle. *)
Definition rectMatches (rect : Rect) (shapes : list AnnotationShape) : list string :=
  map id
    (filter (fun shape =>
               match computeShapeBounds shape with
               | Some bounds => rectsIntersect rect bounds
               | None => false
               end) shapes).

Definition selectOnMouseUp (coords : AnnotationPoint) (shiftKey : bool)
  (s : EditorState) : EditorState :=
  let start := selectionStartRef s in
  let rect :=
    match selectionRect s, start with
    | Some r, Some _ => Some r
    | _, Some st => Some (normalizeRect st coords)
    | _, None => None
    end in
  let s1 := s |> set_selectionStartRef None |> set_selectionRect None
              |> set_isDrawing false in
  let clickSelect :=
    match findAnnotationAt s coords with
    | Some found =>
        if truthy found then
          set_selectedIds
            (if shiftKey
             then if includes (selectedIds s) found
                  then withoutId found (selectedIds s)
                  else selectedIds s ++ [found]
             else [found]) s1
        else if negb shiftKey then set_selectedIds [] s1 else s1
    | None => if negb shiftKey then set_selectedIds [] s1 else s1
    end in
  match start with
  | None => s1
  | Some _ =>
      match rect with
      | None => clickSelect
      | Some r =>
          let minDimension := Math_max (width r) (height r) in
          if num_lt minDimension 5 then clickSelect
          else
            let matches := rectMatches r (annotations s) in
            if (0 <? length matches)%nat then
              set_selectedIds
                (if shiftKey then dedupe (selectedIds s ++ matches) else matches) s1
            else if negb shiftKey then set_selectedIds [] s1 else s1
      end
  end.

Definition handleMouseUp (coords : AnnotationPoint) (shiftKey : bool)
  (freshId : string) (s : EditorState) : EditorState :=
  match tool s with
  | Select => selectOnMouseUp coords shiftKey s
  | Bbox =>
      if negb (isDrawing s) then s
      else
        s |> finalizeBoundingBox coords freshId
          |> set_isDrawing false |> set_startPos None |> set_draftShape None
  | Freehand =>
      if negb (isDrawing s) then s
      else s |> appendFreehandPoint coords true |> finalizeFreehand freshId
  | _ => s
  end.

Definition handleMouseLeave (coords : AnnotationPoint) (shiftKey : bool)
  (freshId : string) (s : EditorState) : EditorState :=
  match tool s, selectionStartRef s with
  | Select, Some _ => handleMouseUp coords shiftKey freshId s
  | _, _ =>
      if negb (isDrawing s) then s
      else
        match tool s with
        | Bbox => handleMouseUp coords shiftKey freshId s
        | Freehand => finalizeFreehand freshId s
        | _ => s
        end
  end.

Definition handleFinishPolygon (freshId : string) (s : EditorState) : EditorState :=
  finalizePolygon (polygonPoints s) freshId s.

Definition handleUndoPolygonPoint (s : EditorState) : EditorState :=
  set_polygonPoints (removelast (polygonPoints s)) s.

Definition handleClearPolygon (s : EditorState) : EditorState :=
  set_polygonPoints [] s.

Definition handleDeleteSelected (s : EditorState) : EditorState :=
  if (length (selectedIds s) =? 0)%nat then s
  else
    s |> pushUndoSnapshot (annotations s)
      |> set_annotations
           (filter (fun shape => negb (includes (selectedIds s) (id shape)))
              (annotations s))
      |> set_selectedIds [].

(** ** Effects

    [useEffect] hooks run after a render, in the order they are declared,
    when one of their dependencies differs from the previous render. *)

(** [useEffect(..., [currentColor, isDrawing, polygonPoints.length])] *)
Definition colorEffect (s : EditorState) : EditorState :=
  if negb (isDrawing s) && (length (polygonPoints s) =? 0)%nat
  then set_drawingColorRef (currentColor s) s
  else s.

Definition colorDepsChanged (prev s : EditorState) : bool :=
  negb (String.eqb (currentColor prev) (currentColor s))
  || negb (Bool.eqb (isDrawing prev) (isDrawing s))
  || negb (length (polygonPoints prev) =? length (polygonPoints s))%nat.

(** [useEffect(..., [tool])] *)
Definition toolEffect (s : EditorState) : EditorState :=
  s |> set_isDrawing false |> set_startPos None |> set_draftShape None
    |> set_polygonPoints [] |> set_selectionRect None
    |> set_selectionStartRef None |> set_freehandPointsRef []
    |> set_selectedIds (if Tool_eqb (tool s) Select then selectedIds s else []).

(** The effects of the render that follows a handler, and of the second
    render that the tool effect's own state updates cause. *)
Definition runEffects (prev s : EditorState) : EditorState :=
  let s1 := if colorDepsChanged prev s then colorEffect s else s in
  if Tool_eqb (tool prev) (tool s) then s1
  else
    let s2 := toolEffect s1 in
    if colorDepsChanged s s2 then colorEffect s2 else s2.

(** [useEffect(..., [item.id, item.annotations])]: the parent hands the
    canvas another item, or the same item with another [annotations] array
    (as it does after a save).  [itemAnnotations] is [item.annotations],
    [None] when it is absent. *)
Definition itemEffect (itemAnnotations : option (list AnnotationShape))
  (s : EditorState) : EditorState :=
  s |> set_annotations (match itemAnnotations with Some a => a | None => [] end)
    |> set_selectedIds [] |> set_draftShape None |> set_polygonPoints []
    |> set_selectionRect None |> set_selectionStartRef None
    |> set_undoStackRef [].

(** ** Events *)

Inductive Event : Type :=
| MouseDown (coords : AnnotationPoint) (shiftKey : bool) (freshId : string)
| MouseMove (coords : AnnotationPoint)
| MouseUp (coords : AnnotationPoint) (shiftKey : bool) (freshId : string)
| MouseLeave (coords : AnnotationPoint) (shiftKey : bool) (freshId : string)
| ClickTool (t : Tool)
| ClickColor (c : string)
| ClickFinishPolygon (freshId : string)
| ClickUndoPolygonPoint
| ClickClearPolygon
| ClickDeleteSelected
| KeyUndo.

Definition handle (e : Event) (s : EditorState) : EditorState :=
  match e with
  | MouseDown coords shiftKey freshId => handleMouseDown coords shiftKey freshId s
  | MouseMove coords => handleMouseMove coords s
  | MouseUp coords shiftKey freshId => handleMouseUp coords shiftKey freshId s
  | MouseLeave coords shiftKey freshId => handleMouseLeave coords shiftKey freshId s
  | ClickTool t => set_tool t s
  | ClickColor c => set_currentColor c s
  | ClickFinishPolygon freshId => handleFinishPolygon freshId s
  | ClickUndoPolygonPoint => handleUndoPolygonPoint s
  | ClickClearPolygon => handleClearPolygon s
  | ClickDeleteSelected => handleDeleteSelected s
  | KeyUndo => handleUndoKey s
  end.

Definition step (s : EditorState) (e : Event) : EditorState :=
  runEffects s (handle e s).

Definition run (events : list Event) (s : EditorState) : EditorState :=
  fold_left step events s.

End WithEngine.

(** ** Predicates used by the statements *)

Section Statements.
Context {engine : Engine}.

(** The distance between two points as the code measures it:
    [Math.hypot(p.x - q.x, p.y - q.y)]. *)
Definition distanceBetween (p q : AnnotationPoint) : float :=
  Math_hypot (x p - x q) (y p - y q).

(** Two points with the same coordinates ([===] on both). *)
Definition samePoint (p q : AnnotationPoint) : Prop :=
  num_eq (x p) (x q) = true /\ num_eq (y p) (y q) = true.

(** Two points that close a path: one and the same point, or two points
    at distance zero of each other by the code's own measure. *)
Definition coincide (p q : AnnotationPoint) : Prop :=
  p = q \/ num_eq (distanceBetween p q) 0 = true.

(** What an accurate [Math.hypot] satisfies at the arguments [a] and [b]:
    the result is zero only if both are zero. *)
Definition hypotVanishesOnlyAtZero (a b : float) : Prop :=
  num_eq (Math_hypot a b) 0 = true -> num_eq a 0 = true /\ num_eq b 0 = true.

End Statements.

(** ** Sample inputs *)

Definition triangle_path : list AnnotationPoint :=
  [mkPoint 0 0; mkPoint 10 0; mkPoint 10 10].

(** A path that ends where it starts. *)
Definition returning_path : list AnnotationPoint :=
  [mkPoint 0 0; mkPoint 10 0; mkPoint 0 0].

(** A path that ends about 7 px from where it starts. *)
Definition nearly_closed_path : list AnnotationPoint :=
  [mkPoint 0 0; mkPoint 10 0; mkPoint 5 5].

(** A path whose end is at [sqrt (196 + 2^-60)] from its start: above 14,
    and 14 once rounded to a double. *)
Definition boundary_path : list AnnotationPoint :=
  [mkPoint 0 0; mkPoint 5 5; mkPoint 14 0x1p-30].

(** ** The hit-testing rule, as the specification words it *)

(** Point in rectangle, edges included:
    [x <= px <= x + width] and [y <= py <= y + height]. *)
Definition pointInRect (point : AnnotationPoint) (r : Rect) : bool :=
  num_le (rx r) (x point) && num_le (x point) (rx r + width r)
  && num_le (ry r) (y point) && num_le (y point) (ry r + height r).

(** The edges of a polygon: every vertex with the vertex before it, the
    first one with the last. *)
Definition polygonEdges (polygon : list AnnotationPoint)
  : list (AnnotationPoint * AnnotationPoint) :=
  match polygon with
  | [] => []
  | v0 :: _ => combine polygon (last polygon v0 :: polygon)
  end.

(** The horizontal ray from [p] to the right crosses the edge: the two
    ends are on different sides of the line through [p] (an end on the
    line counts as below it), and [p] is left of the point where the edge
    meets that line. *)
Definition crossesRay (p : AnnotationPoint)
  (edge : AnnotationPoint * AnnotationPoint) : bool :=
  let (a, b) := edge in
  xorb (num_gt (y a) (y p)) (num_gt (y b) (y p))
  && num_lt (x p) ((x b - x a) * (y p - y a) / (y b - y a) + x a).

(** Ray casting: the ray crosses an odd number of edges. *)
Definition rayCast (p : AnnotationPoint) (polygon : list AnnotationPoint) : bool :=
  Nat.odd (length (filter (crossesRay p) (polygonEdges polygon))).

(** The segments of a polyline: every point with the next one. *)
Definition segments (polyline : list AnnotationPoint)
  : list (AnnotationPoint * AnnotationPoint) :=
  combine polyline (tl polyline).

Section HitRule.
Context {engine : Engine}.

(** Some segment of the polyline is within the tolerance of the point. *)
Definition nearPolyline (p : AnnotationPoint) (polyline : list AnnotationPoint)
  (tolerance : float) : bool :=
  existsb
    (fun seg => num_le (distancePointToSegment p (fst seg) (snd seg)) tolerance)
    (segments polyline).

Definition bboxRule (point : AnnotationPoint) (shape : AnnotationShape) : bool :=
  match bbox shape with
  | Some r => pointInRect point r
  | None => false
  end.

Definition polygonRule (point : AnnotationPoint) (shape : AnnotationShape) : bool :=
  match points shape with
  | Some pts => (3 <=? length pts)%nat && rayCast point pts
  | None => false
  end.

Definition freehandRule (point : AnnotationPoint) (shape : AnnotationShape) : bool :=
  match type shape, points shape with
  | freehand_t, Some pts => (2 <=? length pts)%nat && nearPolyline point pts 8
  | _, _ => false
  end.

Definition shapeMatches (point : AnnotationPoint) (shape : AnnotationShape) : bool :=
  bboxRule point shape || polygonRule point shape || freehandRule point shape.

(** The same rule with "bbox shape" read as a shape of type [bbox]. *)
Definition bboxRuleByType (point : AnnotationPoint) (shape : AnnotationShape) : bool :=
  match type shape, bbox shape with
  | bbox_t, Some r => pointInRect point r
  | _, _ => false
  end.

Definition shapeMatchesByType (point : AnnotationPoint) (shape : AnnotationShape)
  : bool :=
  bboxRuleByType point shape || polygonRule point shape || freehandRule point shape.

(** The first match from the most recently added shape to the least
    recently added one. *)
Definition topmostMatch (shapes : list AnnotationShape) (point : AnnotationPoint)
  : option string :=
  option_map id (find (shapeMatches point) (rev shapes)).

End HitRule.

(** The data model: [bbox] is present only for [bbox] shapes. *)
Definition bboxOnlyOnBoxes (shape : AnnotationShape) : Prop :=
  match bbox shape with
  | Some _ => type shape = bbox_t
  | None => True
  end.

Definition sample_box : AnnotationShape :=
  {| id := "box-1"; type := bbox_t; color := Some COLORS_0; label := None;
     points := None; bbox := Some (mkRect 0 0 20 20) |}.

(** A box that covers the lower right quarter of [sample_box]. *)
Definition overlapping_box : AnnotationShape :=
  {| id := "box-2"; type := bbox_t; color := Some COLORS_0; label := None;
     points := None; bbox := Some (mkRect 10 10 20 20) |}.

(** A box whose right edge is at [0.1 + 0.2], which is
    [0.30000000000000004] in doubles. *)
Definition thin_box : AnnotationShape :=
  {| id := "thin"; type := bbox_t; color := Some COLORS_0; label := None;
     points := None; bbox := Some (mkRect 0.1 0 0.2 1) |}.

Definition sample_polygon : AnnotationShape :=
  {| id := "poly-1"; type := polygon_t; color := Some COLORS_0; label := None;
     points := Some (triangle_path ++ [mkPoint 0 0]); bbox := None |}.

(** A triangle away from the boxes. *)
Definition far_polygon : AnnotationShape :=
  {| id := "poly-2"; type := polygon_t; color := Some COLORS_0; label := None;
     points := Some [mkPoint 30 0; mkPoint 40 0; mkPoint 40 10; mkPoint 30 0];
     bbox := None |}.

(** An open stroke of two segments. *)
Definition sample_stroke : AnnotationShape :=
  {| id := "stroke-1"; type := freehand_t; color := Some COLORS_0; label := None;
     points := Some [mkPoint 50 50; mkPoint 60 50; mkPoint 60 60]; bbox := None |}.

(** A shape as the external input may deliver it: no [bbox], no [points]. *)
Definition hollow_shape : AnnotationShape :=
  {| id := "hollow"; type := polygon_t; color := None; label := None;
     points := None; bbox := None |}.

Definition hollow_state : EditorState := initialState [sample_box; hollow_shape].

Definition hit_state : EditorState :=
  initialState [sample_box; overlapping_box; far_polygon; sample_stroke;
                hollow_shape; thin_box].

(** ** Runs of additions and undos *)

(** Consecutive single-shape additions, each through the finalizers'
    commit. *)
Definition addShapes (shapes : list AnnotationShape) (s : EditorState)
  : EditorState :=
  fold_left (fun st shape => commitShape shape st) shapes s.

(** The undo command, [n] times. *)
Definition undoTimes (n : nat) (s : EditorState) : EditorState :=
  Nat.iter n handleUndoKey s.

(** What [pushUndoSnapshot] leaves of a stack that was just pushed on. *)
Definition evictOldest (stack : list (list AnnotationShape))
  : list (list AnnotationShape) :=
  if (MAX_UNDO_STACK <? length stack)%nat then tl stack else stack.

(** ** The polygon close gesture, as the specification words it *)

Section Gestures.
Context {engine : Engine}.

(** Three or more vertices are placed and the new point is within 14 px of
    the first one, by the distance that the code measures. *)
Definition closesPolygon (placed : list AnnotationPoint) (coords : AnnotationPoint)
  : Prop :=
  (3 <= length placed)%nat /\
  exists first,
    hd_error placed = Some first /\ num_le (distanceBetween coords first) 14 = true.

End Gestures.

(** ** The committed point-shape invariant *)

(** A polygon or freehand shape carries at least two points. *)
Definition committedPointShape (shape : AnnotationShape) : Prop :=
  match type shape with
  | bbox_t => True
  | polygon_t | freehand_t =>
      exists pts, points shape = Some pts /\ (2 <= length pts)%nat
  end.

Definition collectionOk (shapes : list AnnotationShape) : Prop :=
  Forall committedPointShape shapes.

(** The invariant covers the snapshots too: undo brings them back. *)
Definition editorOk (s : EditorState) : Prop :=
  collectionOk (annotations s) /\ Forall collectionOk (undoStackRef s).

(** ** Draw operations and palette changes *)

(** What can happen between the start of a drag and its end: the pointer
    moves, or the palette selection changes. *)
Definition duringDrag (e : Event) : Prop :=
  match e with
  | MouseMove _ | ClickColor _ => True
  | _ => False
  end.

(** What can happen while a polygon is in progress: vertices are placed,
    the pointer moves, the palette selection changes, or the finish button
    is pressed. *)
Definition duringPolygon (e : Event) : Prop :=
  match e with
  | MouseDown _ _ _ | MouseMove _ | ClickColor _ | ClickFinishPolygon _ => True
  | _ => False
  end.

(** The palette selection after the events, starting from [c]. *)
Definition paletteAfter (events : list Event) (c : string) : string :=
  fold_left (fun c e => match e with ClickColor c' => c' | _ => c end) events c.

(** A freehand stroke is in progress and its colour is [pinned]. *)
Definition freehandInProgress (pinned : string) (shapes : list AnnotationShape)
  (s : EditorState) : Prop :=
  tool s = Freehand /\ isDrawing s = true /\ drawingColorRef s = pinned /\
  annotations s = shapes /\ freehandPointsRef s <> [].

(** A bbox drag is in progress from [start]. *)
Definition bboxInProgress (start : AnnotationPoint) (shapes : list AnnotationShape)
  (s : EditorState) : Prop :=
  tool s = Bbox /\ isDrawing s = true /\ startPos s = Some start /\
  annotations s = shapes.

(** A polygon is in progress and its colour is [pinned]. *)
Definition polygonInProgress (pinned : string) (s : EditorState) : Prop :=
  tool s = Polygon /\ polygonPoints s <> [] /\ drawingColorRef s = pinned.

(** ** Sample runs *)

(** The number [n]. *)
Fixpoint number_of_nat (n : nat) : float :=
  match n with
  | O => 0
  | S k => number_of_nat k + 1
  end.

Definition numbered_box (n : nat) : AnnotationShape :=
  {| id := String (Ascii.ascii_of_nat (48 + n)) EmptyString;
     type := bbox_t; color := Some COLORS_0; label := None;
     points := None; bbox := Some (mkRect (number_of_nat n) 0 10 10) |}.

Definition fifty_one_boxes : list AnnotationShape := map numbered_box (seq 0 51).

(** One box committed and still selected, with the empty collection in
    the history. *)
Definition selected_state : EditorState :=
  commitShape sample_box (initialState []).

Definition polygon_clicks : list Event :=
  [ ClickTool Polygon;
    MouseDown (mkPoint 0 0) false "p";
    MouseDown (mkPoint 10 0) false "p";
    MouseDown (mkPoint 10 10) false "p";
    MouseDown (mkPoint 2 1) false "p" ].

Definition freehand_stroke : list Event :=
  [ ClickTool Freehand;
    MouseDown (mkPoint 0 0) false "f";
    MouseMove (mkPoint 30 0) ;
    MouseMove (mkPoint 30 30);
    MouseUp (mkPoint 0 30) false "f";
    KeyUndo;
    ClickTool Erase;
    MouseDown (mkPoint 5 3) false "f" ].

(** A drag with the palette changed on the way, once per drawing tool. *)
Definition recolored_drag (t : Tool) : list Event :=
  [ ClickTool t;
    MouseDown (mkPoint 10 10) false "d";
    ClickColor "#3b82f6";
    MouseMove (mkPoint 30 20);
    MouseUp (mkPoint 30 25) false "d" ].

Definition recolored_polygon : list Event :=
  [ ClickTool Polygon;
    MouseDown (mkPoint 0 0) false "p";
    ClickColor "#3b82f6";
    MouseDown (mkPoint 30 0) false "p";
    MouseDown (mkPoint 30 30) false "p";
    ClickFinishPolygon "p" ].

(** Fifty-one bbox drags, each large enough to commit, then fifty-one
    undo commands. *)
Definition fifty_one_drags : list Event :=
  flat_map (fun n =>
              [ MouseDown (mkPoint (number_of_nat n) 0) false "b";
                MouseUp (mkPoint (number_of_nat n + 10) 10) false "b" ])
    (seq 0 51).

Definition fifty_one_undos : list Event := repeat KeyUndo 51.

(** States of the reference engine. *)

(** The pointer went down at (10,10) with the bbox tool. *)
Definition drag_started : EditorState :=
  step (engine := reference_engine) (initialState [])
    (MouseDown (mkPoint 10 10) false "unused").

(** Three vertices placed with the polygon tool. *)
Definition three_vertices : EditorState :=
  run (engine := reference_engine) (firstn 4 polygon_clicks) (initialState []).

(** Three vertices placed further apart. *)
Definition wide_vertices : EditorState :=
  run (engine := reference_engine)
    [ ClickTool Polygon;
      MouseDown (mkPoint 0 0) false "p";
      MouseDown (mkPoint 50 0) false "p";
      MouseDown (mkPoint 50 50) false "p" ]
    (initialState []).

(** ** Lists *)

(** [a] and [b] follow each other in the list. *)
Definition consecutive {A : Type} (a b : A) (l : list A) : Prop :=
  exists before after, l = before ++ a :: b :: after.


(** ** What an event does to the collection and to the history *)

(** What a tool does to the pair of collection and undo stack: nothing;
    append one shape after pushing a snapshot of the collection; remove
    shapes after pushing a snapshot of the collection. *)
Inductive CollectionEdit (s s' : EditorState) : Prop :=
| Untouched :
    annotations s' = annotations s -> undoStackRef s' = undoStackRef s ->
    CollectionEdit s s'
| Appended (shape : AnnotationShape) :
    annotations s' = annotations s ++ [shape] ->
    undoStackRef s' = evictOldest (undoStackRef s ++ [annotations s]) ->
    CollectionEdit s s'
| Removed (keep : AnnotationShape -> bool) :
    annotations s' = filter keep (annotations s) ->
    undoStackRef s' = evictOldest (undoStackRef s ++ [annotations s]) ->
    CollectionEdit s s'.

(** What the undo command does to it: nothing, or restore the last
    snapshot. *)
Inductive CollectionUndo (s s' : EditorState) : Prop :=
| NothingToUndo :
    annotations s' = annotations s -> undoStackRef s' = undoStackRef s ->
    CollectionUndo s s'
| Restored (older : list (list AnnotationShape)) (previous : list AnnotationShape) :
    undoStackRef s = older ++ [previous] ->
    annotations s' = previous -> undoStackRef s' = older ->
    CollectionUndo s s'.

(** ** The selection *)

(** Every selected id is the id of a shape of the collection. *)
Definition selectionValid (s : EditorState) : Prop :=
  incl (selectedIds s) (map id (annotations s)).

(** ** Transient interaction state *)

(** The cells that hold an interaction in progress. *)
Definition transient (s : EditorState) :=
  (tool s, isDrawing s, startPos s, draftShape s, polygonPoints s,
   selectionRect s, selectionStartRef s, freehandPointsRef s).

(** Transient state belongs to the active tool: in-progress polygon
    vertices to the polygon tool, a freehand buffer to a freehand stroke
    being drawn, a drag origin to a bbox being drawn, a selection
    rectangle and its origin to the select tool, a draft shape to a bbox
    or a stroke being drawn; and only bbox, freehand and select draw. *)
Definition transientOk (s : EditorState) : Prop :=
  (polygonPoints s <> [] -> tool s = Polygon) /\
  (freehandPointsRef s <> [] -> tool s = Freehand /\ isDrawing s = true) /\
  (startPos s <> None -> tool s = Bbox /\ isDrawing s = true) /\
  (selectionStartRef s <> None -> tool s = Select) /\
  (selectionRect s <> None -> tool s = Select) /\
  (draftShape s <> None ->
   (tool s = Bbox \/ tool s = Freehand) /\ isDrawing s = true) /\
  (isDrawing s = true -> tool s = Bbox \/ tool s = Freehand \/ tool s = Select).

(** The same, tool by tool. *)
Definition transientNormal (s : EditorState) : Prop :=
  match tool s with
  | Polygon =>
      isDrawing s = false /\ startPos s = None /\ draftShape s = None /\
      selectionRect s = None /\ selectionStartRef s = None /\
      freehandPointsRef s = []
  | Erase =>
      isDrawing s = false /\ startPos s = None /\ draftShape s = None /\
      selectionRect s = None /\ selectionStartRef s = None /\
      freehandPointsRef s = [] /\ polygonPoints s = []
  | Select =>
      startPos s = None /\ draftShape s = None /\
      freehandPointsRef s = [] /\ polygonPoints s = []
  | Bbox =>
      selectionRect s = None /\ selectionStartRef s = None /\
      freehandPointsRef s = [] /\ polygonPoints s = [] /\
      (isDrawing s = false -> startPos s = None /\ draftShape s = None)
  | Freehand =>
      selectionRect s = None /\ selectionStartRef s = None /\
      startPos s = None /\ polygonPoints s = [] /\
      (isDrawing s = false -> freehandPointsRef s = [] /\ draftShape s = None)
  end.

(** ** Erasing *)

Definition erase_demo : EditorState :=
  set_tool Erase (initialState [sample_box; sample_polygon]).

(** ** Selecting *)

(** The select tool after a press at (5,3), the pointer still within 3 px
    of where it went down, over a box, a polygon and a shape without
    geometry. *)
Definition clicking : EditorState :=
  run (engine := reference_engine)
    [ ClickTool Select;
      MouseDown (mkPoint 5 3) false "s";
      MouseMove (mkPoint 8 6) ]
    (initialState [sample_box; sample_polygon; hollow_shape]).

(** The pointer went down at (7,7) with the freehand tool. *)
Definition pressed : EditorState :=
  run (engine := reference_engine)
    [ClickTool Freehand; MouseDown (mkPoint 7 7) false "f"] (initialState []).

(** ** Polylines and polygons *)

Definition zigzag : list AnnotationPoint :=
  [mkPoint 0 0; mkPoint 10 0; mkPoint 10 10].

(** A shape that only the ray cast could match: two points, no bbox, not
    freehand. *)
Definition two_point_polygon : AnnotationShape :=
  {| id := "edge"; type := polygon_t; color := None; label := None;
     points := Some [mkPoint 1 3; mkPoint 0 0]; bbox := None |}.

(** The axis-aligned rectangle from [(x0, y0)] to [(x1, y1)] as a polygon. *)
Definition rectanglePolygon (x0 y0 x1 y1 : float) : list AnnotationPoint :=
  [mkPoint x0 y0; mkPoint x1 y0; mkPoint x1 y1; mkPoint x0 y1].

(** ** Freehand sampling *)

Section SamplingRule.
Context {engine : Engine}.

(** Consecutive points are at least 2 px apart, by the distance that the
    code measures from the earlier to the later one. *)
Definition spaced (pts : list AnnotationPoint) : Prop :=
  forall a b, consecutive a b pts -> num_ge (distanceBetween b a) 2 = true.

End SamplingRule.

Definition slow_stroke : list Event :=
  [ ClickTool Freehand;
    MouseDown (mkPoint 0 0) false "f";
    MouseMove (mkPoint 1 0);
    MouseMove (mkPoint 1 1);
    MouseMove (mkPoint 3 0);
    MouseMove (mkPoint 3 1) ].

(** A stroke whose third point is at [sqrt (4 - 8e-17)] from the second:
    below 2, and 2 once rounded to a double. *)
Definition boundary_stroke : list Event :=
  [ ClickTool Freehand;
    MouseDown (mkPoint 0 0) false "f";
    MouseMove (mkPoint 2 0);
    MouseMove (mkPoint 3.414213562373095 1.4142135623730951) ].


(** A point strictly inside a rectangle, the far edges being the sums
    [x + width] and [y + height] as [rectsIntersect] computes them. *)
Definition strictlyInside (p : AnnotationPoint) (r : Rect) : Prop :=
  num_lt (rx r) (x p) = true /\ num_lt (x p) (rx r + width r) = true /\
  num_lt (ry r) (y p) = true /\ num_lt (y p) (ry r + height r) = true.

(** A selection rectangle whose computed right edge, [325.3 + 546.3],
    is the double just below [871.6], and a rectangle that starts
    there. *)
Definition rounded_rect : Rect := mkRect 325.3 0 546.3 10.
Definition abutting_rect : Rect := mkRect 871.5999999999999 0 10 10.

(** A path that starts and ends at a point at infinity: the difference of
    the two abscissas, [Infinity - Infinity], is NaN. *)
Definition unbounded_path : list AnnotationPoint :=
  [mkPoint infinity 0; mkPoint infinity 0].

(** ** The order of the numbers

    The value of a float as its sign, mantissa and exponent
    ([Floats.SpecFloat]), and a key whose lexicographic order is the order
    of the values that are not NaN: the sign class first, then exponent
    and mantissa. *)

Definition SFnan (X : spec_float) : bool :=
  match X with S754_nan => true | _ => false end.

Definition SFzero (X : spec_float) : bool :=
  match X with S754_zero _ => true | _ => false end.

(** A finite number that is not zero, or an infinity. *)
Definition properSF (X : spec_float) : Prop :=
  match X with S754_finite _ _ _ | S754_infinity _ => True | _ => False end.

(** A zero or a finite number. *)
Definition SFfinite (X : spec_float) : bool :=
  match X with S754_zero _ | S754_finite _ _ _ => true | _ => false end.

Definition SFkey (X : spec_float) : Z * Z * Z :=
  match X with
  | S754_nan => (0, 0, 0)
  | S754_zero _ => (0, 0, 0)
  | S754_infinity true => (-2, 0, 0)
  | S754_infinity false => (2, 0, 0)
  | S754_finite true m e => (-1, - e, - Z.pos m)
  | S754_finite false m e => (1, e, Z.pos m)
  end%Z.

Definition fkey (a : float) : Z * Z * Z := SFkey (Prim2SF a).

Definition keyLt (k k' : Z * Z * Z) : Prop :=
  let '(g, a, b) := k in
  let '(g', a', b') := k' in
  (g < g' \/ (g = g' /\ (a < a' \/ (a = a' /\ b < b'))))%Z.

Definition keyEq (k k' : Z * Z * Z) : Prop :=
  let '(g, a, b) := k in
  let '(g', a', b') := k' in
  (g = g' /\ a = a' /\ b = b')%Z.

(** [a] is a number: not NaN. *)
Definition isNumber (a : float) : Prop := is_nan a = false.

(** * Properties *)

(** ** IEEE 754 arithmetic

    Facts about binary64 derived from the specification of the primitive
    operations: the order of the values, and what subtraction, product,
    quotient and sum do on zeros. *)

(** *** Mantissas and shifts *)

Lemma digits2_pos_bounds (m : positive) :
  (2 ^ (Z.pos (digits2_pos m) - 1) <= Z.pos m < 2 ^ Z.pos (digits2_pos m))%Z.
Proof.
  induction m as [m IH|m IH|]; simpl digits2_pos.
  - rewrite Pos2Z.inj_succ.
    replace (Z.succ (Z.pos (digits2_pos m)) - 1)%Z
      with (Z.succ (Z.pos (digits2_pos m) - 1))%Z by lia.
    rewrite !Z.pow_succ_r by lia. lia.
  - rewrite Pos2Z.inj_succ.
    replace (Z.succ (Z.pos (digits2_pos m)) - 1)%Z
      with (Z.succ (Z.pos (digits2_pos m) - 1))%Z by lia.
    rewrite !Z.pow_succ_r by lia. lia.
  - simpl. lia.
Qed.

Lemma pow2_xO (p : positive) : (2 ^ Z.pos p~0 = 2 ^ Z.pos p * 2 ^ Z.pos p)%Z.
Proof. rewrite Pos2Z.inj_xO, <- Z.pow_add_r by lia. f_equal. lia. Qed.

Lemma pow2_xI (p : positive) : (2 ^ Z.pos p~1 = 2 * (2 ^ Z.pos p * 2 ^ Z.pos p))%Z.
Proof.
  rewrite Pos2Z.inj_xI, <- Z.pow_add_r by lia.
  replace (2 * Z.pos p + 1)%Z with (Z.succ (Z.pos p + Z.pos p)) by lia.
  rewrite Z.pow_succ_r by lia. reflexivity.
Qed.

Lemma pow2_pos (n : Z) : (0 <= n -> 0 < 2 ^ n)%Z.
Proof. intros. apply Z.pow_pos_nonneg; lia. Qed.

Lemma shr_1_m (mrs : shr_record) :
  (0 <= shr_m mrs)%Z -> shr_m (shr_1 mrs) = (shr_m mrs / 2)%Z.
Proof.
  destruct mrs as [m r s]. cbn [shr_m].
  destruct m as [|[p|p|]|p]; cbn [shr_1 shr_m]; intros H; try lia.
  - reflexivity.
  - rewrite Pos2Z.inj_xI. apply Z.div_unique with 1%Z; lia.
  - rewrite Pos2Z.inj_xO. apply Z.div_unique with 0%Z; lia.
  - reflexivity.
Qed.

Lemma iter_pos_shr_m (p : positive) :
  forall mrs, (0 <= shr_m mrs)%Z ->
    shr_m (iter_pos shr_1 p mrs) = (shr_m mrs / 2 ^ Z.pos p)%Z.
Proof.
  induction p as [p IH|p IH|]; intros mrs H; simpl iter_pos.
  - assert (H1 : (0 <= shr_m (shr_1 mrs))%Z).
    { rewrite shr_1_m by exact H. apply Z.div_pos; lia. }
    assert (H2 : (0 <= shr_m (iter_pos shr_1 p (shr_1 mrs)))%Z).
    { rewrite IH by exact H1. apply Z.div_pos; [exact H1|]. apply pow2_pos; lia. }
    pose proof (pow2_pos (Z.pos p) ltac:(lia)) as Hp.
    rewrite IH by exact H2. rewrite IH by exact H1. rewrite shr_1_m by exact H.
    rewrite pow2_xI.
    rewrite !Z.div_div by lia. reflexivity.
  - assert (H2 : (0 <= shr_m (iter_pos shr_1 p mrs))%Z).
    { rewrite IH by exact H. apply Z.div_pos; [exact H|]. apply pow2_pos; lia. }
    pose proof (pow2_pos (Z.pos p) ltac:(lia)) as Hp.
    rewrite IH by exact H2. rewrite IH by exact H.
    rewrite pow2_xO.
    rewrite !Z.div_div by lia. reflexivity.
  - rewrite shr_1_m by exact H. reflexivity.
Qed.

(** Shifting a positive mantissa right by fewer bits than it has leaves a
    positive mantissa. *)
Lemma shr_keeps_positive (m : positive) (r s : bool) (e n : Z) :
  (n < Z.pos (digits2_pos m))%Z ->
  (0 < shr_m (fst (shr (Build_shr_record (Z.pos m) r s) e n)))%Z.
Proof.
  intros Hn. destruct n as [|p|p]; cbn [shr fst shr_m]; try lia.
  rewrite iter_pos_shr_m by (cbn; lia). cbn [shr_m].
  pose proof (digits2_pos_bounds m) as [Hlo _].
  apply Z.div_str_pos. split; [apply pow2_pos; lia|].
  eapply Z.le_trans; [|exact Hlo].
  apply Z.pow_le_mono_r; lia.
Qed.

(** *** Rounding a non-zero mantissa above the smallest exponent gives a
    non-zero number or an infinity *)

Lemma fexp_spec (k : Z) : fexp prec emax k = Z.max (k - 53) (-1074).
Proof. reflexivity. Qed.

Lemma shr_fexp_positive (m : positive) (e : Z) (l : location) :
  (-1074 <= e)%Z ->
  (0 < shr_m (fst (shr_fexp prec emax (Z.pos m) e l)))%Z /\
  (-1074 <= snd (shr_fexp prec emax (Z.pos m) e l))%Z.
Proof.
  intros He. unfold shr_fexp. rewrite fexp_spec. cbn [Zdigits2].
  set (n := (Z.max (Z.pos (digits2_pos m) + e - 53) (-1074) - e)%Z).
  assert (Hn : (n < Z.pos (digits2_pos m))%Z) by (unfold n; lia).
  split.
  - destruct l as [|[| |]]; cbn [shr_record_of_loc]; apply shr_keeps_positive; exact Hn.
  - unfold shr. destruct n as [|p|p] eqn:En; cbn [snd]; lia.
Qed.

Lemma round_nearest_even_ge (m : Z) (l : location) : (m <= round_nearest_even m l)%Z.
Proof.
  destruct l as [|[| |]]; cbn [round_nearest_even]; try lia.
  destruct (Z.even m); lia.
Qed.

Lemma binary_round_aux_nonzero (s : bool) (m : positive) (e : Z) (l : location) :
  (-1074 <= e)%Z -> properSF (binary_round_aux prec emax s (Z.pos m) e l).
Proof.
  intros He. unfold binary_round_aux.
  pose proof (shr_fexp_positive m e l He) as [H1 H2].
  destruct (shr_fexp prec emax (Z.pos m) e l) as [mrs' e']. cbn [fst snd] in H1, H2.
  pose proof (round_nearest_even_ge (shr_m mrs') (loc_of_shr_record mrs')) as H3.
  destruct (round_nearest_even (shr_m mrs') (loc_of_shr_record mrs')) as [|m2|m2]; try lia.
  pose proof (shr_fexp_positive m2 e' loc_Exact H2) as [H4 _].
  destruct (shr_fexp prec emax (Z.pos m2) e' loc_Exact) as [mrs'' e'']. cbn [fst] in H4.
  destruct (shr_m mrs'') as [|m3|m3]; try lia.
  destruct (e'' <=? emax - prec)%Z; exact I.
Qed.

Lemma shl_align_exponent (m : positive) (e e' : Z) :
  (-1074 <= e)%Z -> (-1074 <= e')%Z -> (-1074 <= snd (shl_align m e e'))%Z.
Proof.
  intros. unfold shl_align. destruct (e' - e)%Z; cbn [snd]; lia.
Qed.

Lemma binary_round_nonzero (s : bool) (m : positive) (e : Z) :
  (-1074 <= e)%Z -> properSF (binary_round prec emax s m e).
Proof.
  intros He. unfold binary_round.
  pose proof (shl_align_exponent m e (fexp prec emax (Z.pos (digits2_pos m) + e)) He) as H.
  destruct (shl_align m e _) as [mz ez]. cbn [snd] in H.
  apply binary_round_aux_nonzero. apply H. rewrite fexp_spec. lia.
Qed.

(** *** Canonical representations *)

Lemma iter_xO_value (d m : positive) :
  Z.pos (Pos.iter xO m d) = (Z.pos m * 2 ^ Z.pos d)%Z.
Proof.
  induction d as [|d IH] using Pos.peano_ind.
  - cbn. lia.
  - rewrite Pos.iter_succ, Pos2Z.inj_xO, IH, Pos2Z.inj_succ, Z.pow_succ_r by lia. ring.
Qed.

Lemma shl_align_value (m : positive) (e e' : Z) :
  (e' <= e)%Z -> Z.pos (fst (shl_align m e e')) = (Z.pos m * 2 ^ (e - e'))%Z.
Proof.
  intros H. unfold shl_align. destruct (e' - e)%Z as [|p|p] eqn:E; cbn [fst]; try lia.
  - replace (e - e')%Z with 0%Z by lia. cbn. lia.
  - rewrite iter_xO_value. f_equal. f_equal. lia.
Qed.

(** The number of digits of a positive integer determines its binade. *)
Lemma digits2_pos_unique (m : positive) (d : Z) :
  (2 ^ (d - 1) <= Z.pos m < 2 ^ d)%Z -> d = Z.pos (digits2_pos m).
Proof.
  intros [Hlo Hhi]. pose proof (digits2_pos_bounds m) as [Hlo' Hhi'].
  assert (Hd : (0 < d)%Z).
  { destruct (Z_lt_le_dec 0 d) as [|Hle]; [assumption|].
    destruct (Z.eq_dec d 0) as [->|]; [cbn in Hhi; lia|].
    rewrite Z.pow_neg_r in Hhi by lia. lia. }
  destruct (Z_lt_le_dec d (Z.pos (digits2_pos m))) as [Hlt|Hge].
  - assert (2 ^ d <= 2 ^ (Z.pos (digits2_pos m) - 1))%Z
      by (apply Z.pow_le_mono_r; lia).
    lia.
  - destruct (Z.eq_dec d (Z.pos (digits2_pos m))) as [|Hne]; [assumption|].
    assert (2 ^ Z.pos (digits2_pos m) <= 2 ^ (d - 1))%Z
      by (apply Z.pow_le_mono_r; lia).
    lia.
Qed.

Lemma digits2_pos_shift (m m' : positive) (k : Z) :
  (0 <= k)%Z -> Z.pos m' = (Z.pos m * 2 ^ k)%Z ->
  Z.pos (digits2_pos m') = (Z.pos (digits2_pos m) + k)%Z.
Proof.
  intros Hk Hm. symmetry. apply digits2_pos_unique. rewrite Hm.
  pose proof (digits2_pos_bounds m) as [Hlo Hhi].
  pose proof (pow2_pos k Hk) as Hp.
  replace (Z.pos (digits2_pos m) + k - 1)%Z with (Z.pos (digits2_pos m) - 1 + k)%Z by lia.
  rewrite !Z.pow_add_r by lia. split; nia.
Qed.

(** Two canonical representations of one magnitude are the same. *)
Lemma canonical_unique (mx my : positive) (ex ey : Z) :
  canonical_mantissa prec emax mx ex = true ->
  canonical_mantissa prec emax my ey = true ->
  fst (shl_align mx ex (Z.min ex ey)) = fst (shl_align my ey (Z.min ex ey)) ->
  ex = ey /\ mx = my.
Proof.
  unfold canonical_mantissa. rewrite !fexp_spec, !Z.eqb_eq. intros Hx Hy Heq.
  assert (Hv : (Z.pos mx * 2 ^ (ex - Z.min ex ey) = Z.pos my * 2 ^ (ey - Z.min ex ey))%Z).
  { rewrite <- !shl_align_value by lia. now rewrite Heq. }
  assert (He : ex = ey).
  { destruct (Z_le_gt_dec ex ey) as [Hle|Hgt].
    - rewrite Z.min_l in Hv by lia. rewrite Z.sub_diag in Hv. cbn [Z.pow] in Hv.
      rewrite Z.mul_1_r in Hv.
      pose proof (digits2_pos_shift my mx (ey - ex) ltac:(lia) Hv). lia.
    - rewrite Z.min_r in Hv by lia. rewrite Z.sub_diag in Hv. cbn [Z.pow] in Hv.
      rewrite Z.mul_1_r in Hv. symmetry in Hv.
      pose proof (digits2_pos_shift mx my (ex - ey) ltac:(lia) Hv). lia. }
  split; [exact He|]. subst ey. rewrite Z.min_id, Z.sub_diag in Hv. cbn in Hv. lia.
Qed.

Lemma valid_exponent (s : bool) (m : positive) (e : Z) :
  valid_binary (S754_finite s m e) = true ->
  canonical_mantissa prec emax m e = true /\ (-1074 <= e)%Z.
Proof.
  cbn [SpecFloat.valid_binary]. unfold bounded. rewrite andb_true_iff. intros [H _].
  split; [exact H|]. unfold canonical_mantissa in H. rewrite fexp_spec, Z.eqb_eq in H. lia.
Qed.

(** *** The order *)

Lemma SFcompare_key (X Y : spec_float) :
  SFnan X = false -> SFnan Y = false ->
  match SFcompare X Y with
  | Some Lt => keyLt (SFkey X) (SFkey Y)
  | Some Eq => keyEq (SFkey X) (SFkey Y)
  | Some Gt => keyLt (SFkey Y) (SFkey X)
  | None => False
  end.
Proof.
  destruct X as [sx|sx| |sx mx ex], Y as [sy|sy| |sy my ey]; cbn [SFnan];
    try discriminate; intros _ _;
    try destruct sx; try destruct sy; cbn; try lia.
  - destruct (Z.compare_spec ex ey) as [->|H|H]; cbn; try lia.
    change (Pos.compare_cont Eq mx my) with (Pos.compare mx my).
    destruct (Pos.compare_spec mx my) as [->|H|H]; cbn; lia.
  - destruct (Z.compare_spec ex ey) as [->|H|H]; cbn; try lia.
    change (Pos.compare_cont Eq mx my) with (Pos.compare mx my).
    destruct (Pos.compare_spec mx my) as [->|H|H]; cbn; lia.
Qed.

Lemma SFcompare_nan (X Y : spec_float) :
  SFnan X = true \/ SFnan Y = true -> SFcompare X Y = None.
Proof.
  destruct X as [sx|sx| |sx mx ex], Y as [sy|sy| |sy my ey]; cbn [SFnan];
    intros [H|H]; try discriminate; reflexivity.
Qed.

Lemma keyLt_irrefl k : ~ keyLt k k.
Proof. destruct k as [[g a] b]. cbn. lia. Qed.

Lemma keyLt_asym k k' : keyLt k k' -> ~ keyLt k' k.
Proof. destruct k as [[g a] b], k' as [[g' a'] b']. cbn. lia. Qed.

Lemma keyLt_not_eq k k' : keyLt k k' -> ~ keyEq k k'.
Proof. destruct k as [[g a] b], k' as [[g' a'] b']. cbn. lia. Qed.

Lemma keyLt_not_eq' k k' : keyLt k' k -> ~ keyEq k k'.
Proof. destruct k as [[g a] b], k' as [[g' a'] b']. cbn. lia. Qed.

Lemma is_nan_spec (a : float) : is_nan a = SFnan (Prim2SF a).
Proof.
  unfold is_nan. rewrite FloatAxioms.eqb_spec. unfold SFeqb.
  destruct (SFnan (Prim2SF a)) eqn:E.
  - now rewrite SFcompare_nan by (now left).
  - pose proof (SFcompare_key _ _ E E) as H.
    destruct (SFcompare (Prim2SF a) (Prim2SF a)) as [[| |]|]; try reflexivity;
      try (exfalso; now apply keyLt_irrefl in H); contradiction.
Qed.

Ltac compare_by_key a b :=
  rewrite !is_nan_spec; unfold fkey;
  destruct (SFnan (Prim2SF a)) eqn:Ea;
  [ rewrite SFcompare_nan by (now left); split; [discriminate|]; now intros [? _] |];
  destruct (SFnan (Prim2SF b)) eqn:Eb;
  [ rewrite SFcompare_nan by (now right); split; [discriminate|];
    now intros (_ & ? & _) |];
  let H := fresh "H" in
  pose proof (SFcompare_key _ _ Ea Eb) as H;
  destruct (SFcompare (Prim2SF a) (Prim2SF b)) as [[| |]|];
  [ | | | contradiction ].

Lemma ltb_true (a b : float) :
  (a <? b) = true <-> isNumber a /\ isNumber b /\ keyLt (fkey a) (fkey b).
Proof.
  unfold isNumber. rewrite ltb_spec. unfold SFltb. compare_by_key a b.
  - split; [discriminate|]. intros (_ & _ & Hlt). now apply keyLt_not_eq in Hlt.
  - tauto.
  - split; [discriminate|]. intros (_ & _ & Hlt). now apply keyLt_asym in Hlt.
Qed.

Lemma eqb_true (a b : float) :
  (a =? b) = true <-> isNumber a /\ isNumber b /\ keyEq (fkey a) (fkey b).
Proof.
  unfold isNumber. rewrite FloatAxioms.eqb_spec. unfold SFeqb. compare_by_key a b.
  - tauto.
  - split; [discriminate|]. intros (_ & _ & Heq). now apply keyLt_not_eq in H.
  - split; [discriminate|]. intros (_ & _ & Heq). now apply keyLt_not_eq' in H.
Qed.

Lemma leb_true (a b : float) :
  (a <=? b) = true <->
  isNumber a /\ isNumber b /\ (keyLt (fkey a) (fkey b) \/ keyEq (fkey a) (fkey b)).
Proof.
  unfold isNumber. rewrite leb_spec. unfold SFleb. compare_by_key a b.
  - tauto.
  - tauto.
  - split; [discriminate|]. intros (_ & _ & [Hlt|Heq]).
    + now apply keyLt_asym in Hlt.
    + now apply keyLt_not_eq' in H.
Qed.

Lemma ltb_false (a b : float) :
  (a <? b) = false <-> ~ (isNumber a /\ isNumber b /\ keyLt (fkey a) (fkey b)).
Proof.
  rewrite <- ltb_true. destruct (a <? b); split; congruence.
Qed.

Lemma eqb_false (a b : float) :
  (a =? b) = false <-> ~ (isNumber a /\ isNumber b /\ keyEq (fkey a) (fkey b)).
Proof.
  rewrite <- eqb_true. destruct (a =? b); split; congruence.
Qed.

Lemma leb_false (a b : float) :
  (a <=? b) = false <->
  ~ (isNumber a /\ isNumber b /\ (keyLt (fkey a) (fkey b) \/ keyEq (fkey a) (fkey b))).
Proof.
  rewrite <- leb_true. destruct (a <=? b); split; congruence.
Qed.

(** Decides a statement about comparisons of floats: every comparison is
    replaced by its meaning on the keys, the keys by three integers. *)
Ltac float_order :=
  unfold num_eq, num_lt, num_le, num_gt, num_ge in *;
  repeat match goal with
    | H : (_ <? _) = true |- _ => apply ltb_true in H
    | H : (_ <? _) = false |- _ => apply ltb_false in H
    | H : (_ <=? _) = true |- _ => apply leb_true in H
    | H : (_ <=? _) = false |- _ => apply leb_false in H
    | H : (_ =? _) = true |- _ => apply eqb_true in H
    | H : (_ =? _) = false |- _ => apply eqb_false in H
    | H : context [(?a <? ?b)] |- _ =>
        let E := fresh "E" in destruct (a <? b) eqn:E
    | H : context [(?a <=? ?b)] |- _ =>
        let E := fresh "E" in destruct (a <=? b) eqn:E
    | H : context [(?a =? ?b)] |- _ =>
        let E := fresh "E" in destruct (a =? b) eqn:E
    | |- context [(?a <? ?b)] =>
        let E := fresh "E" in destruct (a <? b) eqn:E
    | |- context [(?a <=? ?b)] =>
        let E := fresh "E" in destruct (a <=? b) eqn:E
    | |- context [(?a =? ?b)] =>
        let E := fresh "E" in destruct (a =? b) eqn:E
    end;
  unfold isNumber in *;
  repeat match goal with
    | H : context [fkey ?a] |- _ =>
        let k := fresh "k" in
        set (k := fkey a) in *; clearbody k; destruct k as [[? ?] ?]
    | |- context [fkey ?a] =>
        let k := fresh "k" in
        set (k := fkey a) in *; clearbody k; destruct k as [[? ?] ?]
    end;
  repeat match goal with
    | H : context [is_nan ?a] |- _ => destruct (is_nan a)
    | |- context [is_nan ?a] => destruct (is_nan a)
    end;
  cbn [keyLt keyEq negb andb orb xorb Bool.eqb] in *;
  try solve [ intuition (try discriminate; try congruence; try lia) ].

(** [===] is compatible with the comparisons. *)
Lemma ltb_compat_r (a b c : float) : (a =? b) = true -> (c <? a) = (c <? b).
Proof. intros H. float_order. Qed.

Lemma ltb_compat_l (a b c : float) : (a =? b) = true -> (a <? c) = (b <? c).
Proof. intros H. float_order. Qed.

Lemma ltb_trans (a b c : float) :
  (a <? b) = true -> (b <? c) = true -> (a <? c) = true.
Proof. intros H1 H2. float_order. Qed.

Lemma leb_trans (a b c : float) :
  (a <=? b) = true -> (b <=? c) = true -> (a <=? c) = true.
Proof. intros H1 H2. float_order. Qed.

Lemma ltb_leb_trans (a b c : float) :
  (a <? b) = true -> (b <=? c) = true -> (a <? c) = true.
Proof. intros H1 H2. float_order. Qed.

Lemma leb_ltb_trans (a b c : float) :
  (a <=? b) = true -> (b <? c) = true -> (a <? c) = true.
Proof. intros H1 H2. float_order. Qed.

(** On numbers, [a < b] fails exactly when [b <= a]. *)
Lemma ltb_leb (a b : float) :
  isNumber a -> isNumber b -> (a <? b) = negb (b <=? a).
Proof. intros H1 H2. float_order. Qed.

(** *** Zeros *)

Lemma zero_spec : Prim2SF 0 = S754_zero false.
Proof. reflexivity. Qed.

Lemma SFeqb_zero_r (X : spec_float) (s : bool) : SFeqb X (S754_zero s) = SFzero X.
Proof. destruct X as [sx|sx| |sx mx ex]; try destruct sx; reflexivity. Qed.

Lemma eqb_zero_spec (a : float) : (a =? 0) = SFzero (Prim2SF a).
Proof. rewrite FloatAxioms.eqb_spec, zero_spec. apply SFeqb_zero_r. Qed.

Lemma properSF_SFzero (X : spec_float) : properSF X -> SFzero X = false.
Proof. destruct X; cbn; tauto. Qed.

Lemma properSF_SFnan (X : spec_float) : properSF X -> SFnan X = false.
Proof. destruct X; cbn; tauto. Qed.

Lemma SFeqb_refl_finite (s : bool) (m : positive) (e : Z) :
  SFeqb (S754_finite s m e) (S754_finite s m e) = true.
Proof.
  unfold SFeqb. cbn. rewrite Z.compare_refl.
  change (Pos.compare_cont Eq m m) with (Pos.compare m m). rewrite Pos.compare_refl.
  now destruct s.
Qed.

Lemma cond_Zopp_inj (sx sy : bool) (mx my : positive) :
  (cond_Zopp sx (Z.pos mx) - cond_Zopp sy (Z.pos my) = 0)%Z -> sx = sy /\ mx = my.
Proof.
  destruct sx, sy; cbv [cond_Zopp]; intros H;
    (split; [reflexivity|lia]) || (exfalso; lia).
Qed.

(** A difference that is zero is a difference of equal numbers. *)
Lemma SFsub_zero (X Y : spec_float) :
  valid_binary X = true -> valid_binary Y = true ->
  SFzero (SF64sub X Y) = true -> SFeqb X Y = true.
Proof.
  destruct X as [sx|sx| |sx mx ex], Y as [sy|sy| |sy my ey]; intros HX HY;
    try (unfold SF64sub; cbn [SFsub SFzero]; try destruct sx; try destruct sy;
         cbn; intros; (reflexivity || discriminate)).
  apply valid_exponent in HX, HY. destruct HX as [HX HeX], HY as [HY HeY].
  unfold SF64sub, SFsub.
  destruct (cond_Zopp sx (Z.pos (fst (shl_align mx ex (Z.min ex ey))))
            - cond_Zopp sy (Z.pos (fst (shl_align my ey (Z.min ex ey)))))%Z
    as [|m|m] eqn:E; cbn [binary_normalize].
  - intros _. apply cond_Zopp_inj in E. destruct E as [-> E].
    destruct (canonical_unique mx my ex ey HX HY E) as [-> ->].
    apply SFeqb_refl_finite.
  - rewrite properSF_SFzero; [discriminate|]. apply binary_round_nonzero. lia.
  - rewrite properSF_SFzero; [discriminate|]. apply binary_round_nonzero. lia.
Qed.

(** IEEE 754 subtraction, with its gradual underflow: [a - b] is zero only
    if [a] and [b] are the same number. *)
Lemma sub_eqb_zero (a b : float) : (a - b =? 0) = true -> (a =? b) = true.
Proof.
  rewrite eqb_zero_spec, sub_spec, FloatAxioms.eqb_spec.
  apply SFsub_zero; apply Prim2SF_valid.
Qed.

(** *** Finite numbers and operations on zeros *)

Lemma infinity_spec : Prim2SF infinity = S754_infinity false.
Proof. reflexivity. Qed.

Lemma is_infinity_spec (a : float) :
  is_infinity a = match Prim2SF a with S754_infinity _ => true | _ => false end.
Proof.
  unfold is_infinity. rewrite FloatAxioms.eqb_spec, abs_spec, infinity_spec.
  destruct (Prim2SF a) as [s|s| |s m e]; try destruct s; reflexivity.
Qed.

Lemma is_finite_spec (a : float) : is_finite a = SFfinite (Prim2SF a).
Proof.
  unfold is_finite. rewrite is_nan_spec, is_infinity_spec.
  now destruct (Prim2SF a).
Qed.

Lemma is_finite_number (a : float) : is_finite a = true -> isNumber a.
Proof.
  unfold isNumber. rewrite is_finite_spec, is_nan_spec. now destruct (Prim2SF a).
Qed.

(** [a - a] is [+0] for a finite [a]. *)
Lemma sub_diag (a : float) : is_finite a = true -> a - a = 0.
Proof.
  rewrite is_finite_spec. intros H. apply Prim2SF_inj.
  rewrite sub_spec, zero_spec.
  destruct (Prim2SF a) as [s|s| |s m e]; try discriminate.
  - now destruct s.
  - unfold SF64sub, SFsub. now rewrite Z.sub_diag.
Qed.

(** A zero times a finite number is a zero. *)
Lemma mul_zero_l (z a : float) :
  (z =? 0) = true -> is_finite a = true -> (z * a =? 0) = true.
Proof.
  rewrite !eqb_zero_spec, is_finite_spec, mul_spec.
  destruct (Prim2SF z) as [sz|sz| |sz mz ez]; try discriminate.
  now destruct (Prim2SF a).
Qed.

(** A zero divided by a number that is not zero is a zero. *)
Lemma div_zero_l (z d : float) :
  (z =? 0) = true -> isNumber d -> (d =? 0) = false -> (z / d =? 0) = true.
Proof.
  unfold isNumber. rewrite !eqb_zero_spec, is_nan_spec, div_spec.
  destruct (Prim2SF z) as [sz|sz| |sz mz ez]; try discriminate.
  now destruct (Prim2SF d).
Qed.

(** A zero plus a number is that number. *)
Lemma add_zero_l (z a : float) :
  (z =? 0) = true -> isNumber a -> (z + a =? a) = true.
Proof.
  unfold isNumber. rewrite eqb_zero_spec, is_nan_spec, FloatAxioms.eqb_spec, add_spec.
  destruct (Prim2SF z) as [sz|sz| |sz mz ez]; try discriminate.
  destruct (Prim2SF a) as [s|s| |s m e]; try discriminate; intros _ _.
  - now destruct sz, s.
  - now destruct s.
  - apply SFeqb_refl_finite.
Qed.

(** The difference of two numbers is a number, unless they are the same
    infinity. *)
Lemma SFsub_number (X Y : spec_float) :
  valid_binary X = true -> valid_binary Y = true ->
  SFnan X = false -> SFnan Y = false -> SFeqb X Y = false ->
  SFnan (SF64sub X Y) = false.
Proof.
  destruct X as [sx|sx| |sx mx ex], Y as [sy|sy| |sy my ey]; intros HX HY;
    try (unfold SF64sub; cbn [SFsub SFnan]; try destruct sx; try destruct sy;
         cbn; intros; (reflexivity || discriminate)).
  apply valid_exponent in HX, HY. destruct HX as [HX HeX], HY as [HY HeY].
  intros _ _ _. unfold SF64sub, SFsub.
  destruct (cond_Zopp sx (Z.pos (fst (shl_align mx ex (Z.min ex ey))))
            - cond_Zopp sy (Z.pos (fst (shl_align my ey (Z.min ex ey)))))%Z
    as [|m|m]; cbn [binary_normalize]; [reflexivity| |];
    apply properSF_SFnan, binary_round_nonzero; lia.
Qed.

Lemma sub_number (a b : float) :
  isNumber a -> isNumber b -> (a =? b) = false -> isNumber (a - b).
Proof.
  unfold isNumber. rewrite !is_nan_spec, FloatAxioms.eqb_spec, sub_spec.
  apply SFsub_number; apply Prim2SF_valid.
Qed.

(** *** Equal numbers, the sign of a zero, absolute values *)

Lemma nan_spec : Prim2SF nan = S754_nan.
Proof. reflexivity. Qed.

(** There is one NaN. *)
Lemma nan_unique (a : float) : is_nan a = true -> a = nan.
Proof.
  rewrite is_nan_spec. intros H. apply Prim2SF_inj. rewrite nan_spec.
  now destruct (Prim2SF a).
Qed.

Lemma SFkey_inj (X Y : spec_float) :
  SFnan X = false -> SFnan Y = false -> keyEq (SFkey X) (SFkey Y) ->
  X = Y \/ (SFzero X = true /\ SFzero Y = true).
Proof.
  destruct X as [sx|sx| |sx mx ex], Y as [sy|sy| |sy my ey]; cbn [SFnan SFzero];
    try discriminate; intros _ _;
    try destruct sx; try destruct sy; cbn; intros H;
    try (exfalso; lia); try (left; reflexivity); try (right; now split).
  - left. assert (ex = ey) by lia. assert (mx = my) by lia. now subst.
  - left. assert (ex = ey) by lia. assert (mx = my) by lia. now subst.
Qed.

(** Two numbers that are [===] are one value, or two zeros. *)
Lemma eqb_true_inv (a b : float) :
  (a =? b) = true -> a = b \/ ((a =? 0) = true /\ (b =? 0) = true).
Proof.
  intros H. apply eqb_true in H as (Ha & Hb & Hk).
  unfold isNumber in *. rewrite is_nan_spec in Ha, Hb. rewrite !eqb_zero_spec.
  destruct (SFkey_inj _ _ Ha Hb Hk) as [Heq|Hz].
  - left. now apply Prim2SF_inj.
  - now right.
Qed.

Lemma one_spec : exists m e, Prim2SF 1 = S754_finite false m e.
Proof. now eexists _, _. Qed.

(** The sign of a zero. *)
Lemma get_sign_zero (a : float) (s : bool) :
  Prim2SF a = S754_zero s -> get_sign a = s.
Proof.
  intros H. unfold get_sign, is_zero. rewrite eqb_zero_spec, H. cbn [SFzero].
  rewrite ltb_spec, div_spec, H.
  destruct one_spec as (m & e & Hone).
  change one with 1. rewrite Hone. now destruct s.
Qed.

Lemma zero_by_sign (a b : float) :
  (a =? 0) = true -> (b =? 0) = true -> get_sign a = get_sign b -> a = b.
Proof.
  rewrite !eqb_zero_spec. intros Ha Hb Hs. apply Prim2SF_inj.
  destruct (Prim2SF a) as [sa| | |] eqn:Ea; try discriminate.
  destruct (Prim2SF b) as [sb| | |] eqn:Eb; try discriminate.
  rewrite (get_sign_zero a sa Ea), (get_sign_zero b sb Eb) in Hs. now subst.
Qed.

(** An absolute value is not negative. *)
Lemma abs_not_negative (a : float) : (abs a <? 0) = false.
Proof.
  rewrite ltb_spec, abs_spec, zero_spec.
  now destruct (Prim2SF a) as [s|s| |s m e].
Qed.

Lemma abs_number (a : float) : isNumber a -> (0 <=? abs a) = true.
Proof.
  unfold isNumber. rewrite is_nan_spec, leb_spec, abs_spec, zero_spec.
  now destruct (Prim2SF a) as [s|s| |s m e].
Qed.

Lemma SFabs_binary_round_aux (s s' : bool) (m e : Z) (l : location) :
  SFabs (binary_round_aux prec emax s m e l)
  = SFabs (binary_round_aux prec emax s' m e l).
Proof.
  unfold binary_round_aux.
  destruct (shr_fexp prec emax m e l) as [mrs' e'].
  destruct (shr_fexp prec emax _ e' loc_Exact) as [mrs'' e''].
  destruct (shr_m mrs''); try reflexivity.
  now destruct (e'' <=? emax - prec)%Z.
Qed.

Lemma SFabs_binary_normalize (m e : Z) :
  SFabs (binary_normalize prec emax m e false)
  = SFabs (binary_normalize prec emax (- m) e false).
Proof.
  destruct m as [|m|m]; cbn [binary_normalize Z.opp]; [reflexivity| |];
    unfold binary_round; destruct (shl_align m e _) as [mz ez];
    apply SFabs_binary_round_aux.
Qed.

Lemma SFabs_sub_sym (X Y : spec_float) :
  SFabs (SF64sub X Y) = SFabs (SF64sub Y X).
Proof.
  destruct X as [sx|sx| |sx mx ex], Y as [sy|sy| |sy my ey];
    try (unfold SF64sub; cbn [SFsub]; try destruct sx; try destruct sy; reflexivity).
  unfold SF64sub, SFsub. rewrite (Z.min_comm ey ex).
  rewrite SFabs_binary_normalize. f_equal. f_equal. lia.
Qed.

(** [|a - b|] is [|b - a|]. *)
Lemma abs_sub_sym (a b : float) : abs (a - b) = abs (b - a).
Proof.
  apply Prim2SF_inj. rewrite !abs_spec, !sub_spec. apply SFabs_sub_sym.
Qed.

(** *** [Math.min] and [Math.max] *)

Lemma Math_min_comm (a b : float) : Math_min a b = Math_min b a.
Proof.
  unfold Math_min.
  destruct (is_nan a) eqn:Ha, (is_nan b) eqn:Hb; try reflexivity.
  { now rewrite (nan_unique a Ha), (nan_unique b Hb). }
  destruct (a <? b) eqn:E1, (b <? a) eqn:E2; try reflexivity.
  { exfalso. float_order. }
  assert (Heq : (a =? b) = true).
  { destruct (a =? b) eqn:E3; [reflexivity|]. exfalso. float_order. }
  destruct (eqb_true_inv a b Heq) as [->|[Hza Hzb]]; [now destruct (get_sign b)|].
  destruct (get_sign a) eqn:Sa, (get_sign b) eqn:Sb; try reflexivity;
    apply zero_by_sign; congruence.
Qed.

(** On numbers [Math.min] is one of its arguments and a lower bound of
    both. *)
Lemma Math_min_spec (a b : float) :
  isNumber a -> isNumber b ->
  (Math_min a b = a \/ Math_min a b = b) /\
  (Math_min a b <=? a) = true /\ (Math_min a b <=? b) = true.
Proof.
  unfold isNumber, Math_min. intros Ha Hb. rewrite Ha, Hb.
  destruct (a <? b) eqn:E1; [|destruct (b <? a) eqn:E2; [|destruct (get_sign a)]];
    (split; [tauto|]); split;
    match goal with
    | |- (?u <=? ?v) = true =>
        destruct (u <=? v) eqn:E3; [reflexivity|exfalso; float_order]
    end.
Qed.

(** ** Snapshots *)

Lemma clonePoint_id p : clonePoint p = p.
Proof. now destruct p. Qed.

Lemma cloneRect_id r : cloneRect r = r.
Proof. now destruct r. Qed.

Lemma cloneShape_id shape : cloneShape shape = shape.
Proof.
  destruct shape as [i t c l [pts|] [b|]]; unfold cloneShape; simpl;
    rewrite ?cloneRect_id; f_equal; f_equal;
    (rewrite <- (map_id pts) at 2; apply map_ext; intros; apply clonePoint_id).
Qed.

(** A snapshot has the value of the collection it was taken from. *)
Lemma cloneAnnotations_id shapes : cloneAnnotations shapes = shapes.
Proof.
  unfold cloneAnnotations. rewrite <- (map_id shapes) at 2.
  apply map_ext. intros. apply cloneShape_id.
Qed.

(** ** Lists *)

Lemma lastElement_app {A} (l : list A) (a : A) : lastElement (l ++ [a]) = Some a.
Proof.
  unfold lastElement. destruct (l ++ [a]) eqn:E.
  - now destruct l.
  - rewrite <- E. now rewrite last_last.
Qed.

Lemma length_removelast {A} (l : list A) :
  length (removelast l) = (length l - 1)%nat.
Proof.
  destruct l as [|a l] using rev_ind; [reflexivity|].
  rewrite removelast_last, length_app. simpl. lia.
Qed.

Lemma removelast_cons_hd {A} (a b : A) (l : list A) :
  removelast (a :: b :: l) = a :: removelast (b :: l).
Proof. reflexivity. Qed.

(** ** Path closing *)

Section PathClosing.
Context {engine : Engine}.

Lemma ensureClosed_short pts thr :
  (length pts < 2)%nat -> ensureClosed pts thr = pts.
Proof.
  intros H. unfold ensureClosed.
  apply Nat.ltb_lt in H. now rewrite H.
Qed.

Lemma ensureClosed_unfold first rest thr :
  (1 <= length rest)%nat ->
  ensureClosed (first :: rest) thr =
    let pts := first :: rest in
    let lastp := last pts first in
    let distance := distanceBetween lastp first in
    if num_eq distance 0 then pts
    else if num_le distance thr then removelast pts ++ [first]
    else pts ++ [first].
Proof.
  intros H. unfold ensureClosed.
  replace (length (first :: rest) <? 2)%nat with false; [reflexivity|].
  symmetry. apply Nat.ltb_ge. simpl. lia.
Qed.

Lemma ensureClosed_length pts thr :
  (length pts <= length (ensureClosed pts thr) <= length pts + 1)%nat.
Proof.
  destruct pts as [|first rest]; [simpl; lia|].
  destruct rest as [|p rest]; [simpl; lia|].
  rewrite ensureClosed_unfold by (simpl; lia). cbv zeta.
  destruct (num_eq _ _); [lia|].
  destruct (num_le _ _).
  - rewrite length_app, length_removelast. simpl. lia.
  - rewrite length_app. simpl. lia.
Qed.

(** With a [Math.hypot] that vanishes only at zero, two points at
    distance zero have the same coordinates: a difference of doubles is
    zero only if they are equal. *)
Lemma distance_zero_samePoint (p q : AnnotationPoint) :
  hypotVanishesOnlyAtZero (x p - x q) (y p - y q) ->
  num_eq (distanceBetween p q) 0 = true -> samePoint p q.
Proof.
  intros Hh Hd. destruct (Hh Hd) as [Hx Hy].
  split; apply sub_eqb_zero; assumption.
Qed.

(** The result of [ensureClosed] on a path of two or more points, by the
    three cases of the source. *)
Lemma ensureClosed_cases first p rest thr :
  let pts := first :: p :: rest in
  let distance := distanceBetween (last pts first) first in
  (num_eq distance 0 = true -> ensureClosed pts thr = pts) /\
  (num_eq distance 0 = false -> num_le distance thr = true ->
   ensureClosed pts thr = removelast pts ++ [first]) /\
  (num_eq distance 0 = false -> num_le distance thr = false ->
   ensureClosed pts thr = pts ++ [first]).
Proof.
  intros pts distance. unfold pts.
  rewrite ensureClosed_unfold by (simpl; lia). cbv zeta.
  fold pts. fold distance.
  destruct (num_eq distance 0); [|destruct (num_le distance thr)];
    repeat split; intros; try reflexivity; discriminate.
Qed.

(** The ends of a closed path. *)
Lemma ensureClosed_ends pts thr :
  (2 <= length pts)%nat ->
  exists first lastp,
    hd_error pts = Some first /\
    hd_error (ensureClosed pts thr) = Some first /\
    lastElement (ensureClosed pts thr) = Some lastp /\
    coincide lastp first /\
    (hypotVanishesOnlyAtZero (x lastp - x first) (y lastp - y first) ->
     lastp = first \/ samePoint lastp first).
Proof.
  intros Hlen.
  destruct pts as [|first [|p rest]]; simpl in Hlen; try lia.
  rewrite ensureClosed_unfold by (simpl; lia). cbv zeta.
  destruct (num_eq _ _) eqn:Ez; [|destruct (num_le _ _)].
  - exists first, (last (first :: p :: rest) first).
    repeat split; try reflexivity.
    + right. exact Ez.
    + intros Hh. right. now apply distance_zero_samePoint.
  - exists first, first. rewrite removelast_cons_hd, lastElement_app.
    repeat split; try reflexivity; now left.
  - exists first, first. rewrite lastElement_app.
    repeat split; try reflexivity; now left.
Qed.

(** C3. [closePath] ([ensureClosed]): a sequence of fewer than two points
    is returned unchanged.  For a sequence of two or more points and any
    threshold the result starts with the first point of the input and its
    first and last point coincide: they are one and the same point, or
    the distance that the code measures between them is 0; in the second
    case their coordinates are equal as soon as [Math.hypot] vanishes only
    at zero for them.  The three cases, on the distance between start and
    end as the code computes it: distance 0, the input unchanged;
    distance within the threshold, the last point dropped and the first
    appended; otherwise the first point appended. *)
Theorem ensureClosed_closes_path :
  forall (pts : list AnnotationPoint) (thr : float),
    ((length pts < 2)%nat -> ensureClosed pts thr = pts) /\
    ((2 <= length pts)%nat ->
     exists first lastp,
       hd_error pts = Some first /\
       hd_error (ensureClosed pts thr) = Some first /\
       lastElement (ensureClosed pts thr) = Some lastp /\
       coincide lastp first /\
       (hypotVanishesOnlyAtZero (x lastp - x first) (y lastp - y first) ->
        lastp = first \/ samePoint lastp first)) /\
    (forall first lastp,
        (2 <= length pts)%nat ->
        hd_error pts = Some first -> lastElement pts = Some lastp ->
        let distance := distanceBetween lastp first in
        (num_eq distance 0 = true -> ensureClosed pts thr = pts) /\
        (num_eq distance 0 = false -> num_le distance thr = true ->
         ensureClosed pts thr = removelast pts ++ [first]) /\
        (num_eq distance 0 = false -> num_le distance thr = false ->
         ensureClosed pts thr = pts ++ [first])).
Proof.
  intros pts thr. split; [apply ensureClosed_short|]. split.
  - apply ensureClosed_ends.
  - intros first lastp Hlen Hhd Hlast.
    destruct pts as [|f [|p rest]]; simpl in Hlen; try lia.
    simpl in Hhd. injection Hhd as ->.
    unfold lastElement in Hlast. injection Hlast as <-.
    apply ensureClosed_cases.
Qed.

End PathClosing.

#[local] Existing Instance reference_engine.

Lemma ensureClosed_closes_path_witness :
  ensureClosed [mkPoint 1 1] 14 = [mkPoint 1 1] /\
  (exists first lastp,
      hd_error triangle_path = Some first /\
      hd_error (ensureClosed triangle_path 14) = Some first /\
      lastElement (ensureClosed triangle_path 14) = Some lastp /\
      coincide lastp first /\
      (hypotVanishesOnlyAtZero (x lastp - x first) (y lastp - y first) ->
       lastp = first \/ samePoint lastp first)) /\
  ensureClosed returning_path 14 = returning_path /\
  ensureClosed nearly_closed_path 14 = removelast nearly_closed_path ++ [mkPoint 0 0] /\
  ensureClosed boundary_path 14 = [mkPoint 0 0; mkPoint 5 5; mkPoint 0 0] /\
  ensureClosed triangle_path 14 = triangle_path ++ [mkPoint 0 0].
Proof.
  split; [|split; [|split; [|split; [|split]]]].
  - apply (proj1 (ensureClosed_closes_path [mkPoint 1 1] 14)). simpl. lia.
  - apply (proj1 (proj2 (ensureClosed_closes_path triangle_path 14))).
    simpl. lia.
  - destruct (proj2 (proj2 (ensureClosed_closes_path returning_path 14))
                (mkPoint 0 0) (mkPoint 0 0)) as (H & _ & _);
      [simpl; lia|reflexivity|reflexivity|].
    apply H. reflexivity.
  - destruct (proj2 (proj2 (ensureClosed_closes_path nearly_closed_path 14))
                (mkPoint 0 0) (mkPoint 5 5)) as (_ & H & _);
      [simpl; lia|reflexivity|reflexivity|].
    apply H; reflexivity.
  - destruct (proj2 (proj2 (ensureClosed_closes_path boundary_path 14))
                (mkPoint 0 0) (mkPoint 14 0x1p-30)) as (_ & H & _);
      [simpl; lia|reflexivity|reflexivity|].
    apply H; reflexivity.
  - destruct (proj2 (proj2 (ensureClosed_closes_path triangle_path 14))
                (mkPoint 0 0) (mkPoint 10 10)) as (_ & _ & H);
      [simpl; lia|reflexivity|reflexivity|].
    apply H; reflexivity.
Defined.

(** ** Ray casting *)

(** Two ends of an edge that fall on different sides of the ray have
    different ordinates, so the denominator of the quotient is not zero. *)
Lemma straddle_denominator (py yi yj : float) :
  negb (Bool.eqb (num_gt yi py) (num_gt yj py)) = true ->
  num_eq (yj - yi) 0 = false.
Proof.
  intros H. destruct (num_eq (yj - yi) 0) eqn:Ez; [|reflexivity].
  apply sub_eqb_zero in Ez. unfold num_gt, num_lt in H.
  rewrite (ltb_compat_r yj yi py Ez), Bool.eqb_reflx in H. discriminate.
Qed.

Lemma edgeIntersect_checked_total point vi vj :
  edgeIntersect_checked point vi vj = Some (edgeIntersect point vi vj).
Proof.
  unfold edgeIntersect_checked, edgeIntersect. cbv zeta.
  destruct (negb (Bool.eqb _ _)) eqn:Es; [|reflexivity].
  unfold checked_div. now rewrite (straddle_denominator _ _ _ Es).
Qed.

Lemma pip_loop_checked_total point rest :
  forall vj inside,
    pip_loop_checked point rest vj inside = Some (pip_loop point rest vj inside).
Proof.
  induction rest as [|vi rest IH]; intros vj inside; simpl; [reflexivity|].
  rewrite edgeIntersect_checked_total. apply IH.
Qed.

(** C7. [pointInPolygon] never divides by zero: for every query point and
    every polygon, degenerate or not, the guarded evaluation of the
    ray-casting test returns the value of the test and never reaches the
    zero-denominator branch; the quotient by [yj - yi] is evaluated only
    when [yi] and [yj] lie on different sides of the query ordinate, and
    then the double [yj - yi] is not zero. *)
Theorem isPointInPolygon_division_safe :
  (forall (point : AnnotationPoint) (polygon : list AnnotationPoint),
      isPointInPolygon_checked point polygon
      = Some (isPointInPolygon point polygon)) /\
  (forall (point vi vj : AnnotationPoint) (numerator : float),
      negb (Bool.eqb (num_gt (y vi) (y point)) (num_gt (y vj) (y point))) = true ->
      num_eq (y vj - y vi) 0 = false /\
      checked_div numerator (y vj - y vi) = Some (numerator / (y vj - y vi))).
Proof.
  split.
  - intros point [|v0 polygon]; [reflexivity|].
    unfold isPointInPolygon_checked, isPointInPolygon.
    apply pip_loop_checked_total.
  - intros point vi vj numerator H.
    pose proof (straddle_denominator _ _ _ H) as Ez. split; [exact Ez|].
    unfold checked_div. now rewrite Ez.
Qed.

Lemma isPointInPolygon_division_safe_witness :
  num_eq (y (mkPoint 10 10) - y (mkPoint 0 0)) 0 = false /\
  checked_div 50 (y (mkPoint 10 10) - y (mkPoint 0 0))
  = Some (50 / (y (mkPoint 10 10) - y (mkPoint 0 0))).
Proof.
  apply (proj2 isPointInPolygon_division_safe (mkPoint 5 5) (mkPoint 0 0)
           (mkPoint 10 10) 50).
  reflexivity.
Defined.

(** The square of the specification: [(5,5)] is inside, [(15,5)] is
    outside, and the point [(10,5)] on the right edge counts as outside,
    while [(0,5)] on the left edge counts as inside. *)
Example isPointInPolygon_square :
  let square := [mkPoint 0 0; mkPoint 10 0; mkPoint 10 10; mkPoint 0 10] in
  isPointInPolygon (mkPoint 5 5) square = true /\
  isPointInPolygon (mkPoint 15 5) square = false /\
  isPointInPolygon (mkPoint 10 5) square = false /\
  isPointInPolygon (mkPoint 0 5) square = true.
Proof. vm_compute. repeat split. Qed.

(** The loop of [isPointInPolygon] toggles once per edge that the ray
    crosses. *)
Lemma edgeIntersect_crossesRay point vi vj :
  edgeIntersect point vi vj = crossesRay point (vi, vj).
Proof.
  unfold edgeIntersect, crossesRay. cbv zeta.
  now destruct (num_gt (y vi) (y point)), (num_gt (y vj) (y point)).
Qed.

Lemma pip_loop_parity point rest :
  forall vj inside,
    pip_loop point rest vj inside
    = xorb inside
        (Nat.odd (length (filter (crossesRay point) (combine rest (vj :: rest))))).
Proof.
  induction rest as [|vi rest IH]; intros vj inside.
  - simpl. now rewrite xorb_false_r.
  - cbn [pip_loop combine filter]. rewrite IH, edgeIntersect_crossesRay.
    destruct (crossesRay point (vi, vj)); [|reflexivity].
    cbn [length]. rewrite Nat.odd_succ, <- Nat.negb_odd.
    now destruct inside, (Nat.odd _).
Qed.

Lemma isPointInPolygon_rayCast point polygon :
  isPointInPolygon point polygon = rayCast point polygon.
Proof.
  unfold isPointInPolygon, rayCast, polygonEdges.
  destruct polygon as [|v0 polygon]; [reflexivity|].
  now rewrite pip_loop_parity.
Qed.

(** ** Hit testing *)

Section HitTesting.
Context {engine : Engine}.

(** The loop of [isPointNearPolyline] stops at the first segment within
    the tolerance. *)
Lemma isPointNearPolyline_nearPolyline point polyline tolerance :
  isPointNearPolyline point polyline tolerance = nearPolyline point polyline tolerance.
Proof.
  unfold nearPolyline, segments.
  induction polyline as [|start rest IH]; [reflexivity|].
  destruct rest as [|stop rest]; [reflexivity|].
  change (isPointNearPolyline point (start :: stop :: rest) tolerance)
    with (if num_le (distancePointToSegment point start stop) tolerance then true
          else isPointNearPolyline point (stop :: rest) tolerance).
  change (combine (start :: stop :: rest) (tl (start :: stop :: rest)))
    with ((start, stop) :: combine (stop :: rest) (tl (stop :: rest))).
  cbn [existsb fst snd]. rewrite IH.
  now destruct (num_le _ _).
Qed.

Lemma inBBox_pointInRect point r : inBBox point r = pointInRect point r.
Proof. reflexivity. Qed.

Lemma shapeHit_shapeMatches point shape :
  shapeHit point shape = shapeMatches point shape.
Proof.
  unfold shapeHit, shapeMatches, bboxRule, polygonRule, freehandRule.
  destruct shape as [i t c l [pts|] [b|]]; cbn [bbox points type];
    rewrite <- ?isPointInPolygon_rayCast;
    rewrite <- ?isPointNearPolyline_nearPolyline;
    rewrite ?inBBox_pointInRect;
    try destruct (pointInRect point b);
    try destruct (3 <=? length pts)%nat;
    try destruct (isPointInPolygon point pts);
    try destruct (2 <=? length pts)%nat;
    try destruct (isPointNearPolyline point pts 8);
    destruct t; reflexivity.
Qed.

(** The descending index loop over the first [length older] entries is the
    first match of the reversed prefix. *)
Lemma findAnnotationAt_loop_prefix point (older : list AnnotationShape) :
  forall newer,
    findAnnotationAt_loop (older ++ newer) point (length older)
    = topmostMatch older point.
Proof.
  induction older as [|shape older IH] using rev_ind; intros newer; [reflexivity|].
  rewrite length_app, Nat.add_comm. simpl.
  rewrite <- app_assoc.
  rewrite nth_error_app2 by lia. rewrite Nat.sub_diag. simpl.
  unfold topmostMatch. rewrite rev_app_distr. simpl.
  rewrite shapeHit_shapeMatches.
  destruct (shapeMatches point shape); [reflexivity|].
  apply IH.
Qed.

Lemma find_first_split {A} (f : A -> bool) (l : list A) :
  match find f l with
  | Some a => exists before after,
      l = before ++ a :: after /\ f a = true /\ Forall (fun b => f b = false) before
  | None => Forall (fun b => f b = false) l
  end.
Proof.
  induction l as [|a l IH]; simpl; [constructor|].
  destruct (f a) eqn:Ea.
  - exists [], l. repeat split; auto.
  - destruct (find f l) as [b|].
    + destruct IH as (before & after & -> & Hb & Hall).
      exists (a :: before), after. repeat split; auto.
    + constructor; auto.
Qed.

Lemma findAnnotationAt_is_topmostMatch s point :
  findAnnotationAt s point = topmostMatch (annotations s) point.
Proof.
  unfold findAnnotationAt.
  rewrite <- (app_nil_r (annotations s)) at 1.
  apply findAnnotationAt_loop_prefix.
Qed.

Lemma topmostMatch_split shapes point :
  match topmostMatch shapes point with
  | Some found =>
      exists older shape newer,
        shapes = older ++ shape :: newer /\
        id shape = found /\
        shapeMatches point shape = true /\
        Forall (fun later => shapeMatches point later = false) newer
  | None => Forall (fun shape => shapeMatches point shape = false) shapes
  end.
Proof.
  unfold topmostMatch.
  pose proof (find_first_split (shapeMatches point) (rev shapes)) as H.
  destruct (find _ _) as [shape|]; simpl.
  - destruct H as (before & after & Hrev & Hm & Hall).
    exists (rev after), shape, (rev before). repeat split; auto.
    + rewrite <- (rev_involutive shapes), Hrev.
      rewrite rev_app_distr. simpl. now rewrite <- app_assoc.
    + apply Forall_rev. exact Hall.
  - rewrite <- (rev_involutive shapes). apply Forall_rev. exact H.
Qed.

Lemma shapeMatches_by_type point shape :
  bboxOnlyOnBoxes shape ->
  shapeMatches point shape = shapeMatchesByType point shape.
Proof.
  unfold bboxOnlyOnBoxes, shapeMatches, shapeMatchesByType, bboxRule, bboxRuleByType.
  destruct (bbox shape); [intros ->; reflexivity|].
  now destruct (type shape).
Qed.

Lemma find_agree {A} (f g : A -> bool) (l : list A) :
  Forall (fun a => f a = g a) l -> find f l = find g l.
Proof.
  induction 1 as [|a l Ha _ IH]; simpl; [reflexivity|].
  rewrite Ha, IH. reflexivity.
Qed.

(** C6. Hit testing: for every collection and query point the hit test
    returns the id of the first matching shape in the order from the most
    recently added to the least recently added, and none when no shape
    matches.  A shape with a bbox matches by point-in-rectangle with the
    edges included, [x <= px <= x + width] and [y <= py <= y + height],
    the sums being the doubles [x + width] and [y + height]; a shape with
    three or more points matches when the ray from the point crosses an
    odd number of its edges; a freehand shape with two or more points
    matches when one of its segments is at a distance of at most 8 from
    the point, the distance being what [distancePointToSegment] returns.
    In a collection that keeps [bbox] to the shapes of type bbox, "a shape
    with a bbox" and "a shape of type bbox" give the same rule. *)
Theorem findAnnotationAt_topmost_match :
  forall (s : EditorState) (point : AnnotationPoint),
    findAnnotationAt s point = topmostMatch (annotations s) point /\
    match findAnnotationAt s point with
    | Some found =>
        exists older shape newer,
          annotations s = older ++ shape :: newer /\
          id shape = found /\
          shapeMatches point shape = true /\
          Forall (fun later => shapeMatches point later = false) newer
    | None =>
        Forall (fun shape => shapeMatches point shape = false) (annotations s)
    end /\
    (Forall bboxOnlyOnBoxes (annotations s) ->
     findAnnotationAt s point
     = option_map id (find (shapeMatchesByType point) (rev (annotations s)))).
Proof.
  intros s point. split; [apply findAnnotationAt_is_topmostMatch|]. split.
  - rewrite findAnnotationAt_is_topmostMatch. apply topmostMatch_split.
  - intros Hwf. rewrite findAnnotationAt_is_topmostMatch. unfold topmostMatch.
    f_equal. apply find_agree. apply Forall_rev.
    apply (Forall_impl _ (shapeMatches_by_type point) Hwf).
Qed.

End HitTesting.

(** On the reference engine: a point of the first box alone; a point of
    both boxes, which goes to the one added last; a point inside the
    triangle; a point 7 px above the first segment of the stroke and
    outside the triangle that its three points span; a point away from
    everything; and the point [(0.30000000000000004, 0.5)], which is on
    the right edge [0.1 + 0.2] of the thin box. *)
Lemma findAnnotationAt_topmost_match_witness :
  findAnnotationAt hit_state (mkPoint 5 5) = Some "box-1"%string /\
  findAnnotationAt hit_state (mkPoint 15 15) = Some "box-2"%string /\
  findAnnotationAt hit_state (mkPoint 38 3) = Some "poly-2"%string /\
  findAnnotationAt hit_state (mkPoint 55 57) = Some "stroke-1"%string /\
  findAnnotationAt hit_state (mkPoint 100 100) = None /\
  findAnnotationAt hit_state (mkPoint 0.30000000000000004 0.5) = Some "thin"%string /\
  findAnnotationAt hit_state (mkPoint 38 3)
  = option_map id
      (find (shapeMatchesByType (mkPoint 38 3)) (rev (annotations hit_state))).
Proof.
  pose proof (fun point => proj1 (findAnnotationAt_topmost_match hit_state point))
    as Hrule.
  split; [rewrite Hrule; vm_compute; reflexivity|].
  split; [rewrite Hrule; vm_compute; reflexivity|].
  split; [rewrite Hrule; vm_compute; reflexivity|].
  split; [rewrite Hrule; vm_compute; reflexivity|].
  split; [rewrite Hrule; vm_compute; reflexivity|].
  split; [rewrite Hrule; vm_compute; reflexivity|].
  apply (proj2 (proj2 (findAnnotationAt_topmost_match hit_state (mkPoint 38 3)))).
  repeat constructor.
Defined.

(** ** Shapes with neither a bbox nor points *)

Section Inert.
Context {engine : Engine}.

Lemma neither_no_match point shape :
  bbox shape = None -> points shape = None -> shapeMatches point shape = false.
Proof.
  intros Hb Hp. unfold shapeMatches, bboxRule, polygonRule, freehandRule.
  rewrite Hb, Hp. now destruct (type shape).
Qed.

Lemma find_skip {A} (f : A -> bool) (a : A) (before after : list A) :
  f a = false -> find f (before ++ a :: after) = find f (before ++ after).
Proof.
  intros Ha. induction before as [|b before IH]; simpl.
  - now rewrite Ha.
  - now rewrite IH.
Qed.

Lemma topmostMatch_skip point shape older newer :
  shapeMatches point shape = false ->
  topmostMatch (older ++ shape :: newer) point = topmostMatch (older ++ newer) point.
Proof.
  intros H. unfold topmostMatch.
  rewrite !rev_app_distr. simpl. rewrite <- app_assoc. simpl.
  now rewrite find_skip.
Qed.

Lemma rectMatches_app rect l1 l2 :
  rectMatches rect (l1 ++ l2) = rectMatches rect l1 ++ rectMatches rect l2.
Proof. unfold rectMatches. now rewrite filter_app, map_app. Qed.

Lemma rectMatches_In rect shapes i :
  In i (rectMatches rect shapes) ->
  exists shape bounds,
    In shape shapes /\ id shape = i /\ computeShapeBounds shape = Some bounds.
Proof.
  unfold rectMatches. rewrite in_map_iff.
  intros (shape & Hid & Hin). apply filter_In in Hin as [Hin Hb].
  destruct (computeShapeBounds shape) as [bounds|] eqn:E; [|discriminate].
  now exists shape, bounds.
Qed.

(** C9. A shape with neither [bbox] nor [points] is inert: its bounds are
    none; the hit test and the selection-rectangle matching give the same
    result with the shape in the collection as without it; and in a
    collection where no other shape carries its id, neither of them ever
    yields that id. *)
Theorem malformed_shape_inert :
  forall shape : AnnotationShape,
    bbox shape = None -> points shape = None ->
    computeShapeBounds shape = None /\
    (forall point, shapeHit point shape = false) /\
    (forall s older newer point rect,
        annotations s = older ++ shape :: newer ->
        findAnnotationAt s point
        = findAnnotationAt (set_annotations (older ++ newer) s) point /\
        rectMatches rect (annotations s) = rectMatches rect (older ++ newer)) /\
    (forall s point rect,
        (forall other, In other (annotations s) -> id other = id shape ->
                       other = shape) ->
        findAnnotationAt s point <> Some (id shape) /\
        ~ In (id shape) (rectMatches rect (annotations s))).
Proof.
  intros shape Hb Hp.
  assert (Hbounds : computeShapeBounds shape = None).
  { unfold computeShapeBounds. now rewrite Hb, Hp. }
  assert (Hmiss : forall point, shapeMatches point shape = false).
  { intros point. now apply neither_no_match. }
  split; [exact Hbounds|]. split.
  { intros point. rewrite shapeHit_shapeMatches. apply Hmiss. }
  split.
  - intros s older newer point rect Hs. split.
    + rewrite !findAnnotationAt_is_topmostMatch. simpl.
      rewrite Hs. now apply topmostMatch_skip.
    + rewrite Hs, !rectMatches_app.
      unfold rectMatches at 2. simpl. now rewrite Hbounds.
  - intros s point rect Huniq. split.
    + intros Hfound.
      pose proof (topmostMatch_split (annotations s) point) as H.
      rewrite <- findAnnotationAt_is_topmostMatch, Hfound in H.
      destruct H as (older & other & newer & Hs & Hid & Hm & _).
      assert (other = shape).
      { apply Huniq; [|exact Hid]. rewrite Hs. apply in_elt. }
      subst other. rewrite Hmiss in Hm. discriminate.
    + intros Hin. apply rectMatches_In in Hin as (other & bounds & Hin & Hid & Hbnd).
      assert (other = shape) by now apply Huniq.
      subst other. congruence.
Qed.

End Inert.

Lemma malformed_shape_inert_witness :
  computeShapeBounds hollow_shape = None /\
  findAnnotationAt hollow_state (mkPoint 5 5) <> Some (id hollow_shape) /\
  ~ In (id hollow_shape) (rectMatches (mkRect 0 0 40 40) (annotations hollow_state)).
Proof.
  pose proof (malformed_shape_inert hollow_shape eq_refl eq_refl)
    as (H1 & _ & _ & H4).
  split; [exact H1|].
  apply (H4 hollow_state (mkPoint 5 5) (mkRect 0 0 40 40)).
  intros other Hin Hid. simpl in Hin.
  destruct Hin as [<-|[<-|[]]]; [discriminate|reflexivity].
Defined.

(** ** Undo history *)

Section UndoHistory.
Context {engine : Engine}.

Lemma pushUndoSnapshot_stack snapshot s :
  undoStackRef (pushUndoSnapshot snapshot s)
  = evictOldest (undoStackRef s ++ [snapshot]).
Proof.
  unfold pushUndoSnapshot, evictOldest. rewrite cloneAnnotations_id.
  now destruct (_ <? _)%nat.
Qed.

Lemma pushUndoSnapshot_annotations snapshot s :
  annotations (pushUndoSnapshot snapshot s) = annotations s.
Proof. unfold pushUndoSnapshot. now destruct (_ <? _)%nat. Qed.

Lemma pushUndoSnapshot_polygonPoints snapshot s :
  polygonPoints (pushUndoSnapshot snapshot s) = polygonPoints s.
Proof. unfold pushUndoSnapshot. now destruct (_ <? _)%nat. Qed.

Lemma evictOldest_bound stack snapshot :
  (length stack <= MAX_UNDO_STACK)%nat ->
  (length (evictOldest (stack ++ [snapshot])) <= MAX_UNDO_STACK)%nat.
Proof.
  intros H. unfold evictOldest.
  destruct (_ <? _)%nat eqn:E.
  - destruct stack; simpl in *; rewrite ?length_app in *; simpl in *; lia.
  - apply Nat.ltb_ge in E. exact E.
Qed.

Lemma commitShape_annotations shape s :
  annotations (commitShape shape s) = annotations s ++ [shape].
Proof. reflexivity. Qed.

Lemma commitShape_stack shape s :
  undoStackRef (commitShape shape s)
  = evictOldest (undoStackRef s ++ [annotations s]).
Proof. unfold commitShape. simpl. apply pushUndoSnapshot_stack. Qed.

Lemma commitShape_polygonPoints shape s :
  polygonPoints (commitShape shape s) = polygonPoints s.
Proof. unfold commitShape. simpl. apply pushUndoSnapshot_polygonPoints. Qed.

Lemma undoLastAnnotationChange_pop s older previous :
  undoStackRef s = older ++ [previous] ->
  undoLastAnnotationChange s
  = (s |> set_undoStackRef older |> set_annotations previous |> set_selectedIds []).
Proof.
  intros H. unfold undoLastAnnotationChange.
  rewrite H, rev_app_distr, removelast_last. reflexivity.
Qed.

Lemma undoLastAnnotationChange_empty s :
  undoStackRef s = [] -> undoLastAnnotationChange s = s.
Proof. intros H. unfold undoLastAnnotationChange. now rewrite H. Qed.

Lemma handleUndoKey_global s :
  polygonPoints s = [] -> handleUndoKey s = undoLastAnnotationChange s.
Proof.
  intros H. unfold handleUndoKey. rewrite H. simpl.
  now rewrite andb_false_r.
Qed.

Lemma undoTimes_S n s : undoTimes (S n) s = handleUndoKey (undoTimes n s).
Proof. reflexivity. Qed.

Section Window.

(** The collections that [shapes] went through while it was built, one
    addition at a time. *)
Variable shapes : list AnnotationShape.

Let prefix (k : nat) : list AnnotationShape := firstn k shapes.

Lemma prefix_snoc_stable (extra : AnnotationShape) (a m : nat) :
  (a + m <= length shapes)%nat ->
  map (fun k => firstn k (shapes ++ [extra])) (seq a m) = map prefix (seq a m).
Proof.
  intros H. apply map_ext_in. intros k Hk. apply in_seq in Hk.
  unfold prefix. rewrite firstn_app.
  replace (k - length shapes)%nat with 0%nat by lia.
  simpl. apply app_nil_r.
Qed.

(** Undoing [k] times walks the window of snapshots backwards. *)
Lemma undoTimes_window (s : EditorState) (a m : nat) :
  polygonPoints s = [] ->
  undoStackRef s = map prefix (seq a m) ->
  forall k, (k <= m)%nat ->
    polygonPoints (undoTimes k s) = [] /\
    undoStackRef (undoTimes k s) = map prefix (seq a (m - k)) /\
    (0 < k -> annotations (undoTimes k s) = prefix (a + (m - k)))%nat.
Proof.
  intros Hpoly Hstack k. induction k as [|k IH]; intros Hk.
  - rewrite Nat.sub_0_r. repeat split; auto. lia.
  - destruct IH as (IHp & IHs & _); [lia|].
    rewrite undoTimes_S.
    rewrite handleUndoKey_global by exact IHp.
    replace (m - k)%nat with (S (m - S k)) in IHs by lia.
    rewrite seq_S, map_app in IHs. simpl in IHs.
    rewrite (undoLastAnnotationChange_pop _ _ _ IHs). simpl.
    repeat split; auto.
Qed.

End Window.

(** The state after [n] additions to an empty collection with an empty
    history: the collection holds the shapes, the stack the last
    [min n 50] of the collections it went through. *)
Lemma addShapes_window (s0 : EditorState) :
  annotations s0 = [] -> undoStackRef s0 = [] -> polygonPoints s0 = [] ->
  forall shapes,
    let n := length shapes in
    annotations (addShapes shapes s0) = shapes /\
    polygonPoints (addShapes shapes s0) = [] /\
    undoStackRef (addShapes shapes s0)
    = map (fun k => firstn k shapes) (seq (n - MAX_UNDO_STACK) (Nat.min n MAX_UNDO_STACK)).
Proof.
  intros Ha Hu Hp shapes.
  induction shapes as [|extra shapes IH] using rev_ind; [now simpl|].
  cbv zeta in *. destruct IH as (IHa & IHp & IHs).
  unfold addShapes in *. rewrite fold_left_app. cbn [fold_left].
  rewrite commitShape_annotations, commitShape_polygonPoints, commitShape_stack.
  rewrite IHa, IHs. repeat split; auto.
  rewrite length_app. simpl. set (n := length shapes).
  rewrite <- (prefix_snoc_stable shapes extra) by (unfold MAX_UNDO_STACK; lia).
  assert (Hlast : shapes = firstn n (shapes ++ [extra])).
  { unfold n. rewrite firstn_app, Nat.sub_diag, firstn_all. simpl.
    now rewrite app_nil_r. }
  replace [shapes]
    with (map (fun k => firstn k (shapes ++ [extra]))
            [((n - MAX_UNDO_STACK) + Nat.min n MAX_UNDO_STACK)%nat]).
  2:{ simpl. replace (n - MAX_UNDO_STACK + Nat.min n MAX_UNDO_STACK)%nat with n
        by (unfold MAX_UNDO_STACK; lia).
      now rewrite <- Hlast. }
  rewrite <- map_app, <- seq_S.
  unfold evictOldest. rewrite length_map, length_seq.
  destruct (_ <? _)%nat eqn:E.
  - apply Nat.ltb_lt in E. unfold MAX_UNDO_STACK in *.
    replace (Nat.min n 50) with 50%nat by lia.
    replace (Nat.min (n + 1) 50) with 50%nat by lia.
    replace (n + 1 - 50)%nat with (S (n - 50)) by lia.
    reflexivity.
  - apply Nat.ltb_ge in E. unfold MAX_UNDO_STACK in *.
    replace (n - 50)%nat with 0%nat by lia.
    replace (n + 1 - 50)%nat with 0%nat by lia.
    replace (Nat.min (n + 1) 50) with (S (Nat.min n 50)) by lia.
    reflexivity.
Qed.

(** C2. The undo stack is a sliding window of capacity 50:
    [pushUndoSnapshot] appends the snapshot and drops the oldest entry when
    the stack would hold more than 50; so from an empty collection and an
    empty history, 51 single-shape additions followed by 51 undo commands
    leave exactly one shape, the first one added; so do 51 bbox drags
    followed by 51 undo keystrokes. *)
Theorem undo_stack_sliding_window :
  (forall (snapshot : list AnnotationShape) (s : EditorState),
      let pushed := undoStackRef s ++ [snapshot] in
      undoStackRef (pushUndoSnapshot snapshot s)
      = if (50 <? length pushed)%nat then tl pushed else pushed) /\
  (forall (snapshot : list AnnotationShape) (s : EditorState),
      (length (undoStackRef s) <= 50)%nat ->
      (length (undoStackRef (pushUndoSnapshot snapshot s)) <= 50)%nat) /\
  (forall (s0 : EditorState) (shapes : list AnnotationShape),
      annotations s0 = [] -> undoStackRef s0 = [] -> polygonPoints s0 = [] ->
      length shapes = 51%nat ->
      exists only,
        hd_error shapes = Some only /\
        annotations (undoTimes 51 (addShapes shapes s0)) = [only] /\
        length (annotations (undoTimes 51 (addShapes shapes s0))) = 1%nat) /\
  (length (annotations (run fifty_one_drags (initialState []))) = 51%nat /\
   length (undoStackRef (run fifty_one_drags (initialState []))) = 50%nat /\
   length (annotations (run (fifty_one_drags ++ fifty_one_undos) (initialState [])))
   = 1%nat).
Proof.
  split; [|split; [|split]].
  4: now vm_compute.
  - intros snapshot s. apply pushUndoSnapshot_stack.
  - intros snapshot s H. rewrite pushUndoSnapshot_stack.
    now apply evictOldest_bound.
  - intros s0 shapes Ha Hu Hp Hlen.
    destruct (addShapes_window s0 Ha Hu Hp shapes) as (_ & Hpoly & Hstack).
    rewrite Hlen in Hstack. change (51 - MAX_UNDO_STACK)%nat with 1%nat in Hstack.
    change (Nat.min 51 MAX_UNDO_STACK) with 50%nat in Hstack.
    destruct (undoTimes_window shapes _ 1 50 Hpoly Hstack 50 (le_n _))
      as (Hp50 & Hs50 & Ha50).
    specialize (Ha50 ltac:(lia)). rewrite Nat.sub_diag in Hs50, Ha50.
    cbn [seq map Nat.add] in Hs50, Ha50.
    assert (E : undoTimes 51 (addShapes shapes s0)
                = undoTimes 50 (addShapes shapes s0)).
    { rewrite (undoTimes_S 50).
      rewrite handleUndoKey_global by exact Hp50.
      now apply undoLastAnnotationChange_empty. }
    rewrite E, Ha50.
    destruct shapes as [|only rest]; [discriminate|].
    exists only. repeat split.
Qed.

End UndoHistory.

Lemma undo_stack_sliding_window_witness :
  (length (undoStackRef (pushUndoSnapshot [] (initialState []))) <= 50)%nat /\
  exists only,
    hd_error fifty_one_boxes = Some only /\
    annotations (undoTimes 51 (addShapes fifty_one_boxes (initialState []))) = [only] /\
    length (annotations (undoTimes 51 (addShapes fifty_one_boxes (initialState []))))
    = 1%nat.
Proof.
  split.
  - apply (proj1 (proj2 undo_stack_sliding_window) [] (initialState [])).
    simpl. lia.
  - apply (proj1 (proj2 (proj2 undo_stack_sliding_window)) (initialState [])
             fifty_one_boxes); reflexivity.
Defined.

Section UndoSelection.
Context {engine : Engine}.

(** C10. Collection-level undo clears the selection: with a non-empty
    history the undo replaces the live collection with the popped snapshot
    and empties the selection set, whatever was selected; with an empty
    history the state, collection and selection included, is unchanged.
    The undo command reaches this operation whenever no polygon is in
    progress. *)
Theorem undo_clears_selection :
  forall s : EditorState,
    (undoStackRef s <> [] ->
     exists older previous,
       undoStackRef s = older ++ [previous] /\
       annotations (undoLastAnnotationChange s) = previous /\
       selectedIds (undoLastAnnotationChange s) = [] /\
       undoStackRef (undoLastAnnotationChange s) = older) /\
    (undoStackRef s = [] ->
     undoLastAnnotationChange s = s /\
     annotations (undoLastAnnotationChange s) = annotations s /\
     selectedIds (undoLastAnnotationChange s) = selectedIds s) /\
    (tool s <> Polygon \/ polygonPoints s = [] ->
     step s KeyUndo = undoLastAnnotationChange s).
Proof.
  intros s. split; [|split].
  - intros Hne.
    destruct (exists_last Hne) as (older & previous & Hs).
    exists older, previous.
    rewrite (undoLastAnnotationChange_pop _ _ _ Hs). now repeat split.
  - intros He. rewrite (undoLastAnnotationChange_empty _ He). now repeat split.
  - intros Hg. unfold step. simpl.
    assert (E : handleUndoKey s = undoLastAnnotationChange s).
    { unfold handleUndoKey. destruct Hg as [Ht|Hp].
      - destruct (tool s); try reflexivity. now contradiction Ht.
      - rewrite Hp. simpl. now rewrite andb_false_r. }
    rewrite E. unfold runEffects, colorDepsChanged, undoLastAnnotationChange.
    destruct (rev (undoStackRef s)); simpl;
      rewrite String.eqb_refl, Bool.eqb_reflx, Nat.eqb_refl; simpl;
      now destruct (tool s).
Qed.

End UndoSelection.

Lemma undo_clears_selection_witness :
  (exists older previous,
      undoStackRef selected_state = older ++ [previous] /\
      annotations (undoLastAnnotationChange selected_state) = previous /\
      selectedIds (undoLastAnnotationChange selected_state) = [] /\
      undoStackRef (undoLastAnnotationChange selected_state) = older) /\
  undoLastAnnotationChange hollow_state = hollow_state /\
  step selected_state KeyUndo = undoLastAnnotationChange selected_state.
Proof.
  split; [|split].
  - apply (proj1 (undo_clears_selection selected_state)). discriminate.
  - apply (proj1 (proj2 (undo_clears_selection hollow_state))). reflexivity.
  - apply (proj2 (proj2 (undo_clears_selection selected_state))).
    left. discriminate.
Defined.

(** ** Effects leave the collection and the history alone *)

Section EffectsKeepHistory.
Context {engine : Engine}.

Lemma colorEffect_annotations s : annotations (colorEffect s) = annotations s.
Proof. unfold colorEffect. now destruct (_ && _). Qed.

Lemma colorEffect_undoStackRef s : undoStackRef (colorEffect s) = undoStackRef s.
Proof. unfold colorEffect. now destruct (_ && _). Qed.

Lemma runEffects_annotations prev s :
  annotations (runEffects prev s) = annotations s.
Proof.
  unfold runEffects.
  repeat match goal with
         | |- context [if ?c then _ else _] => destruct c
         end;
    rewrite ?colorEffect_annotations; simpl; rewrite ?colorEffect_annotations;
    reflexivity.
Qed.

Lemma runEffects_undoStackRef prev s :
  undoStackRef (runEffects prev s) = undoStackRef s.
Proof.
  unfold runEffects.
  repeat match goal with
         | |- context [if ?c then _ else _] => destruct c
         end;
    rewrite ?colorEffect_undoStackRef; simpl; rewrite ?colorEffect_undoStackRef;
    reflexivity.
Qed.

End EffectsKeepHistory.

(** ** Bounding boxes *)

(** On numbers, "neither side is below 8" is "both sides are at least 8". *)
Lemma min_box_size_gate (w h : float) :
  isNumber w -> isNumber h ->
  (num_lt w MIN_BOX_SIZE || num_lt h MIN_BOX_SIZE = false
   <-> num_ge w 8 = true /\ num_ge h 8 = true).
Proof.
  intros Hw Hh. unfold MIN_BOX_SIZE.
  assert (H8 : isNumber 8) by reflexivity.
  rewrite orb_false_iff. unfold num_lt, num_ge.
  rewrite (ltb_leb w 8 Hw H8), (ltb_leb h 8 Hh H8), !negb_false_iff.
  reflexivity.
Qed.

Lemma at_least_not_below (w : float) : num_ge w 8 = true -> num_lt w 8 = false.
Proof. intros H. float_order. Qed.

Section BoundingBoxes.
Context {engine : Engine}.

Lemma finalizeBoundingBox_commits start coords freshId s :
  startPos s = Some start ->
  num_lt (Math_abs (x coords - x start)) 8 = false ->
  num_lt (Math_abs (y coords - y start)) 8 = false ->
  finalizeBoundingBox coords freshId s
  = commitShape
      {| id := freshId; type := bbox_t; color := Some (currentColor s);
         label := None; points := None;
         bbox := Some {| rx := Math_min (x start) (x coords);
                         ry := Math_min (y start) (y coords);
                         width := Math_abs (x coords - x start);
                         height := Math_abs (y coords - y start) |} |} s.
Proof.
  intros Hs Hw Hh. unfold finalizeBoundingBox, MIN_BOX_SIZE. rewrite Hs.
  cbv zeta. now rewrite Hw, Hh.
Qed.

Lemma finalizeBoundingBox_discards start coords freshId s :
  startPos s = Some start ->
  num_lt (Math_abs (x coords - x start)) 8 = true \/
  num_lt (Math_abs (y coords - y start)) 8 = true ->
  finalizeBoundingBox coords freshId s = s.
Proof.
  intros Hs Hsize. unfold finalizeBoundingBox, MIN_BOX_SIZE. rewrite Hs.
  cbv zeta. destruct Hsize as [-> | ->]; [reflexivity|].
  now rewrite orb_true_r.
Qed.

(** C5. The minimum size of a bbox.  With [w] and [h] the doubles
    [|stop.x - start.x|] and [|stop.y - start.y|], a drag from [start] to
    [stop] commits a shape when both are at least 8 and leaves the
    collection and the history unchanged when one of them is below 8; for
    numbers (no NaN, which is neither at least 8 nor below 8, and passes
    the size test) the drag commits if and only if both are at least 8.  The
    committed bbox is normalized ([x], [y] the minima, [width], [height]
    the absolute differences), and leaving the canvas while drawing does
    what releasing the pointer does.  A drag from (10,10) to (30,25) gives
    x=10, y=10, width=20, height=15; a drag to (12,11) gives no shape; a
    drag from (0.1,0) to (8.1,10) commits a box of width 8, the double
    [8.1 - 0.1]. *)
Theorem bbox_minimum_size_gate :
  (forall (s : EditorState) (start stop : AnnotationPoint)
          (shiftKey : bool) (freshId : string),
      tool s = Bbox -> isDrawing s = true -> startPos s = Some start ->
      let w := Math_abs (x stop - x start) in
      let h := Math_abs (y stop - y start) in
      let s' := step s (MouseUp stop shiftKey freshId) in
      (num_ge w 8 = true /\ num_ge h 8 = true ->
       exists shape,
         annotations s' = annotations s ++ [shape] /\
         id shape = freshId /\ type shape = bbox_t /\ points shape = None /\
         bbox shape = Some {| rx := Math_min (x start) (x stop);
                              ry := Math_min (y start) (y stop);
                              width := w; height := h |} /\
         undoStackRef s' = evictOldest (undoStackRef s ++ [annotations s])) /\
      (num_lt w 8 = true \/ num_lt h 8 = true ->
       annotations s' = annotations s /\ undoStackRef s' = undoStackRef s) /\
      (length (annotations s') = S (length (annotations s))
       <-> num_lt w 8 = false /\ num_lt h 8 = false) /\
      (isNumber w -> isNumber h ->
       (length (annotations s') = S (length (annotations s))
        <-> num_ge w 8 = true /\ num_ge h 8 = true)) /\
      step s (MouseLeave stop shiftKey freshId) = s') /\
  (exists shape,
      annotations (run [MouseDown (mkPoint 10 10) false "a";
                        MouseUp (mkPoint 30 25) false "a"] (initialState []))
      = [shape] /\
      bbox shape = Some {| rx := 10; ry := 10; width := 20; height := 15 |}) /\
  (let s' := run [MouseDown (mkPoint 10 10) false "a";
                  MouseUp (mkPoint 12 11) false "a"] (initialState []) in
   annotations s' = [] /\ undoStackRef s' = []) /\
  (exists shape,
      annotations (run [MouseDown (mkPoint 0.1 0) false "a";
                        MouseUp (mkPoint 8.1 10) false "a"] (initialState []))
      = [shape] /\
      bbox shape = Some {| rx := 0.1; ry := 0; width := 8; height := 10 |}).
Proof.
  split; [|split; [|split]].
  - intros s start stop shiftKey freshId Ht Hd Hs w h s'.
    assert (Hup : handleMouseUp stop shiftKey freshId s
                  = (s |> finalizeBoundingBox stop freshId
                       |> set_isDrawing false |> set_startPos None
                       |> set_draftShape None)).
    { unfold handleMouseUp. now rewrite Ht, Hd. }
    assert (Hyes : num_lt w 8 = false /\ num_lt h 8 = false ->
                   exists shape,
                     annotations s' = annotations s ++ [shape] /\
                     id shape = freshId /\ type shape = bbox_t /\
                     points shape = None /\
                     bbox shape = Some {| rx := Math_min (x start) (x stop);
                                          ry := Math_min (y start) (y stop);
                                          width := w; height := h |} /\
                     undoStackRef s' = evictOldest (undoStackRef s ++ [annotations s])).
    { intros [Hw Hh]. eexists. unfold s', step.
      rewrite runEffects_annotations, runEffects_undoStackRef.
      cbn [handle]. rewrite Hup.
      rewrite (finalizeBoundingBox_commits start) by assumption.
      cbn [set_draftShape set_startPos set_isDrawing annotations undoStackRef].
      rewrite commitShape_annotations, commitShape_stack.
      repeat split. }
    assert (Hno : num_lt w 8 = true \/ num_lt h 8 = true ->
                  annotations s' = annotations s /\ undoStackRef s' = undoStackRef s).
    { intros Hsize. unfold s', step.
      rewrite runEffects_annotations, runEffects_undoStackRef.
      cbn [handle]. rewrite Hup.
      rewrite (finalizeBoundingBox_discards start) by assumption.
      now split. }
    assert (Hiff : length (annotations s') = S (length (annotations s))
                   <-> num_lt w 8 = false /\ num_lt h 8 = false).
    { split.
      - intros Hlen.
        destruct (num_lt w 8) eqn:Ew;
          [|destruct (num_lt h 8) eqn:Eh; [|now split]].
        + destruct Hno as [Hno _]; [now left|]. rewrite Hno in Hlen. lia.
        + destruct Hno as [Hno _]; [now right|]. rewrite Hno in Hlen. lia.
      - intros Hsize. destruct (Hyes Hsize) as (shape & Ha & _).
        rewrite Ha, length_app. simpl. lia. }
    split; [|split; [exact Hno|split; [exact Hiff|split]]].
    + intros [Hw Hh]. apply Hyes. split; now apply at_least_not_below.
    + intros Hw Hh. rewrite Hiff.
      rewrite <- (min_box_size_gate w h Hw Hh). unfold MIN_BOX_SIZE.
      now rewrite orb_false_iff.
    + unfold s', step. cbn [handle]. unfold handleMouseLeave.
      now rewrite Ht, Hd.
  - eexists. split; vm_compute; reflexivity.
  - vm_compute. split; reflexivity.
  - eexists. split; vm_compute; reflexivity.
Qed.

End BoundingBoxes.

Lemma bbox_minimum_size_gate_witness :
  (exists shape,
     annotations (step drag_started (MouseUp (mkPoint 30 25) false "n"))
     = annotations drag_started ++ [shape] /\
     id shape = "n"%string /\ type shape = bbox_t /\ points shape = None /\
     bbox shape = Some {| rx := Math_min 10 30; ry := Math_min 10 25;
                          width := Math_abs (30 - 10); height := Math_abs (25 - 10) |} /\
     undoStackRef (step drag_started (MouseUp (mkPoint 30 25) false "n"))
     = evictOldest (undoStackRef drag_started ++ [annotations drag_started])) /\
  (annotations (step drag_started (MouseUp (mkPoint 12 11) false "n"))
   = annotations drag_started /\
   undoStackRef (step drag_started (MouseUp (mkPoint 12 11) false "n"))
   = undoStackRef drag_started) /\
  (length (annotations (step drag_started (MouseUp (mkPoint 18.1 20) false "n")))
   = S (length (annotations drag_started))
   <-> num_ge (Math_abs (18.1 - 10)) 8 = true /\ num_ge (Math_abs (20 - 10)) 8 = true).
Proof.
  split; [|split].
  - apply (proj1 (proj1 bbox_minimum_size_gate drag_started (mkPoint 10 10)
                    (mkPoint 30 25) false "n"%string eq_refl eq_refl eq_refl)).
    split; reflexivity.
  - apply (proj1 (proj2 (proj1 bbox_minimum_size_gate drag_started (mkPoint 10 10)
                           (mkPoint 12 11) false "n"%string eq_refl eq_refl eq_refl))).
    left. reflexivity.
  - apply (proj1 (proj2 (proj2 (proj2 (proj1 bbox_minimum_size_gate drag_started
             (mkPoint 10 10) (mkPoint 18.1 20) false "n"%string
             eq_refl eq_refl eq_refl)))));
      reflexivity.
Defined.

(** ** Effects after a handler that keeps the tool *)

Section EffectsSameTool.
Context {engine : Engine}.

Lemma Tool_eqb_refl t : Tool_eqb t t = true.
Proof. now destruct t. Qed.

Lemma runEffects_same_tool prev s :
  tool s = tool prev ->
  runEffects prev s = s \/ runEffects prev s = set_drawingColorRef (currentColor s) s.
Proof.
  intros Ht. unfold runEffects. rewrite Ht, Tool_eqb_refl.
  unfold colorEffect.
  destruct (colorDepsChanged prev s); [|now left].
  destruct (_ && _); [now right|now left].
Qed.

Lemma runEffects_same_tool_fields prev s :
  tool s = tool prev ->
  polygonPoints (runEffects prev s) = polygonPoints s /\
  selectedIds (runEffects prev s) = selectedIds s /\
  isDrawing (runEffects prev s) = isDrawing s /\
  freehandPointsRef (runEffects prev s) = freehandPointsRef s /\
  currentColor (runEffects prev s) = currentColor s /\
  tool (runEffects prev s) = tool s /\
  startPos (runEffects prev s) = startPos s.
Proof.
  intros Ht. destruct (runEffects_same_tool prev s Ht) as [-> | ->];
    now repeat split.
Qed.

End EffectsSameTool.

(** ** The polygon tool *)

(** A distance above 14 is not zero. *)
Lemma above_threshold_not_zero (d : float) :
  num_le d 14 = false -> num_eq d 0 = false.
Proof.
  intros H. assert (H0 : (0 <? 14) = true) by reflexivity. float_order.
Qed.

Section PolygonTool.
Context {engine : Engine}.

Lemma closesPolygon_decides placed coords :
  ((3 <=? length placed)%nat
   && match placed with
      | first :: _ =>
          num_le (Math_hypot (x coords - x first) (y coords - y first))
            POLYGON_CLOSE_DISTANCE
      | [] => false
      end) = true
  <-> closesPolygon placed coords.
Proof.
  unfold closesPolygon, distanceBetween, POLYGON_CLOSE_DISTANCE.
  rewrite andb_true_iff, Nat.leb_le.
  destruct placed as [|first rest]; simpl.
  - split; [intros [_ H]; discriminate|intros [H _]; simpl in H; lia].
  - split.
    + intros (Hlen & Hd). split; [exact Hlen|]. now exists first.
    + intros (Hlen & f & Hf & Hd). injection Hf as <-. now split.
Qed.

Lemma finalizePolygon_short pts freshId s :
  (length pts < 3)%nat -> finalizePolygon pts freshId s = s.
Proof.
  intros H. unfold finalizePolygon. apply Nat.ltb_lt in H. now rewrite H.
Qed.

Lemma finalizePolygon_commits pts freshId s :
  (3 <= length pts)%nat ->
  finalizePolygon pts freshId s
  = (s |> commitShape {| id := freshId; type := polygon_t;
                         color := Some (drawingColorRef s); label := None;
                         points := Some (ensureClosed pts POLYGON_CLOSE_DISTANCE);
                         bbox := None |}
       |> set_polygonPoints []).
Proof.
  intros H. unfold finalizePolygon.
  replace (length pts <? 3)%nat with false; [reflexivity|].
  symmetry. apply Nat.ltb_ge. exact H.
Qed.

Lemma handleMouseDown_polygon_closes coords shiftKey freshId s :
  tool s = Polygon -> closesPolygon (polygonPoints s) coords ->
  handleMouseDown coords shiftKey freshId s
  = finalizePolygon (polygonPoints s) freshId s.
Proof.
  intros Ht Hc. unfold handleMouseDown. rewrite Ht.
  pose proof Hc as [Hlen _].
  apply closesPolygon_decides in Hc. rewrite Hc.
  replace (length (polygonPoints s) =? 0)%nat with false; [reflexivity|].
  symmetry. apply Nat.eqb_neq. lia.
Qed.

Lemma handleMouseDown_polygon_appends coords shiftKey freshId s :
  tool s = Polygon -> ~ closesPolygon (polygonPoints s) coords ->
  handleMouseDown coords shiftKey freshId s
  = set_polygonPoints (polygonPoints s ++ [coords])
      (if (length (polygonPoints s) =? 0)%nat
       then set_drawingColorRef (currentColor s) s else s).
Proof.
  intros Ht Hc. unfold handleMouseDown. rewrite Ht.
  destruct (_ && _) eqn:Ec; [|reflexivity].
  apply closesPolygon_decides in Ec. contradiction.
Qed.

Lemma handleMouseDown_polygon_tool coords shiftKey freshId s :
  tool s = Polygon -> tool (handleMouseDown coords shiftKey freshId s) = Polygon.
Proof.
  intros Ht. unfold handleMouseDown, finalizePolygon, commitShape, pushUndoSnapshot.
  rewrite Ht.
  repeat match goal with
         | |- context [if ?c then _ else _] => destruct c
         end; simpl; exact Ht.
Qed.

(** C4. The polygon close gesture: with the polygon tool, a pointer-down
    that lands within 14 px of the first of three or more placed vertices
    ([Math.hypot(coords.x - first.x, coords.y - first.y) <= 14] on the
    doubles the code computes) finalizes the polygon instead of appending
    a vertex: the shape is committed under the freshly generated id with
    the placed path closed back to its first vertex, and the in-progress
    list is cleared.  Any other pointer-down appends the vertex and
    commits nothing, and neither the gesture nor the finish command
    finalizes fewer than three vertices.  After (0,0), (10,0), (10,10), a
    click at (2,1) commits the three vertices followed by (0,0) again, on
    every engine whose [Math.hypot(2, 1)] is at most 14 and whose
    [Math.hypot(10, 10)] is not. *)
Theorem polygon_close_gesture :
  (forall (s : EditorState) (coords : AnnotationPoint) (shiftKey : bool)
          (freshId : string),
      tool s = Polygon ->
      let s' := step s (MouseDown coords shiftKey freshId) in
      (closesPolygon (polygonPoints s) coords ->
       exists shape closed first lastp,
         annotations s' = annotations s ++ [shape] /\
         id shape = freshId /\ type shape = polygon_t /\
         points shape = Some closed /\
         closed = ensureClosed (polygonPoints s) 14 /\
         hd_error (polygonPoints s) = Some first /\
         hd_error closed = Some first /\
         lastElement closed = Some lastp /\ coincide lastp first /\
         polygonPoints s' = [] /\ selectedIds s' = [freshId]) /\
      (~ closesPolygon (polygonPoints s) coords ->
       annotations s' = annotations s /\
       undoStackRef s' = undoStackRef s /\
       polygonPoints s' = polygonPoints s ++ [coords]) /\
      ((length (polygonPoints s) < 3)%nat ->
       ~ closesPolygon (polygonPoints s) coords /\
       annotations (step s (ClickFinishPolygon freshId)) = annotations s /\
       polygonPoints (step s (ClickFinishPolygon freshId)) = polygonPoints s)) /\
  (num_le (Math_hypot 2 1) 14 = true -> num_le (Math_hypot 10 10) 14 = false ->
   let s' := run polygon_clicks (initialState []) in
   exists shape,
     annotations s' = [shape] /\
     type shape = polygon_t /\
     points shape = Some [mkPoint 0 0; mkPoint 10 0; mkPoint 10 10; mkPoint 0 0] /\
     polygonPoints s' = []).
Proof.
  split.
  - intros s coords shiftKey freshId Ht s'.
    assert (Htool : tool (handle (MouseDown coords shiftKey freshId) s) = tool s).
    { cbn [handle]. rewrite Ht. now apply handleMouseDown_polygon_tool. }
    destruct (runEffects_same_tool_fields s _ Htool)
      as (Hpp & Hsel & _).
    split; [|split].
    + intros Hc. pose proof Hc as [Hlen _].
      destruct (ensureClosed_ends (polygonPoints s) POLYGON_CLOSE_DISTANCE)
        as (first & lastp & Hhd & Hhd' & Hlast & Hsame & _); [lia|].
      eexists. exists (ensureClosed (polygonPoints s) 14), first, lastp.
      unfold s', step. rewrite runEffects_annotations, Hpp, Hsel.
      cbn [handle].
      rewrite handleMouseDown_polygon_closes by assumption.
      rewrite finalizePolygon_commits by exact Hlen.
      cbn [set_polygonPoints annotations polygonPoints selectedIds].
      rewrite commitShape_annotations.
      repeat split; auto.
    + intros Hc. unfold s', step.
      rewrite runEffects_annotations, runEffects_undoStackRef, Hpp.
      cbn [handle].
      rewrite handleMouseDown_polygon_appends by assumption.
      destruct (_ =? _)%nat; now repeat split.
    + intros Hlen. split; [intros [H _]; lia|].
      unfold step. rewrite runEffects_annotations.
      assert (Hf : handle (ClickFinishPolygon freshId) s = s).
      { cbn [handle]. unfold handleFinishPolygon.
        now apply finalizePolygon_short. }
      rewrite Hf. split; [reflexivity|].
      now destruct (runEffects_same_tool_fields s s eq_refl) as (-> & _).
  - intros Hnear Hfar s'.
    pose proof (above_threshold_not_zero _ Hfar) as Hpos.
    unfold num_le, num_eq in Hnear, Hfar, Hpos.
    eexists. unfold s'. cbv -[Math_hypot].
    rewrite Hnear, Hpos, Hfar. cbv. repeat split.
Qed.

End PolygonTool.

(** On the reference engine: the click at (2,1) after the three vertices,
    a click at (40,40), and a click at [(14, 2^-30)] after the vertices
    (0,0), (50,0), (50,50), whose distance to the first vertex is 14 once
    rounded. *)
Lemma polygon_close_gesture_witness :
  (exists shape closed first lastp,
      annotations (step three_vertices (MouseDown (mkPoint 2 1) false "q"))
      = annotations three_vertices ++ [shape] /\
      id shape = "q"%string /\ type shape = polygon_t /\
      points shape = Some closed /\
      closed = ensureClosed (polygonPoints three_vertices) 14 /\
      hd_error (polygonPoints three_vertices) = Some first /\
      hd_error closed = Some first /\
      lastElement closed = Some lastp /\ coincide lastp first /\
      polygonPoints (step three_vertices (MouseDown (mkPoint 2 1) false "q")) = [] /\
      selectedIds (step three_vertices (MouseDown (mkPoint 2 1) false "q"))
      = ["q"%string]) /\
  (annotations (step three_vertices (MouseDown (mkPoint 40 40) false "q"))
   = annotations three_vertices /\
   undoStackRef (step three_vertices (MouseDown (mkPoint 40 40) false "q"))
   = undoStackRef three_vertices /\
   polygonPoints (step three_vertices (MouseDown (mkPoint 40 40) false "q"))
   = polygonPoints three_vertices ++ [mkPoint 40 40]) /\
  (exists shape,
      annotations (step wide_vertices (MouseDown (mkPoint 14 0x1p-30) false "q"))
      = annotations wide_vertices ++ [shape] /\
      polygonPoints (step wide_vertices (MouseDown (mkPoint 14 0x1p-30) false "q"))
      = []) /\
  (exists shape,
      annotations (run polygon_clicks (initialState [])) = [shape] /\
      type shape = polygon_t /\
      points shape = Some [mkPoint 0 0; mkPoint 10 0; mkPoint 10 10; mkPoint 0 0] /\
      polygonPoints (run polygon_clicks (initialState [])) = []).
Proof.
  split; [|split; [|split]].
  - apply (proj1 (proj1 polygon_close_gesture three_vertices (mkPoint 2 1) false
                    "q"%string eq_refl)).
    split; [vm_compute; lia|].
    exists (mkPoint 0 0). split; vm_compute; reflexivity.
  - apply (proj1 (proj2 (proj1 polygon_close_gesture three_vertices (mkPoint 40 40)
                           false "q"%string eq_refl))).
    intros (_ & first & Hf & Hd). vm_compute in Hf. injection Hf as <-.
    vm_compute in Hd. discriminate.
  - destruct (proj1 (proj1 polygon_close_gesture wide_vertices (mkPoint 14 0x1p-30)
                       false "q"%string eq_refl))
      as (shape & closed & first & lastp & Ha & _ & _ & _ & _ & _ & _ & _ & _ & Hp & _).
    + split; [vm_compute; lia|].
      exists (mkPoint 0 0). split; vm_compute; reflexivity.
    + exists shape. now split.
  - apply (proj2 polygon_close_gesture); vm_compute; reflexivity.
Defined.

(** ** The committed point-shape invariant *)

Section PointShapes.
Context {engine : Engine}.

Lemma editorOk_same s s' :
  annotations s' = annotations s -> undoStackRef s' = undoStackRef s ->
  editorOk s -> editorOk s'.
Proof. unfold editorOk. now intros -> ->. Qed.

Lemma Forall_tl {A} (P : A -> Prop) (l : list A) : Forall P l -> Forall P (tl l).
Proof. intros H. destruct H; [constructor|assumption]. Qed.

Lemma Forall_removelast {A} (P : A -> Prop) (l : list A) :
  Forall P l -> Forall P (removelast l).
Proof.
  intros H. destruct l as [|a l] using rev_ind; [constructor|].
  rewrite removelast_last. apply Forall_app in H. tauto.
Qed.

Lemma Forall_keep {A} (P : A -> Prop) (f : A -> bool) (l : list A) :
  Forall P l -> Forall P (filter f l).
Proof.
  intros H. apply (incl_Forall (incl_filter f l) H).
Qed.

Lemma editorOk_push snapshot s :
  collectionOk snapshot -> editorOk s -> editorOk (pushUndoSnapshot snapshot s).
Proof.
  intros Hsnap [Ha Hu]. split.
  - now rewrite pushUndoSnapshot_annotations.
  - rewrite pushUndoSnapshot_stack. unfold evictOldest.
    assert (Forall collectionOk (undoStackRef s ++ [snapshot])).
    { apply Forall_app. split; [assumption|now constructor]. }
    destruct (_ <? _)%nat; [now apply Forall_tl|assumption].
Qed.

Lemma editorOk_commit shape s :
  committedPointShape shape -> editorOk s -> editorOk (commitShape shape s).
Proof.
  intros Hshape Hs. pose proof Hs as [Ha _].
  destruct (editorOk_push (annotations s) s Ha Hs) as [_ Hu].
  split.
  - rewrite commitShape_annotations. apply Forall_app.
    split; [assumption|now constructor].
  - exact Hu.
Qed.

Lemma editorOk_remove (keep : AnnotationShape -> bool) s :
  editorOk s ->
  editorOk (set_annotations (filter keep (annotations s))
              (pushUndoSnapshot (annotations s) s)).
Proof.
  intros Hs. pose proof Hs as [Ha _].
  destruct (editorOk_push (annotations s) s Ha Hs) as [_ Hu].
  split; [|exact Hu]. simpl. now apply Forall_keep.
Qed.

Lemma editorOk_undo s : editorOk s -> editorOk (undoLastAnnotationChange s).
Proof.
  intros [Ha Hu]. unfold undoLastAnnotationChange.
  destruct (rev (undoStackRef s)) as [|previous older] eqn:E; [now split|].
  split; simpl.
  - apply Forall_rev in Hu. rewrite E in Hu. now inversion Hu.
  - now apply Forall_removelast.
Qed.

(** What a finalizer appends. *)
Lemma finalizePolygon_appends pts freshId s :
  annotations (finalizePolygon pts freshId s) = annotations s \/
  exists shape closed,
    annotations (finalizePolygon pts freshId s) = annotations s ++ [shape] /\
    type shape = polygon_t /\ points shape = Some closed /\
    (3 <= length closed)%nat.
Proof.
  destruct (Nat.lt_ge_cases (length pts) 3) as [H|H].
  - left. now rewrite finalizePolygon_short.
  - right. rewrite finalizePolygon_commits by exact H.
    eexists. exists (ensureClosed pts POLYGON_CLOSE_DISTANCE).
    repeat split. pose proof (ensureClosed_length pts POLYGON_CLOSE_DISTANCE). lia.
Qed.

Lemma finalizeFreehand_appends freshId s :
  annotations (finalizeFreehand freshId s) = annotations s \/
  exists shape closed,
    annotations (finalizeFreehand freshId s) = annotations s ++ [shape] /\
    type shape = freehand_t /\ points shape = Some closed /\
    (2 <= length closed)%nat.
Proof.
  unfold finalizeFreehand.
  destruct (_ <? _)%nat eqn:E; [now left|]. right.
  apply Nat.ltb_ge in E.
  eexists. exists (ensureClosed (freehandPointsRef s) FREEHAND_CLOSE_DISTANCE).
  repeat split.
  pose proof (ensureClosed_length (freehandPointsRef s) FREEHAND_CLOSE_DISTANCE). lia.
Qed.

Lemma editorOk_finalizePolygon pts freshId s :
  editorOk s -> editorOk (finalizePolygon pts freshId s).
Proof.
  intros Hs. destruct (Nat.lt_ge_cases (length pts) 3) as [H|H].
  - now rewrite finalizePolygon_short.
  - rewrite finalizePolygon_commits by exact H.
    eapply (editorOk_same (commitShape _ s)); [reflexivity|reflexivity|].
    apply editorOk_commit; [|exact Hs].
    exists (ensureClosed pts POLYGON_CLOSE_DISTANCE). split; [reflexivity|].
    pose proof (ensureClosed_length pts POLYGON_CLOSE_DISTANCE). lia.
Qed.

Lemma editorOk_finalizeFreehand freshId s :
  editorOk s -> editorOk (finalizeFreehand freshId s).
Proof.
  intros Hs. unfold finalizeFreehand.
  destruct (_ <? _)%nat eqn:E; [exact Hs|].
  apply Nat.ltb_ge in E.
  eapply (editorOk_same (commitShape _ s)); [reflexivity|reflexivity|].
  apply editorOk_commit; [|exact Hs].
  exists (ensureClosed (freehandPointsRef s) FREEHAND_CLOSE_DISTANCE).
  split; [reflexivity|].
  pose proof (ensureClosed_length (freehandPointsRef s) FREEHAND_CLOSE_DISTANCE). lia.
Qed.

Lemma editorOk_finalizeBoundingBox coords freshId s :
  editorOk s -> editorOk (finalizeBoundingBox coords freshId s).
Proof.
  intros Hs. unfold finalizeBoundingBox.
  destruct (startPos s); [|exact Hs].
  destruct (_ || _); [exact Hs|].
  apply editorOk_commit; [exact I|exact Hs].
Qed.

Lemma editorOk_appendFreehandPoint point force s :
  editorOk s -> editorOk (appendFreehandPoint point force s).
Proof.
  intros Hs. unfold appendFreehandPoint.
  destruct (match lastElement _ with Some _ => _ | None => _ end); exact Hs.
Qed.

Lemma editorOk_handleMouseUp coords shiftKey freshId s :
  editorOk s -> editorOk (handleMouseUp coords shiftKey freshId s).
Proof.
  intros Hs. unfold handleMouseUp. destruct (tool s); try exact Hs.
  - destruct (negb _); [exact Hs|].
    apply (editorOk_same (finalizeBoundingBox coords freshId s));
      [reflexivity|reflexivity|now apply editorOk_finalizeBoundingBox].
  - destruct (negb _); [exact Hs|].
    now apply editorOk_finalizeFreehand, editorOk_appendFreehandPoint.
  - apply (editorOk_same s); [| |exact Hs]; unfold selectOnMouseUp;
      repeat match goal with
             | |- context [match ?c with _ => _ end] => destruct c
             end; reflexivity.
Qed.

Lemma editorOk_handle e s : editorOk s -> editorOk (handle e s).
Proof.
  intros Hs. destruct e; cbn [handle]; try exact Hs.
  - (* pointer down *)
    unfold handleMouseDown. destruct (tool s).
    + exact Hs.
    + destruct (_ && _).
      * apply editorOk_finalizePolygon. now destruct (_ =? _)%nat.
      * now destruct (_ =? _)%nat.
    + apply (editorOk_appendFreehandPoint coords true
               (s |> set_isDrawing true |> set_drawingColorRef (currentColor s)
                  |> set_freehandPointsRef [])).
      exact Hs.
    + now destruct (negb shiftKey).
    + destruct (findAnnotationAt s coords) as [found|]; [|exact Hs].
      destruct (truthy found); [|exact Hs].
      apply (editorOk_same _ _ eq_refl eq_refl (editorOk_remove _ s Hs)).
  - (* pointer move *)
    unfold handleMouseMove.
    destruct (tool s), (selectionStartRef s), (negb (isDrawing s)), (startPos s);
      try exact Hs; now apply editorOk_appendFreehandPoint.
  - now apply editorOk_handleMouseUp.
  - (* pointer leave *)
    unfold handleMouseLeave.
    destruct (tool s) eqn:Ht, (selectionStartRef s), (negb (isDrawing s));
      try exact Hs;
      try (now apply editorOk_handleMouseUp);
      now apply editorOk_finalizeFreehand.
  - now apply editorOk_finalizePolygon.
  - (* delete selected *)
    unfold handleDeleteSelected. destruct (_ =? _)%nat; [exact Hs|].
    apply (editorOk_same _ _ eq_refl eq_refl (editorOk_remove _ s Hs)).
  - (* undo *)
    unfold handleUndoKey. destruct (_ && _); [exact Hs|].
    now apply editorOk_undo.
Qed.

Lemma editorOk_step s e : editorOk s -> editorOk (step s e).
Proof.
  intros Hs. unfold step.
  apply (editorOk_same (handle e s));
    [apply runEffects_annotations|apply runEffects_undoStackRef|].
  now apply editorOk_handle.
Qed.

Lemma editorOk_run events : forall s, editorOk s -> editorOk (run events s).
Proof.
  induction events as [|e events IH]; intros s Hs; [exact Hs|].
  simpl. apply IH. now apply editorOk_step.
Qed.

(** C8. The committed point-shape invariant: [closePath] keeps the length
    of a path or grows it by one; what polygon finalize appends has three
    or more points and what freehand finalize appends has two or more; so
    in every state reached by the tools from a collection that satisfies
    it, and in particular from the empty collection, every polygon and
    freehand shape of the collection has at least two points. *)
Theorem committed_point_shapes_have_two_points :
  (forall (pts : list AnnotationPoint) (thr : float),
      (length pts <= length (ensureClosed pts thr) <= length pts + 1)%nat) /\
  (forall (s : EditorState) (pts : list AnnotationPoint) (freshId : string),
      annotations (finalizePolygon pts freshId s) = annotations s \/
      exists shape closed,
        annotations (finalizePolygon pts freshId s) = annotations s ++ [shape] /\
        type shape = polygon_t /\ points shape = Some closed /\
        (3 <= length closed)%nat) /\
  (forall (s : EditorState) (freshId : string),
      annotations (finalizeFreehand freshId s) = annotations s \/
      exists shape closed,
        annotations (finalizeFreehand freshId s) = annotations s ++ [shape] /\
        type shape = freehand_t /\ points shape = Some closed /\
        (2 <= length closed)%nat) /\
  (forall events : list Event,
      Forall committedPointShape (annotations (run events (initialState [])))) /\
  (forall (seed : list AnnotationShape) (events : list Event),
      Forall committedPointShape seed ->
      Forall committedPointShape (annotations (run events (initialState seed)))).
Proof.
  split; [apply ensureClosed_length|].
  split; [intros; apply finalizePolygon_appends|].
  split; [intros; apply finalizeFreehand_appends|].
  assert (H : forall seed events,
             Forall committedPointShape seed ->
             Forall committedPointShape (annotations (run events (initialState seed)))).
  { intros seed events Hseed.
    apply (editorOk_run events (initialState seed)).
    split; [exact Hseed|constructor]. }
  split; [|exact H].
  intros events. apply H. constructor.
Qed.

End PointShapes.

Lemma committed_point_shapes_have_two_points_witness :
  Forall committedPointShape
    (annotations (run freehand_stroke (initialState [sample_box; sample_polygon]))).
Proof.
  apply (proj2 (proj2 (proj2 (proj2 committed_point_shapes_have_two_points)))).
  repeat constructor.
  exists (triangle_path ++ [mkPoint 0 0]). split; [reflexivity|simpl; lia].
Defined.

(** ** The colour of a committed shape *)

Section Colour.
Context {engine : Engine}.

Lemma run_app events1 events2 s :
  run (events1 ++ events2) s = run events2 (run events1 s).
Proof. unfold run. apply fold_left_app. Qed.

Lemma run_cons e events s : run (e :: events) s = run events (step s e).
Proof. reflexivity. Qed.

(** While [isDrawing] holds the colour effect leaves the ref alone. *)
Lemma runEffects_drawing prev s :
  tool s = tool prev -> isDrawing s = true -> runEffects prev s = s.
Proof.
  intros Ht Hd. unfold runEffects, colorEffect.
  rewrite Ht, Tool_eqb_refl, Hd. simpl. now destruct (colorDepsChanged prev s).
Qed.

(** So it does while a polygon is in progress. *)
Lemma runEffects_polygon prev s :
  tool s = tool prev -> polygonPoints s <> [] -> runEffects prev s = s.
Proof.
  intros Ht Hp. unfold runEffects, colorEffect.
  rewrite Ht, Tool_eqb_refl.
  destruct (polygonPoints s) as [|p rest]; [contradiction|].
  simpl. rewrite andb_false_r. now destruct (colorDepsChanged prev _).
Qed.

Lemma appendFreehandPoint_fields point force s :
  let s' := appendFreehandPoint point force s in
  tool s' = tool s /\ isDrawing s' = isDrawing s /\
  drawingColorRef s' = drawingColorRef s /\ annotations s' = annotations s /\
  currentColor s' = currentColor s /\ undoStackRef s' = undoStackRef s /\
  (freehandPointsRef s' = freehandPointsRef s
   \/ freehandPointsRef s' = freehandPointsRef s ++ [point]).
Proof.
  unfold appendFreehandPoint.
  destruct (match lastElement _ with Some _ => _ | None => _ end); simpl;
    repeat split; auto.
Qed.

Lemma appendFreehandPoint_forced point s :
  freehandPointsRef (appendFreehandPoint point true s)
  = freehandPointsRef s ++ [point].
Proof.
  unfold appendFreehandPoint. now destruct (lastElement _).
Qed.

(** *** Freehand *)

Lemma freehand_start s coords shiftKey freshId :
  tool s = Freehand ->
  freehandInProgress (currentColor s) (annotations s)
    (step s (MouseDown coords shiftKey freshId)).
Proof.
  intros Ht. unfold step. cbn [handle]. unfold handleMouseDown. rewrite Ht.
  set (s1 := s |> set_isDrawing true |> set_drawingColorRef (currentColor s)
               |> set_freehandPointsRef []).
  destruct (appendFreehandPoint_fields coords true s1)
    as (Ht' & Hd' & Hc' & Ha' & _ & _ & _).
  rewrite runEffects_drawing by (rewrite ?Ht', ?Hd'; simpl; auto).
  unfold freehandInProgress. rewrite Ht', Hd', Hc', Ha'.
  rewrite appendFreehandPoint_forced. repeat split; auto.
  simpl. discriminate.
Qed.

Lemma freehand_during pinned shapes s e :
  duringDrag e -> freehandInProgress pinned shapes s ->
  freehandInProgress pinned shapes (step s e).
Proof.
  intros He (Ht & Hd & Hc & Ha & Hp). destruct e; try contradiction.
  - (* the pointer moves *)
    unfold step. cbn [handle].
    assert (Hm : handleMouseMove coords s = appendFreehandPoint coords false s).
    { unfold handleMouseMove. rewrite Ht, Hd. reflexivity. }
    rewrite Hm.
    destruct (appendFreehandPoint_fields coords false s)
      as (Ht' & Hd' & Hc' & Ha' & _ & _ & Hp').
    rewrite runEffects_drawing by congruence.
    unfold freehandInProgress. rewrite Ht', Hd', Hc', Ha'.
    repeat split; auto.
    destruct Hp' as [-> | ->]; [exact Hp|]. now destruct (freehandPointsRef s).
  - (* the palette changes *)
    unfold step. cbn [handle].
    rewrite runEffects_drawing by (simpl; auto).
    now repeat split.
Qed.

Lemma freehand_during_all pinned shapes events :
  Forall duringDrag events ->
  forall s, freehandInProgress pinned shapes s ->
            freehandInProgress pinned shapes (run events s).
Proof.
  induction 1 as [|e events He _ IH]; intros s Hs; [exact Hs|].
  rewrite run_cons. apply IH. now apply freehand_during.
Qed.

Lemma freehand_release pinned shapes s coords shiftKey freshId :
  freehandInProgress pinned shapes s ->
  exists closed,
    annotations (step s (MouseUp coords shiftKey freshId))
    = shapes ++ [{| id := freshId; type := freehand_t; color := Some pinned;
                    label := None; points := Some closed; bbox := None |}].
Proof.
  intros (Ht & Hd & Hc & Ha & Hp). unfold step.
  rewrite runEffects_annotations. cbn [handle].
  unfold handleMouseUp. rewrite Ht, Hd. cbn [negb].
  destruct (appendFreehandPoint_fields coords true s)
    as (_ & _ & Hc' & Ha' & _ & _ & _).
  pose proof (appendFreehandPoint_forced coords s) as Hpts.
  unfold finalizeFreehand.
  replace (length (freehandPointsRef (appendFreehandPoint coords true s)) <? 2)%nat
    with false.
  - eexists. cbn [set_startPos set_isDrawing set_draftShape set_freehandPointsRef
                    annotations].
    rewrite commitShape_annotations, Ha', Hc', Ha, Hc. reflexivity.
  - symmetry. apply Nat.ltb_ge. rewrite Hpts, length_app.
    destruct (freehandPointsRef s); [contradiction|]. simpl. lia.
Qed.

(** A freehand stroke commits the colour that was selected when the
    pointer went down, whatever the palette did in between. *)
Lemma freehand_color_pinned s start stop shift1 shift2 id1 id2 between :
  tool s = Freehand -> Forall duringDrag between ->
  exists closed,
    annotations (run (MouseDown start shift1 id1 :: between
                        ++ [MouseUp stop shift2 id2]) s)
    = annotations s
        ++ [{| id := id2; type := freehand_t; color := Some (currentColor s);
               label := None; points := Some closed; bbox := None |}].
Proof.
  intros Ht Hmid. rewrite run_cons, run_app. cbn [run fold_left].
  apply freehand_release.
  apply freehand_during_all; [exact Hmid|].
  now apply freehand_start.
Qed.

(** *** Bounding boxes *)

Lemma bbox_start s coords shiftKey freshId :
  tool s = Bbox ->
  bboxInProgress coords (annotations s) (step s (MouseDown coords shiftKey freshId))
  /\ currentColor (step s (MouseDown coords shiftKey freshId)) = currentColor s.
Proof.
  intros Ht. unfold step. cbn [handle]. unfold handleMouseDown. rewrite Ht.
  rewrite runEffects_drawing by (simpl; auto).
  now repeat split.
Qed.

Lemma bbox_during start shapes s e :
  duringDrag e -> bboxInProgress start shapes s ->
  bboxInProgress start shapes (step s e)
  /\ currentColor (step s e) = paletteAfter [e] (currentColor s).
Proof.
  intros He (Ht & Hd & Hs & Ha). destruct e; try contradiction.
  - unfold step. cbn [handle].
    assert (Hm : exists draft, handleMouseMove coords s = set_draftShape draft s).
    { unfold handleMouseMove. rewrite Ht, Hd, Hs. cbn [negb]. now eexists. }
    destruct Hm as [draft ->].
    rewrite runEffects_drawing by (simpl; auto).
    now repeat split.
  - unfold step. cbn [handle].
    rewrite runEffects_drawing by (simpl; auto).
    now repeat split.
Qed.

Lemma bbox_during_all start shapes events :
  Forall duringDrag events ->
  forall s, bboxInProgress start shapes s ->
            bboxInProgress start shapes (run events s)
            /\ currentColor (run events s) = paletteAfter events (currentColor s).
Proof.
  induction 1 as [|e events He _ IH]; intros s Hs; [now split|].
  rewrite run_cons.
  destruct (bbox_during start shapes s e He Hs) as [Hs' Hc'].
  destruct (IH _ Hs') as [Hs'' Hc''].
  split; [exact Hs''|]. rewrite Hc'', Hc'. reflexivity.
Qed.

Lemma bbox_release start shapes s stop shiftKey freshId :
  bboxInProgress start shapes s ->
  num_lt (Math_abs (x stop - x start)) 8 = false /\
  num_lt (Math_abs (y stop - y start)) 8 = false ->
  exists box,
    annotations (step s (MouseUp stop shiftKey freshId))
    = shapes ++ [{| id := freshId; type := bbox_t; color := Some (currentColor s);
                    label := None; points := None; bbox := Some box |}].
Proof.
  intros (Ht & Hd & Hs & Ha) [Hw Hh]. unfold step.
  rewrite runEffects_annotations. cbn [handle].
  unfold handleMouseUp. rewrite Ht, Hd. cbn [negb].
  rewrite (finalizeBoundingBox_commits start) by assumption.
  eexists. cbn [set_startPos set_isDrawing set_draftShape annotations].
  rewrite commitShape_annotations, Ha. reflexivity.
Qed.

(** A bbox commits the colour that is selected when the pointer is
    released: [finalizeBoundingBox] reads [currentColor], not the ref that
    the pointer-down handler filled. *)
Lemma bbox_color_follows_palette s start stop shift1 shift2 id1 id2 between :
  tool s = Bbox -> Forall duringDrag between ->
  num_lt (Math_abs (x stop - x start)) 8 = false /\
  num_lt (Math_abs (y stop - y start)) 8 = false ->
  exists box,
    annotations (run (MouseDown start shift1 id1 :: between
                        ++ [MouseUp stop shift2 id2]) s)
    = annotations s
        ++ [{| id := id2; type := bbox_t;
               color := Some (paletteAfter between (currentColor s));
               label := None; points := None; bbox := Some box |}].
Proof.
  intros Ht Hmid Hsize. rewrite run_cons, run_app. cbn [run fold_left].
  destruct (bbox_start s start shift1 id1 Ht) as [H0 Hc0].
  destruct (bbox_during_all start _ between Hmid _ H0) as [H1 Hc1].
  destruct (bbox_release start _ _ stop shift2 id2 H1 Hsize) as [box Hbox].
  exists box. unfold run in *. rewrite Hbox, Hc1, Hc0. reflexivity.
Qed.

(** *** Polygons *)

Lemma polygon_start s coords shiftKey freshId :
  tool s = Polygon -> polygonPoints s = [] ->
  polygonInProgress (currentColor s) (step s (MouseDown coords shiftKey freshId))
  /\ annotations (step s (MouseDown coords shiftKey freshId)) = annotations s.
Proof.
  intros Ht Hp. unfold step. rewrite runEffects_annotations. cbn [handle].
  unfold handleMouseDown. rewrite Ht, Hp. cbn.
  rewrite runEffects_polygon by (simpl; auto; discriminate).
  repeat split; auto. simpl. discriminate.
Qed.

Lemma finalizePolygon_pinned pinned s freshId :
  drawingColorRef s = pinned -> (3 <= length (polygonPoints s))%nat ->
  exists closed,
    annotations (finalizePolygon (polygonPoints s) freshId s)
    = annotations s
        ++ [{| id := freshId; type := polygon_t; color := Some pinned;
               label := None; points := Some closed; bbox := None |}].
Proof.
  intros Hc Hlen. rewrite finalizePolygon_commits by exact Hlen.
  eexists. cbn [set_polygonPoints annotations].
  rewrite commitShape_annotations, Hc. reflexivity.
Qed.

(** One event while a polygon is in progress: either the polygon stays in
    progress with its colour and nothing is committed, or the polygon is
    committed with that colour. *)
Lemma polygon_during pinned s e :
  duringPolygon e -> polygonInProgress pinned s ->
  (polygonInProgress pinned (step s e) /\ annotations (step s e) = annotations s)
  \/ exists freshId closed,
      annotations (step s e)
      = annotations s
          ++ [{| id := freshId; type := polygon_t; color := Some pinned;
                 label := None; points := Some closed; bbox := None |}]
      /\ tool (step s e) = Polygon.
Proof.
  intros He (Ht & Hp & Hc). destruct e; try contradiction.
  - (* a pointer-down: a vertex or the closing gesture *)
    assert (Htool : tool (step s (MouseDown coords shiftKey freshId)) = Polygon).
    { unfold step.
      pose proof (handleMouseDown_polygon_tool coords shiftKey freshId s Ht) as H.
      cbn [handle].
      destruct (runEffects_same_tool_fields s
                  (handleMouseDown coords shiftKey freshId s))
        as (_ & _ & _ & _ & _ & -> & _); congruence. }
    unfold step in *. rewrite runEffects_annotations. cbn [handle] in *.
    destruct (closesPolygon_decides (polygonPoints s) coords) as [Hdec1 Hdec2].
    remember ((3 <=? length (polygonPoints s))%nat
              && match polygonPoints s with
                 | first :: _ =>
                     num_le (Math_hypot (x coords - x first) (y coords - y first))
                       POLYGON_CLOSE_DISTANCE
                 | [] => false
                 end) as closing eqn:Eclosing.
    destruct closing.
    + right. pose proof (Hdec1 eq_refl) as Hcl. pose proof Hcl as [Hlen _].
      rewrite handleMouseDown_polygon_closes in * by assumption.
      destruct (finalizePolygon_pinned pinned s freshId Hc Hlen) as [closed Hfin].
      exists freshId, closed. split; [exact Hfin|exact Htool].
    + left.
      assert (Hcl : ~ closesPolygon (polygonPoints s) coords).
      { intros H. apply Hdec2 in H. discriminate. }
      rewrite handleMouseDown_polygon_appends in * by assumption.
      destruct (polygonPoints s) as [|p rest] eqn:Epts; [contradiction|].
      cbn [length Nat.eqb] in *.
      rewrite runEffects_polygon
        by (simpl; rewrite ?Epts; auto; discriminate).
      repeat split; auto. simpl. discriminate.
  - (* the pointer moves *)
    left. unfold step. cbn [handle].
    assert (Hm : handleMouseMove coords s = s).
    { unfold handleMouseMove. rewrite Ht. now destruct (negb (isDrawing s)). }
    rewrite Hm, runEffects_polygon by auto. now repeat split.
  - (* the palette changes *)
    left. unfold step. cbn [handle].
    rewrite runEffects_polygon by (simpl; auto). now repeat split.
  - (* the finish button *)
    unfold step. rewrite runEffects_annotations. cbn [handle].
    unfold handleFinishPolygon.
    destruct (Nat.lt_ge_cases (length (polygonPoints s)) 3) as [Hlen|Hlen].
    + left. rewrite finalizePolygon_short by exact Hlen.
      rewrite runEffects_polygon by auto. now repeat split.
    + right. destruct (finalizePolygon_pinned pinned s freshId Hc Hlen)
        as [closed Hfin].
      exists freshId, closed. split; [exact Hfin|].
      destruct (runEffects_same_tool_fields s
                  (finalizePolygon (polygonPoints s) freshId s))
        as (_ & _ & _ & _ & _ & -> & _);
        rewrite finalizePolygon_commits by exact Hlen; simpl; auto;
        unfold commitShape, pushUndoSnapshot; now destruct (_ <? _)%nat.
Qed.

Lemma handle_polygon_tool e s :
  duringPolygon e -> tool s = Polygon -> tool (handle e s) = Polygon.
Proof.
  intros He Ht. destruct e; try contradiction; cbn [handle].
  - now apply handleMouseDown_polygon_tool.
  - unfold handleMouseMove. rewrite Ht. now destruct (negb (isDrawing s)).
  - exact Ht.
  - unfold handleFinishPolygon, finalizePolygon, commitShape, pushUndoSnapshot.
    repeat match goal with
           | |- context [if ?c then _ else _] => destruct c
           end; exact Ht.
Qed.

Lemma handle_polygon_appends e s :
  duringPolygon e -> tool s = Polygon ->
  exists extra, annotations (handle e s) = annotations s ++ extra.
Proof.
  intros He Ht. destruct e; try contradiction; cbn [handle].
  - unfold handleMouseDown. rewrite Ht. destruct (_ && _).
    + destruct (finalizePolygon_appends (polygonPoints s) freshId
                  (if (length (polygonPoints s) =? 0)%nat
                   then set_drawingColorRef (currentColor s) s else s))
        as [H | (shape & closed & H & _)]; rewrite H;
        destruct (_ =? _)%nat; simpl;
        try (exists []; now rewrite app_nil_r); now exists [shape].
    + exists []. rewrite app_nil_r. now destruct (_ =? _)%nat.
  - exists []. rewrite app_nil_r.
    unfold handleMouseMove. rewrite Ht. now destruct (negb (isDrawing s)).
  - exists []. now rewrite app_nil_r.
  - unfold handleFinishPolygon.
    destruct (finalizePolygon_appends (polygonPoints s) freshId s)
      as [H | (shape & closed & H & _)]; rewrite H.
    + exists []. now rewrite app_nil_r.
    + now exists [shape].
Qed.

Lemma polygon_run_appends events :
  Forall duringPolygon events ->
  forall s, tool s = Polygon ->
            exists extra, annotations (run events s) = annotations s ++ extra.
Proof.
  induction 1 as [|e events He _ IH]; intros s Ht.
  - exists []. now rewrite app_nil_r.
  - rewrite run_cons.
    assert (Ht' : tool (step s e) = Polygon).
    { unfold step.
      pose proof (handle_polygon_tool e s He Ht) as H.
      destruct (runEffects_same_tool_fields s (handle e s))
        as (_ & _ & _ & _ & _ & -> & _); congruence. }
    destruct (IH _ Ht') as [extra2 H2].
    destruct (handle_polygon_appends e s He Ht) as [extra1 H1].
    exists (extra1 ++ extra2). rewrite H2. unfold step.
    rewrite runEffects_annotations, H1. now rewrite app_assoc.
Qed.

Lemma polygon_pinned_until_commit pinned events :
  Forall duringPolygon events ->
  forall s, polygonInProgress pinned s ->
    annotations (run events s) = annotations s
    \/ exists shape later,
        annotations (run events s) = annotations s ++ shape :: later
        /\ type shape = polygon_t /\ color shape = Some pinned.
Proof.
  induction 1 as [|e events He Hrest IH]; intros s Hs; [now left|].
  rewrite run_cons.
  destruct (polygon_during pinned s e He Hs)
    as [[Hs' Ha'] | (freshId & closed & Ha' & Ht')].
  - destruct (IH _ Hs') as [H | (shape & later & H & Hshape)].
    + left. congruence.
    + right. exists shape, later. rewrite H, Ha'. now split.
  - right. destruct (polygon_run_appends events Hrest _ Ht') as [later H].
    eexists. exists later. rewrite H, Ha', <- app_assoc. now repeat split.
Qed.

(** The first polygon committed after the first vertex was placed carries
    the colour that was selected when that vertex was placed, whatever the
    palette did in between. *)
Lemma polygon_color_pinned s first shiftKey freshId events :
  tool s = Polygon -> polygonPoints s = [] -> Forall duringPolygon events ->
  let s' := run (MouseDown first shiftKey freshId :: events) s in
  annotations s' = annotations s
  \/ exists shape later,
      annotations s' = annotations s ++ shape :: later
      /\ type shape = polygon_t /\ color shape = Some (currentColor s).
Proof.
  intros Ht Hp Hev s'. unfold s'. rewrite run_cons.
  destruct (polygon_start s first shiftKey freshId Ht Hp) as [H0 Ha0].
  rewrite <- Ha0. now apply polygon_pinned_until_commit.
Qed.

(** C1. Colour pinning holds for freehand strokes and polygons and fails
    for bounding boxes.  A bbox drag that starts with the palette on
    [#ef4444], during which the palette is changed to [#3b82f6], commits a
    shape coloured [#3b82f6], although the draft shown during the drag
    keeps [#ef4444]; the same gesture with the freehand tool, and a polygon
    recoloured after its first vertex, commit [#ef4444]. *)
Theorem bbox_commit_takes_current_palette_color :
  currentColor (initialState []) = "#ef4444"%string /\
  option_map color
    (draftShape (run (firstn 4 (recolored_drag Bbox)) (initialState [])))
  = Some (Some "#ef4444"%string) /\
  map color (annotations (run (recolored_drag Bbox) (initialState [])))
  = [Some "#3b82f6"%string] /\
  map color (annotations (run (recolored_drag Freehand) (initialState [])))
  = [Some "#ef4444"%string] /\
  map color (annotations (run recolored_polygon (initialState [])))
  = [Some "#ef4444"%string].
Proof.
  split; [reflexivity|].
  split; [vm_compute; reflexivity|].
  split; [vm_compute; reflexivity|].
  split; [|vm_compute; reflexivity].
  change (recolored_drag Freehand)
    with (ClickTool Freehand
            :: MouseDown (mkPoint 10 10) false "d"
            :: [ClickColor "#3b82f6"; MouseMove (mkPoint 30 20)]
            ++ [MouseUp (mkPoint 30 25) false "d"]).
  rewrite run_cons.
  destruct (freehand_color_pinned (step (initialState []) (ClickTool Freehand))
              (mkPoint 10 10) (mkPoint 30 25) false false "d" "d"
              [ClickColor "#3b82f6"; MouseMove (mkPoint 30 20)])
    as [closed ->]; [reflexivity|repeat constructor|].
  reflexivity.
Qed.

End Colour.

(** ** Every edit of a tool goes through the history *)

Section EditsRecorded.
Context {engine : Engine}.

Lemma commitShape_change shape s : CollectionEdit s (commitShape shape s).
Proof.
  apply (Appended _ _ shape); [apply commitShape_annotations|apply commitShape_stack].
Qed.

Lemma change_same s s1 s2 :
  annotations s2 = annotations s1 -> undoStackRef s2 = undoStackRef s1 ->
  CollectionEdit s s1 -> CollectionEdit s s2.
Proof.
  intros Ha Hu [H1 H2|shape H1 H2|keep H1 H2].
  - apply Untouched; congruence.
  - apply (Appended _ _ shape); congruence.
  - apply (Removed _ _ keep); congruence.
Qed.

Lemma change_from_same s0 s s' :
  annotations s0 = annotations s -> undoStackRef s0 = undoStackRef s ->
  CollectionEdit s0 s' -> CollectionEdit s s'.
Proof.
  intros Ha Hu [H1 H2|shape H1 H2|keep H1 H2].
  - apply Untouched; congruence.
  - apply (Appended _ _ shape); congruence.
  - apply (Removed _ _ keep); congruence.
Qed.

Lemma removal_change (keep : AnnotationShape -> bool) s :
  CollectionEdit s
    (set_annotations (filter keep (annotations s))
       (pushUndoSnapshot (annotations s) s)).
Proof.
  apply (Removed _ _ keep); [reflexivity|]. simpl. apply pushUndoSnapshot_stack.
Qed.

Lemma finalizePolygon_change pts freshId s :
  CollectionEdit s (finalizePolygon pts freshId s).
Proof.
  destruct (Nat.lt_ge_cases (length pts) 3) as [H|H].
  - rewrite finalizePolygon_short by exact H. now apply Untouched.
  - rewrite finalizePolygon_commits by exact H.
    eapply change_same; [| |apply commitShape_change]; reflexivity.
Qed.

Lemma finalizeFreehand_change freshId s :
  CollectionEdit s (finalizeFreehand freshId s).
Proof.
  unfold finalizeFreehand. destruct (_ <? _)%nat; [now apply Untouched|].
  eapply change_same; [| |apply commitShape_change]; reflexivity.
Qed.

Lemma finalizeBoundingBox_change coords freshId s :
  CollectionEdit s (finalizeBoundingBox coords freshId s).
Proof.
  unfold finalizeBoundingBox. destruct (startPos s); [|now apply Untouched].
  destruct (_ || _); [now apply Untouched|apply commitShape_change].
Qed.

Lemma appendFreehandPoint_same point force s :
  annotations (appendFreehandPoint point force s) = annotations s /\
  undoStackRef (appendFreehandPoint point force s) = undoStackRef s.
Proof.
  destruct (appendFreehandPoint_fields point force s) as (_ & _ & _ & H1 & _ & H2 & _).
  now split.
Qed.

Lemma selectOnMouseUp_same coords shiftKey s :
  annotations (selectOnMouseUp coords shiftKey s) = annotations s /\
  undoStackRef (selectOnMouseUp coords shiftKey s) = undoStackRef s.
Proof.
  unfold selectOnMouseUp.
  repeat match goal with
         | |- context [match ?c with _ => _ end] => destruct c
         end; now split.
Qed.

Lemma handleMouseUp_change coords shiftKey freshId s :
  CollectionEdit s (handleMouseUp coords shiftKey freshId s).
Proof.
  unfold handleMouseUp. destruct (tool s); try (now apply Untouched).
  - destruct (negb _); [now apply Untouched|].
    eapply change_same; [| |apply (finalizeBoundingBox_change coords freshId)];
      reflexivity.
  - destruct (negb _); [now apply Untouched|].
    destruct (appendFreehandPoint_same coords true s) as [Ha Hu].
    apply (change_from_same (appendFreehandPoint coords true s)); auto.
    apply finalizeFreehand_change.
  - destruct (selectOnMouseUp_same coords shiftKey s). now apply Untouched.
Qed.

Lemma undo_change s : CollectionUndo s (undoLastAnnotationChange s).
Proof.
  destruct (undoStackRef s) as [|a l] eqn:E.
  - rewrite undoLastAnnotationChange_empty by exact E. now apply NothingToUndo.
  - destruct (exists_last (l := a :: l)) as (older & previous & E'); [discriminate|].
    rewrite <- E in E'.
    rewrite (undoLastAnnotationChange_pop _ _ _ E').
    now apply (Restored _ _ older previous).
Qed.

Lemma handleUndoKey_change s : CollectionUndo s (handleUndoKey s).
Proof.
  unfold handleUndoKey. destruct (_ && _); [now apply NothingToUndo|].
  apply undo_change.
Qed.

Lemma handle_change e s : e <> KeyUndo -> CollectionEdit s (handle e s).
Proof.
  intros Hne. destruct e; cbn [handle]; try (now apply Untouched);
    try (now contradiction Hne).
  - unfold handleMouseDown. destruct (tool s).
    + now apply Untouched.
    + destruct (_ && _).
      * destruct (_ =? _)%nat; [|apply finalizePolygon_change].
        apply (change_from_same (set_drawingColorRef (currentColor s) s));
          [reflexivity|reflexivity|apply finalizePolygon_change].
      * destruct (_ =? _)%nat; now apply Untouched.
    + destruct (appendFreehandPoint_same coords true
                  (s |> set_isDrawing true |> set_drawingColorRef (currentColor s)
                     |> set_freehandPointsRef [])) as [Ha Hu].
      now apply Untouched.
    + destruct (negb shiftKey); now apply Untouched.
    + destruct (findAnnotationAt s coords) as [found|]; [|now apply Untouched].
      destruct (truthy found); [|now apply Untouched].
      eapply change_same;
        [| |apply (removal_change
                     (fun shape => negb (String.eqb (id shape) found)) s)];
        reflexivity.
  - unfold handleMouseMove.
    destruct (tool s), (selectionStartRef s), (negb (isDrawing s)), (startPos s);
      try (now apply Untouched);
      destruct (appendFreehandPoint_same coords false s); now apply Untouched.
  - apply handleMouseUp_change.
  - unfold handleMouseLeave.
    destruct (tool s), (selectionStartRef s), (negb (isDrawing s));
      try (now apply Untouched);
      try apply handleMouseUp_change; apply finalizeFreehand_change.
  - apply finalizePolygon_change.
  - unfold handleDeleteSelected. destruct (_ =? _)%nat; [now apply Untouched|].
    eapply change_same;
      [| |apply (removal_change
                   (fun shape => negb (includes (selectedIds s) (id shape))) s)];
      reflexivity.
Qed.

Lemma step_change s e : e <> KeyUndo -> CollectionEdit s (step s e).
Proof.
  intros Hne. unfold step. eapply change_same; [| |apply (handle_change e s Hne)].
  - apply runEffects_annotations.
  - apply runEffects_undoStackRef.
Qed.

Lemma step_undo_change s : CollectionUndo s (step s KeyUndo).
Proof.
  unfold step. cbn [handle].
  destruct (handleUndoKey_change s) as [H1 H2|older previous H0 H1 H2].
  - apply NothingToUndo;
      now rewrite ?runEffects_annotations, ?runEffects_undoStackRef.
  - apply (Restored _ _ older previous);
      now rewrite ?runEffects_annotations, ?runEffects_undoStackRef.
Qed.

(** X10. Every edit that a tool makes is recorded in the undo history.
    A pointer, button or palette event leaves collection and history as
    they are, or appends exactly one shape at the end, or removes shapes
    and keeps the others in their order; in the last two cases it pushes
    the collection as it was before the change.  The undo key leaves both
    as they are or restores the most recent snapshot and pops it.  No
    event edits or reorders the shapes that stay.  The item effect is not
    an edit and is not recorded: when the parent hands the canvas another
    [item.annotations] (as it does after a save), the collection becomes
    that array and the history is emptied, so that the undo key that
    follows finds nothing to restore. *)
Theorem every_edit_is_recorded :
  forall (s : EditorState) (e : Event),
    (e <> KeyUndo -> CollectionEdit s (step s e)) /\
    (e = KeyUndo -> CollectionUndo s (step s e)) /\
    (forall itemAnnotations : option (list AnnotationShape),
        let s' := itemEffect itemAnnotations s in
        annotations s' = match itemAnnotations with Some a => a | None => [] end /\
        undoStackRef s' = [] /\ selectedIds s' = [] /\
        annotations (step s' KeyUndo) = annotations s' /\
        undoStackRef (step s' KeyUndo) = []).
Proof.
  intros s e. split; [apply step_change|]. split.
  - intros ->. apply step_undo_change.
  - intros itemAnnotations s'.
    assert (Hundo : handle KeyUndo s' = s').
    { cbn [handle]. unfold handleUndoKey. unfold s', itemEffect. cbn.
      now rewrite andb_false_r. }
    unfold step. rewrite runEffects_annotations, runEffects_undoStackRef, Hundo.
    now repeat split.
Qed.

End EditsRecorded.

Lemma every_edit_is_recorded_witness :
  CollectionEdit drag_started (step drag_started (MouseUp (mkPoint 30 25) false "n"))
  /\ CollectionUndo selected_state (step selected_state KeyUndo)
  /\ annotations (step (itemEffect (Some [sample_box]) selected_state) KeyUndo)
     = [sample_box].
Proof.
  split; [|split].
  - apply (proj1 (every_edit_is_recorded drag_started
                    (MouseUp (mkPoint 30 25) false "n"%string))).
    discriminate.
  - apply (proj1 (proj2 (every_edit_is_recorded selected_state KeyUndo))).
    reflexivity.
  - destruct (proj2 (proj2 (every_edit_is_recorded selected_state KeyUndo))
                (Some [sample_box])) as (Ha & _ & _ & Hu & _).
    rewrite Hu. exact Ha.
Defined.

(** ** Undo after an edit *)

Section UndoRoundTrip.
Context {engine : Engine}.

Lemma evictOldest_last stack snapshot :
  exists older,
    evictOldest (stack ++ [snapshot]) = older ++ [snapshot] /\
    ((length stack < MAX_UNDO_STACK)%nat -> older = stack).
Proof.
  unfold evictOldest. rewrite length_app. simpl.
  destruct (_ <? _)%nat eqn:E.
  - apply Nat.ltb_lt in E. destruct stack as [|a stack].
    + unfold MAX_UNDO_STACK in E. simpl in E. lia.
    + exists stack. split; [reflexivity|].
      unfold MAX_UNDO_STACK in *. simpl in *. intros H. lia.
  - exists stack. now split.
Qed.

Lemma step_KeyUndo_global s :
  tool s <> Polygon \/ polygonPoints s = [] ->
  step s KeyUndo = undoLastAnnotationChange s.
Proof.
  intros Hg. unfold step. cbn [handle].
  assert (E : handleUndoKey s = undoLastAnnotationChange s).
  { unfold handleUndoKey. destruct Hg as [Ht|Hp].
    - destruct (tool s); try reflexivity. now contradiction Ht.
    - rewrite Hp. simpl. now rewrite andb_false_r. }
  rewrite E. unfold runEffects, colorDepsChanged, undoLastAnnotationChange.
  destruct (rev (undoStackRef s)); simpl;
    rewrite String.eqb_refl, Bool.eqb_reflx, Nat.eqb_refl; simpl;
    now destruct (tool s).
Qed.

(** X11. Undo after an edit is a round trip: when an event other than the
    undo key changed the collection and no polygon is in progress
    afterwards, the undo key brings back the collection as it was before
    the event and clears the selection; below the capacity of 50 it brings
    back the history as well. *)
Theorem undo_reverts_last_edit :
  forall (s : EditorState) (e : Event),
    e <> KeyUndo ->
    annotations (step s e) <> annotations s ->
    tool (step s e) <> Polygon \/ polygonPoints (step s e) = [] ->
    let s' := step (step s e) KeyUndo in
    annotations s' = annotations s /\
    selectedIds s' = [] /\
    ((length (undoStackRef s) < 50)%nat -> undoStackRef s' = undoStackRef s).
Proof.
  intros s e Hne Hchanged Hidle s'. unfold s'.
  rewrite (step_KeyUndo_global _ Hidle).
  assert (Hpushed : undoStackRef (step s e)
                    = evictOldest (undoStackRef s ++ [annotations s])).
  { destruct (step_change s e Hne) as [H1 H2|shape H1 H2|keep H1 H2]; auto.
    contradiction. }
  destruct (evictOldest_last (undoStackRef s) (annotations s))
    as (older & Hold & Hsame).
  rewrite Hold in Hpushed.
  rewrite (undoLastAnnotationChange_pop _ _ _ Hpushed). simpl.
  repeat split. exact Hsame.
Qed.

End UndoRoundTrip.

Lemma undo_reverts_last_edit_witness :
  annotations (step (step drag_started (MouseUp (mkPoint 30 25) false "n")) KeyUndo)
  = annotations drag_started /\
  selectedIds (step (step drag_started (MouseUp (mkPoint 30 25) false "n")) KeyUndo)
  = [] /\
  ((length (undoStackRef drag_started) < 50)%nat ->
   undoStackRef (step (step drag_started (MouseUp (mkPoint 30 25) false "n")) KeyUndo)
   = undoStackRef drag_started).
Proof.
  apply (undo_reverts_last_edit drag_started (MouseUp (mkPoint 30 25) false "n"%string)).
  - discriminate.
  - vm_compute. discriminate.
  - left. vm_compute. discriminate.
Defined.

(** ** The history stays within its capacity *)

Section Invariants.
Context {engine : Engine}.

Lemma stack_bound_step s e :
  (length (undoStackRef s) <= MAX_UNDO_STACK)%nat ->
  (length (undoStackRef (step s e)) <= MAX_UNDO_STACK)%nat.
Proof.
  intros H.
  assert (Hpush : (length (evictOldest (undoStackRef s ++ [annotations s]))
                   <= MAX_UNDO_STACK)%nat) by now apply evictOldest_bound.
  assert (Hdec : {e = KeyUndo} + {e <> KeyUndo}).
  { destruct e; (left; reflexivity) || (right; discriminate). }
  destruct Hdec as [-> | Hne].
  - destruct (step_undo_change s) as [H1 H2|older previous H0 H1 H2].
    + now rewrite H2.
    + rewrite H2. rewrite H0, length_app in H. simpl in H. lia.
  - destruct (step_change s e Hne) as [H1 H2|shape H1 H2|keep H1 H2];
      now rewrite H2.
Qed.

(** X12. The undo history never holds more than 50 snapshots: in every
    state that the events reach from a freshly opened item the stack has
    at most 50 entries. *)
Theorem undo_stack_never_exceeds_capacity :
  forall (seed : list AnnotationShape) (events : list Event),
    (length (undoStackRef (run events (initialState seed))) <= 50)%nat.
Proof.
  intros seed events.
  assert (H : forall s, (length (undoStackRef s) <= MAX_UNDO_STACK)%nat ->
                        (length (undoStackRef (run events s)) <= MAX_UNDO_STACK)%nat).
  { induction events as [|e events IH]; intros s Hs; [exact Hs|].
    rewrite run_cons. apply IH. now apply stack_bound_step. }
  apply H. simpl. unfold MAX_UNDO_STACK. lia.
Qed.

(** ** The selection names shapes of the collection *)

Lemma includes_In ids i : includes ids i = true <-> In i ids.
Proof.
  unfold includes. rewrite existsb_exists. split.
  - intros (j & Hin & E). apply String.eqb_eq in E. now subst.
  - intros H. exists i. split; [exact H|apply String.eqb_refl].
Qed.

Lemma dedupe_from_In seen ids i :
  In i (dedupe_from seen ids) <-> In i ids /\ ~ In i seen.
Proof.
  revert seen. induction ids as [|j ids IH]; intros seen; simpl; [tauto|].
  destruct (includes seen j) eqn:E.
  - apply includes_In in E. rewrite IH. split.
    + intros [H1 H2]. tauto.
    + intros [[->|H1] H2]; [contradiction|tauto].
  - assert (Hj : ~ In j seen).
    { intros H. apply includes_In in H. congruence. }
    simpl. rewrite IH, in_app_iff. simpl.
    destruct (string_dec j i) as [->|Hne]; [tauto|].
    split.
    + intros [H|[H1 H2]]; [contradiction|]. tauto.
    + intros [[H|H1] H2]; [contradiction|]. right. tauto.
Qed.

Lemma dedupe_from_NoDup seen ids : NoDup (dedupe_from seen ids).
Proof.
  revert seen. induction ids as [|j ids IH]; intros seen; simpl; [constructor|].
  destruct (includes seen j); [apply IH|].
  constructor; [|apply IH].
  rewrite dedupe_from_In, in_app_iff. simpl. tauto.
Qed.

Lemma dedupe_In ids i : In i (dedupe ids) <-> In i ids.
Proof. unfold dedupe. rewrite dedupe_from_In. simpl. tauto. Qed.

Lemma withoutId_In found ids i : In i (withoutId found ids) <-> In i ids /\ i <> found.
Proof.
  unfold withoutId. rewrite filter_In, negb_true_iff, String.eqb_neq. tauto.
Qed.

Lemma findAnnotationAt_In s point found :
  findAnnotationAt s point = Some found -> In found (map id (annotations s)).
Proof.
  intros H. pose proof (topmostMatch_split (annotations s) point) as Hs.
  rewrite <- findAnnotationAt_is_topmostMatch, H in Hs.
  destruct Hs as (older & shape & newer & E & Hid & _).
  rewrite E, <- Hid. apply in_map, in_elt.
Qed.

Lemma rectMatches_incl rect shapes : incl (rectMatches rect shapes) (map id shapes).
Proof.
  intros i Hin. apply rectMatches_In in Hin as (shape & _ & Hin & <- & _).
  now apply in_map.
Qed.

Lemma selectOnMouseUp_selection coords shiftKey s :
  incl (selectedIds s) (map id (annotations s)) ->
  incl (selectedIds (selectOnMouseUp coords shiftKey s)) (map id (annotations s)).
Proof.
  intros Hv.
  assert (Hclick :
            forall s1, selectedIds s1 = selectedIds s ->
              incl (selectedIds
                      match findAnnotationAt s coords with
                      | Some found =>
                          if truthy found then
                            set_selectedIds
                              (if shiftKey
                               then if includes (selectedIds s) found
                                    then withoutId found (selectedIds s)
                                    else selectedIds s ++ [found]
                               else [found]) s1
                          else if negb shiftKey then set_selectedIds [] s1 else s1
                      | None => if negb shiftKey then set_selectedIds [] s1 else s1
                      end) (map id (annotations s))).
  { intros s1 Hs1.
    destruct (findAnnotationAt s coords) as [found|] eqn:Ef.
    - apply findAnnotationAt_In in Ef.
      destruct (truthy found); [|destruct (negb shiftKey); simpl;
                                  [apply incl_nil_l|now rewrite Hs1]].
      destruct shiftKey; simpl.
      + destruct (includes (selectedIds s) found).
        * intros i Hi. apply withoutId_In in Hi. now apply Hv.
        * apply incl_app; [exact Hv|]. intros i [<-|[]]. exact Ef.
      + intros i [<-|[]]. exact Ef.
    - destruct (negb shiftKey); simpl; [apply incl_nil_l|now rewrite Hs1]. }
  unfold selectOnMouseUp.
  destruct (selectionStartRef s) as [start|]; [|exact Hv].
  destruct (selectionRect s) as [r|].
  - destruct (num_lt _ 5); [now apply Hclick|].
    destruct (_ <? _)%nat; [|destruct (negb shiftKey); simpl;
                              [apply incl_nil_l|exact Hv]].
    destruct shiftKey; simpl.
    + intros i Hi. apply dedupe_In, in_app_iff in Hi as [Hi|Hi];
        [now apply Hv|now apply (rectMatches_incl r)].
    + apply rectMatches_incl.
  - destruct (num_lt _ 5); [now apply Hclick|].
    destruct (_ <? _)%nat; [|destruct (negb shiftKey); simpl;
                              [apply incl_nil_l|exact Hv]].
    destruct shiftKey; simpl.
    + intros i Hi. apply dedupe_In, in_app_iff in Hi as [Hi|Hi];
        [now apply Hv|now apply (rectMatches_incl (normalizeRect start coords))].
    + apply rectMatches_incl.
Qed.

Lemma selectionValid_commit shape s : selectionValid (commitShape shape s).
Proof.
  unfold selectionValid. rewrite commitShape_annotations, map_app.
  intros i [<-|[]]. apply in_or_app. right. now left.
Qed.

Lemma selectionValid_same s s' :
  annotations s' = annotations s -> selectedIds s' = selectedIds s ->
  selectionValid s -> selectionValid s'.
Proof. unfold selectionValid. now intros -> ->. Qed.

Lemma selectionValid_cleared s' :
  selectedIds s' = [] -> selectionValid s'.
Proof. unfold selectionValid. intros ->. apply incl_nil_l. Qed.

Lemma selectionValid_finalizePolygon pts freshId s :
  selectionValid s -> selectionValid (finalizePolygon pts freshId s).
Proof.
  intros Hs. destruct (Nat.lt_ge_cases (length pts) 3) as [H|H].
  - now rewrite finalizePolygon_short.
  - rewrite finalizePolygon_commits by exact H.
    eapply selectionValid_same; [| |apply selectionValid_commit]; reflexivity.
Qed.

Lemma selectionValid_finalizeFreehand freshId s :
  selectionValid s -> selectionValid (finalizeFreehand freshId s).
Proof.
  intros Hs. unfold finalizeFreehand. destruct (_ <? _)%nat; [exact Hs|].
  eapply selectionValid_same; [| |apply selectionValid_commit]; reflexivity.
Qed.

Lemma selectionValid_finalizeBoundingBox coords freshId s :
  selectionValid s -> selectionValid (finalizeBoundingBox coords freshId s).
Proof.
  intros Hs. unfold finalizeBoundingBox.
  destruct (startPos s); [|exact Hs].
  destruct (_ || _); [exact Hs|apply selectionValid_commit].
Qed.

Lemma selectionValid_appendFreehandPoint point force s :
  selectionValid s -> selectionValid (appendFreehandPoint point force s).
Proof.
  intros Hs. unfold appendFreehandPoint.
  destruct (match lastElement _ with Some _ => _ | None => _ end); exact Hs.
Qed.

Lemma selectionValid_erase found s :
  selectionValid s ->
  selectionValid
    (s |> pushUndoSnapshot (annotations s)
       |> set_annotations (removeById found (annotations s))
       |> set_selectedIds (withoutId found (selectedIds s))).
Proof.
  unfold selectionValid. simpl. intros Hs i Hi.
  apply withoutId_In in Hi as [Hi Hne].
  apply Hs, in_map_iff in Hi as (shape & <- & Hin).
  apply in_map. unfold removeById. apply filter_In. split; [exact Hin|].
  now apply negb_true_iff, String.eqb_neq.
Qed.

Lemma selectionValid_handleMouseUp coords shiftKey freshId s :
  selectionValid s -> selectionValid (handleMouseUp coords shiftKey freshId s).
Proof.
  intros Hs. unfold handleMouseUp. destruct (tool s); try exact Hs.
  - destruct (negb _); [exact Hs|].
    apply (selectionValid_same (finalizeBoundingBox coords freshId s));
      [reflexivity|reflexivity|now apply selectionValid_finalizeBoundingBox].
  - destruct (negb _); [exact Hs|].
    now apply selectionValid_finalizeFreehand, selectionValid_appendFreehandPoint.
  - unfold selectionValid.
    rewrite (proj1 (selectOnMouseUp_same coords shiftKey s)).
    now apply selectOnMouseUp_selection.
Qed.

Lemma selectionValid_undo s :
  selectionValid s -> selectionValid (undoLastAnnotationChange s).
Proof.
  intros Hs. unfold undoLastAnnotationChange.
  destruct (rev (undoStackRef s)); [exact Hs|]. now apply selectionValid_cleared.
Qed.

Lemma selectionValid_handle e s : selectionValid s -> selectionValid (handle e s).
Proof.
  intros Hs. destruct e; cbn [handle]; try exact Hs.
  - unfold handleMouseDown. destruct (tool s).
    + exact Hs.
    + destruct (_ && _).
      * apply selectionValid_finalizePolygon. now destruct (_ =? _)%nat.
      * now destruct (_ =? _)%nat.
    + apply (selectionValid_appendFreehandPoint coords true
               (s |> set_isDrawing true |> set_drawingColorRef (currentColor s)
                  |> set_freehandPointsRef [])).
      exact Hs.
    + destruct (negb shiftKey); [now apply selectionValid_cleared|exact Hs].
    + destruct (findAnnotationAt s coords) as [found|]; [|exact Hs].
      destruct (truthy found); [|exact Hs].
      now apply selectionValid_erase.
  - unfold handleMouseMove.
    destruct (tool s), (selectionStartRef s), (negb (isDrawing s)), (startPos s);
      try exact Hs; now apply selectionValid_appendFreehandPoint.
  - now apply selectionValid_handleMouseUp.
  - unfold handleMouseLeave.
    destruct (tool s), (selectionStartRef s), (negb (isDrawing s));
      try exact Hs;
      try (now apply selectionValid_handleMouseUp);
      now apply selectionValid_finalizeFreehand.
  - now apply selectionValid_finalizePolygon.
  - unfold handleDeleteSelected. destruct (_ =? _)%nat; [exact Hs|].
    now apply selectionValid_cleared.
  - unfold handleUndoKey. destruct (_ && _); [exact Hs|].
    now apply selectionValid_undo.
Qed.

Lemma runEffects_selectedIds prev s :
  selectedIds (runEffects prev s) = selectedIds s
  \/ selectedIds (runEffects prev s) = [].
Proof.
  unfold runEffects, toolEffect, colorEffect.
  repeat match goal with
         | |- context [if ?c then _ else _] => destruct c
         end; simpl; auto.
Qed.

Lemma selectionValid_step s e : selectionValid s -> selectionValid (step s e).
Proof.
  intros Hs. unfold step.
  destruct (runEffects_selectedIds s (handle e s)) as [H|H].
  - eapply selectionValid_same; [apply runEffects_annotations|exact H|].
    now apply selectionValid_handle.
  - now apply selectionValid_cleared.
Qed.

(** X13. The selection never dangles: in every state that the events
    reach from a freshly opened item, each selected id is the id of a
    shape that is in the collection. *)
Theorem selection_names_existing_shapes :
  forall (seed : list AnnotationShape) (events : list Event) (i : string),
    In i (selectedIds (run events (initialState seed))) ->
    exists shape,
      In shape (annotations (run events (initialState seed))) /\ id shape = i.
Proof.
  intros seed events.
  assert (H : forall s, selectionValid s -> selectionValid (run events s)).
  { induction events as [|e events IH]; intros s Hs; [exact Hs|].
    rewrite run_cons. apply IH. now apply selectionValid_step. }
  intros i Hi.
  assert (Hv : selectionValid (initialState seed)) by apply incl_nil_l.
  apply (H _ Hv), in_map_iff in Hi as (shape & Hid & Hin).
  now exists shape.
Qed.

End Invariants.

Lemma selection_names_existing_shapes_witness :
  exists shape,
    In shape (annotations (run polygon_clicks (initialState []))) /\
    id shape = "p"%string.
Proof.
  apply (selection_names_existing_shapes [] polygon_clicks "p"%string).
  vm_compute. now left.
Defined.

(** ** Transient state belongs to the active tool *)

Section TransientState.
Context {engine : Engine}.

Lemma transientOk_same s s' :
  transient s' = transient s -> transientOk s -> transientOk s'.
Proof.
  unfold transient, transientOk. intros E.
  injection E as -> -> -> -> -> -> -> ->. intros H. exact H.
Qed.

Lemma pushUndoSnapshot_transient snapshot s :
  transient (pushUndoSnapshot snapshot s) = transient s.
Proof. unfold pushUndoSnapshot. now destruct (_ <? _)%nat. Qed.

Lemma commitShape_transient shape s : transient (commitShape shape s) = transient s.
Proof.
  unfold commitShape. unfold transient at 1. simpl.
  pose proof (pushUndoSnapshot_transient (annotations s) s) as H.
  unfold transient in H. injection H as -> -> -> -> -> -> -> ->. reflexivity.
Qed.

Lemma transientNormal_same s s' :
  transient s' = transient s -> transientNormal s -> transientNormal s'.
Proof.
  unfold transient, transientNormal. intros E.
  injection E as -> -> -> -> -> -> -> ->. intros H. exact H.
Qed.

Ltac tool_cases :=
  first [ congruence
        | now left
        | now (right; left)
        | now (right; right)
        | now right ].

Lemma transientNormal_ok s : transientNormal s -> transientOk s.
Proof.
  unfold transientNormal, transientOk.
  destruct (tool s), (isDrawing s) eqn:Ed; intros H;
    repeat match goal with
           | H : _ /\ _ |- _ => destruct H
           | H : ?a = ?a -> _ |- _ => specialize (H eq_refl)
           end;
    repeat split; intros; tool_cases.
Qed.

Lemma pushUndoSnapshot_tool snapshot s : tool (pushUndoSnapshot snapshot s) = tool s.
Proof. unfold pushUndoSnapshot. now destruct (_ <? _)%nat. Qed.

Ltac split_conditions :=
  repeat match goal with
         | |- context [if ?c then _ else _] => destruct c eqn:?
         | |- context [match ?c with Some _ => _ | None => _ end] => destruct c eqn:?
         | |- context [match ?c with [] => _ | _ :: _ => _ end] => destruct c eqn:?
         end.

Lemma handle_keeps_tool e s :
  (forall t, e <> ClickTool t) -> tool (handle e s) = tool s.
Proof.
  intros Hne. destruct e; cbn [handle]; try reflexivity.
  - unfold handleMouseDown, finalizePolygon, commitShape, pushUndoSnapshot,
      appendFreehandPoint.
    destruct (tool s) eqn:Ht; split_conditions; simpl; congruence.
  - unfold handleMouseMove, appendFreehandPoint.
    destruct (tool s) eqn:Ht; split_conditions; simpl; congruence.
  - unfold handleMouseUp, selectOnMouseUp, finalizeBoundingBox, finalizeFreehand,
      commitShape, pushUndoSnapshot, appendFreehandPoint.
    destruct (tool s) eqn:Ht; split_conditions; simpl; congruence.
  - unfold handleMouseLeave, handleMouseUp, selectOnMouseUp, finalizeBoundingBox,
      finalizeFreehand, commitShape, pushUndoSnapshot, appendFreehandPoint.
    destruct (tool s) eqn:Ht; split_conditions; simpl; congruence.
  - now contradiction (Hne t).
  - unfold handleFinishPolygon, finalizePolygon, commitShape, pushUndoSnapshot.
    split_conditions; reflexivity.
  - unfold handleDeleteSelected, pushUndoSnapshot. split_conditions; reflexivity.
  - unfold handleUndoKey, undoLastAnnotationChange. split_conditions; reflexivity.
Qed.

Ltac use_normal :=
  repeat match goal with
         | H : _ /\ _ |- _ => destruct H
         | H : ?a = ?a -> _ |- _ => specialize (H eq_refl)
         | H : false = true -> _ |- _ => clear H
         | H : true = false -> _ |- _ => clear H
         end.

Ltac close_normal :=
  simpl in *; use_normal; repeat split; intros;
  repeat match goal with
         | H : ?P -> _, H' : ?P |- _ => specialize (H H')
         end;
  use_normal;
  try reflexivity; try assumption; try discriminate; try congruence.

Lemma handle_normal e s :
  (forall t, e <> ClickTool t) -> transientNormal s -> transientNormal (handle e s).
Proof.
  intros Hne Hs. unfold transientNormal.
  rewrite (handle_keeps_tool e s Hne).
  unfold transientNormal in Hs.
  destruct e; cbn [handle]; try exact Hs.
  - unfold handleMouseDown, finalizePolygon, commitShape, pushUndoSnapshot,
      appendFreehandPoint.
    destruct (tool s) eqn:Ht, (isDrawing s) eqn:Ed; split_conditions; close_normal.
  - unfold handleMouseMove, appendFreehandPoint.
    destruct (tool s) eqn:Ht, (isDrawing s) eqn:Ed; split_conditions; close_normal.
  - unfold handleMouseUp, selectOnMouseUp, finalizeBoundingBox, finalizeFreehand,
      commitShape, pushUndoSnapshot, appendFreehandPoint.
    destruct (tool s) eqn:Ht, (isDrawing s) eqn:Ed; split_conditions; close_normal.
  - unfold handleMouseLeave, handleMouseUp, selectOnMouseUp, finalizeBoundingBox,
      finalizeFreehand, commitShape, pushUndoSnapshot, appendFreehandPoint.
    destruct (tool s) eqn:Ht, (isDrawing s) eqn:Ed; split_conditions; close_normal.
  - unfold handleFinishPolygon, finalizePolygon, commitShape, pushUndoSnapshot.
    destruct (tool s) eqn:Ht; split_conditions; close_normal.
  - unfold handleUndoPolygonPoint.
    destruct (tool s) eqn:Ht; close_normal;
      match goal with
      | H : polygonPoints _ = [] |- _ => now rewrite H
      end.
  - unfold handleClearPolygon.
    destruct (tool s) eqn:Ht; close_normal.
  - unfold handleDeleteSelected, pushUndoSnapshot.
    destruct (tool s) eqn:Ht; split_conditions; close_normal.
  - unfold handleUndoKey, undoLastAnnotationChange.
    destruct (tool s) eqn:Ht; split_conditions; close_normal.
Qed.

Lemma runEffects_same_tool_transient prev s :
  tool s = tool prev -> transient (runEffects prev s) = transient s.
Proof.
  intros Ht. now destruct (runEffects_same_tool prev s Ht) as [-> | ->].
Qed.

Lemma Tool_eqb_false a b : a <> b -> Tool_eqb a b = false.
Proof. intros H. destruct a, b; try reflexivity; now contradiction H. Qed.

Lemma runEffects_new_tool prev s :
  tool prev <> tool s ->
  transient (runEffects prev s) = (tool s, false, None, None, [], None, None, [])
  /\ selectedIds (runEffects prev s)
     = (if Tool_eqb (tool s) Select then selectedIds s else [])
  /\ currentColor (runEffects prev s) = currentColor s.
Proof.
  intros Ht. unfold runEffects. rewrite (Tool_eqb_false _ _ Ht).
  unfold toolEffect, colorEffect.
  repeat match goal with
         | |- context [if colorDepsChanged ?a ?b then _ else _] =>
             destruct (colorDepsChanged a b)
         | |- context [if negb ?a && ?b then _ else _] => destruct (negb a && b)
         end; simpl; repeat split.
Qed.

Lemma transientNormal_reset s t :
  transient s = (t, false, None, None, [], None, None, []) -> transientNormal s.
Proof.
  unfold transient, transientNormal. intros E.
  injection E as -> -> -> -> -> -> -> ->. destruct t; repeat split.
Qed.

Lemma not_ClickTool_dec e : {t | e = ClickTool t} + {forall t, e <> ClickTool t}.
Proof.
  destruct e; try (right; intros t'; discriminate). left. now exists t.
Qed.

Lemma Tool_eq_dec (a b : Tool) : {a = b} + {a <> b}.
Proof. decide equality. Qed.

Lemma transientNormal_step s e : transientNormal s -> transientNormal (step s e).
Proof.
  intros Hs. unfold step.
  destruct (not_ClickTool_dec e) as [[t ->]|Hne].
  - cbn [handle]. destruct (Tool_eq_dec (tool s) t) as [E|E].
    + apply (transientNormal_same s); [|exact Hs].
      rewrite runEffects_same_tool_transient by (simpl; congruence).
      unfold transient. simpl. now rewrite E.
    + apply (transientNormal_reset _ t).
      now destruct (runEffects_new_tool s (set_tool t s) E) as (-> & _).
  - apply (transientNormal_same (handle e s)).
    + apply runEffects_same_tool_transient. now apply handle_keeps_tool.
    + now apply handle_normal.
Qed.

(** X14. Transient interaction state belongs to the active tool.  In
    every state that the events reach from a freshly opened item:
    in-progress polygon vertices exist only under the polygon tool; a
    freehand buffer only during a freehand stroke; a drag origin only
    during a bbox drag; a selection rectangle or its origin only under the
    select tool; a draft shape only during a bbox drag or a freehand
    stroke; and nothing is being drawn under the polygon or the erase
    tool. *)
Theorem transient_state_belongs_to_tool :
  forall (seed : list AnnotationShape) (events : list Event),
    transientOk (run events (initialState seed)).
Proof.
  intros seed events. apply transientNormal_ok.
  assert (H : forall s, transientNormal s -> transientNormal (run events s)).
  { induction events as [|e events IH]; intros s Hs; [exact Hs|].
    rewrite run_cons. apply IH. now apply transientNormal_step. }
  apply H. unfold transientNormal. simpl. repeat split.
Qed.

Lemma set_tool_same s : set_tool (tool s) s = s.
Proof. now destruct s. Qed.

Lemma runEffects_nothing s : runEffects s s = s.
Proof.
  unfold runEffects, colorDepsChanged.
  now rewrite String.eqb_refl, Bool.eqb_reflx, Nat.eqb_refl, Tool_eqb_refl.
Qed.

(** X15. Switching tools: choosing the tool that is already active changes
    nothing, so an interaction in progress survives; choosing another tool
    discards every interaction in progress (drawing flag, drag origin,
    draft shape, polygon vertices, selection rectangle and its origin,
    freehand buffer), keeps the selection only when the new tool is
    select, and leaves the collection, the undo history and the palette
    colour as they are. *)
Theorem tool_switch_resets_transient_state :
  forall (s : EditorState) (t : Tool),
    (t = tool s -> step s (ClickTool t) = s) /\
    (t <> tool s ->
     let s' := step s (ClickTool t) in
     transient s' = (t, false, None, None, [], None, None, []) /\
     selectedIds s' = (if Tool_eqb t Select then selectedIds s else []) /\
     annotations s' = annotations s /\
     undoStackRef s' = undoStackRef s /\
     currentColor s' = currentColor s).
Proof.
  intros s t. split.
  - intros ->. unfold step. cbn [handle].
    rewrite set_tool_same. apply runEffects_nothing.
  - intros Hne s'. unfold s', step. cbn [handle].
    rewrite runEffects_annotations, runEffects_undoStackRef.
    destruct (runEffects_new_tool s (set_tool t s)) as (H1 & H2 & H3).
    { simpl. congruence. }
    rewrite H1, H2, H3. repeat split.
Qed.

End TransientState.

Lemma tool_switch_resets_transient_state_witness :
  step three_vertices (ClickTool Polygon) = three_vertices /\
  transient (step three_vertices (ClickTool Select))
  = (Select, false, None, None, [], None, None, []).
Proof.
  split.
  - apply (proj1 (tool_switch_resets_transient_state three_vertices Polygon)).
    vm_compute. reflexivity.
  - apply (proj2 (tool_switch_resets_transient_state three_vertices Select)).
    vm_compute. discriminate.
Defined.

(** ** Erasing *)

Section Erasing.
Context {engine : Engine}.

Lemma find_skip_prefix {A} (f : A -> bool) (before after : list A) :
  Forall (fun a => f a = false) before -> find f (before ++ after) = find f after.
Proof.
  induction 1 as [|a before Ha _ IH]; simpl; [reflexivity|]. now rewrite Ha.
Qed.

Lemma topmostMatch_found point older shape newer :
  shapeMatches point shape = true ->
  Forall (fun later => shapeMatches point later = false) newer ->
  topmostMatch (older ++ shape :: newer) point = Some (id shape).
Proof.
  intros Hm Hnewer. unfold topmostMatch.
  rewrite rev_app_distr. simpl. rewrite <- app_assoc.
  rewrite find_skip_prefix by now apply Forall_rev.
  simpl. now rewrite Hm.
Qed.

Lemma removeById_unique older shape newer :
  NoDup (map id (older ++ shape :: newer)) ->
  removeById (id shape) (older ++ shape :: newer) = older ++ newer.
Proof.
  intros Hnd. rewrite map_app in Hnd. simpl in Hnd.
  pose proof (NoDup_remove_2 _ _ _ Hnd) as Hnot.
  unfold removeById. rewrite filter_app. simpl.
  rewrite String.eqb_refl. simpl.
  assert (Hkeep : forall l, (forall other, In other l -> id other <> id shape) ->
                            filter (fun other => negb (String.eqb (id other) (id shape))) l
                            = l).
  { induction l as [|a l IH]; intros H; [reflexivity|]. simpl.
    assert (E : String.eqb (id a) (id shape) = false)
      by (apply String.eqb_neq, H; now left).
    rewrite E. simpl. f_equal. apply IH. intros other Hin. apply H. now right. }
  rewrite !Hkeep; [reflexivity| |].
  - intros other Hin E. apply Hnot, in_or_app. right. rewrite <- E. now apply in_map.
  - intros other Hin E. apply Hnot, in_or_app. left. rewrite <- E. now apply in_map.
Qed.

Lemma truthy_nonempty str : truthy str = true <-> str <> EmptyString.
Proof. destruct str; simpl; split; congruence. Qed.

Lemma erase_step s coords shiftKey freshId :
  tool s = Erase ->
  step s (MouseDown coords shiftKey freshId)
  = handleMouseDown coords shiftKey freshId s.
Proof.
  intros Ht. unfold step. cbn [handle].
  assert (H : handleMouseDown coords shiftKey freshId s = s \/
              exists found,
                handleMouseDown coords shiftKey freshId s
                = (s |> pushUndoSnapshot (annotations s)
                     |> set_annotations (removeById found (annotations s))
                     |> set_selectedIds (withoutId found (selectedIds s)))).
  { unfold handleMouseDown. rewrite Ht.
    destruct (findAnnotationAt s coords) as [found|]; [|now left].
    destruct (truthy found); [right; now exists found|now left]. }
  destruct H as [-> | [found ->]]; [apply runEffects_nothing|].
  unfold runEffects, colorDepsChanged, pushUndoSnapshot.
  destruct (_ <? _)%nat; simpl;
    now rewrite String.eqb_refl, Bool.eqb_reflx, Nat.eqb_refl, Tool_eqb_refl.
Qed.

(** X16. The erase tool removes the topmost shape under the pointer.  A
    pointer-down that hits nothing changes nothing and pushes no snapshot.
    When the ids of the collection are distinct and the topmost hit has a
    non-empty id, exactly that shape is removed, the other shapes keep
    their order, the collection as it was is pushed on the history, and
    the id leaves the selection.  A topmost hit whose id is the empty
    string is not erased. *)
Theorem erase_removes_topmost_hit :
  forall (s : EditorState) (coords : AnnotationPoint) (shiftKey : bool)
         (freshId : string),
    tool s = Erase ->
    let s' := step s (MouseDown coords shiftKey freshId) in
    (Forall (fun shape => shapeMatches coords shape = false) (annotations s) ->
     s' = s) /\
    (forall older shape newer,
        annotations s = older ++ shape :: newer ->
        shapeMatches coords shape = true ->
        Forall (fun later => shapeMatches coords later = false) newer ->
        (id shape = EmptyString -> s' = s) /\
        (id shape <> EmptyString ->
         NoDup (map id (annotations s)) ->
         annotations s' = older ++ newer /\
         undoStackRef s' = evictOldest (undoStackRef s ++ [annotations s]) /\
         selectedIds s' = withoutId (id shape) (selectedIds s) /\
         ~ In (id shape) (selectedIds s'))).
Proof.
  intros s coords shiftKey freshId Ht s'. unfold s'.
  rewrite (erase_step _ _ _ _ Ht). unfold handleMouseDown. rewrite Ht.
  rewrite findAnnotationAt_is_topmostMatch. split.
  - intros Hnone. unfold topmostMatch.
    replace (find (shapeMatches coords) (rev (annotations s))) with (@None AnnotationShape);
      [reflexivity|].
    symmetry. rewrite <- (app_nil_r (rev (annotations s))).
    rewrite find_skip_prefix by now apply Forall_rev. reflexivity.
  - intros older shape newer Hs Hm Hnewer.
    assert (Hfound : topmostMatch (annotations s) coords = Some (id shape)).
    { rewrite Hs. now apply topmostMatch_found. }
    rewrite Hfound. split.
    + intros E. now rewrite E.
    + intros Hne Hnd. apply truthy_nonempty in Hne. rewrite Hne. simpl.
      rewrite pushUndoSnapshot_stack.
      assert (Hrm : removeById (id shape) (annotations s) = older ++ newer).
      { rewrite Hs in *. now apply removeById_unique. }
      rewrite Hrm.
      repeat split. intros Hin. apply withoutId_In in Hin. now destruct Hin.
Qed.

End Erasing.

Lemma erase_removes_topmost_hit_witness :
  step erase_demo (MouseDown (mkPoint 50 50) false "e") = erase_demo /\
  annotations (step erase_demo (MouseDown (mkPoint 5 3) false "e")) = [sample_box].
Proof.
  destruct (erase_removes_topmost_hit erase_demo (mkPoint 50 50) false "e"%string
              eq_refl) as [Hmiss _].
  destruct (erase_removes_topmost_hit erase_demo (mkPoint 5 3) false "e"%string
              eq_refl) as [_ Hhit].
  split.
  - apply Hmiss. repeat constructor.
  - destruct (Hhit [sample_box] sample_polygon []) as [_ H];
      [reflexivity|vm_compute; reflexivity|constructor|].
    apply H.
    + discriminate.
    + simpl. repeat constructor; simpl; intuition discriminate.
Defined.

(** ** Undoing polygon vertices *)

Section PolygonUndo.
Context {engine : Engine}.

(** X17. While a polygon is in progress the undo key is local to it: it
    removes the last placed vertex, as the polygon's own undo button does,
    and touches neither the collection nor the history, however many
    snapshots the history holds.  So a vertex placed by a pointer-down that
    does not close the polygon, followed by the undo key, leaves the
    in-progress vertices, the collection and the history as they were. *)
Theorem polygon_undo_is_local :
  forall s : EditorState,
    tool s = Polygon ->
    (polygonPoints s <> [] ->
     step s KeyUndo = step s ClickUndoPolygonPoint /\
     polygonPoints (step s KeyUndo) = removelast (polygonPoints s) /\
     annotations (step s KeyUndo) = annotations s /\
     undoStackRef (step s KeyUndo) = undoStackRef s) /\
    (forall coords shiftKey freshId,
        ~ closesPolygon (polygonPoints s) coords ->
        let s' := step (step s (MouseDown coords shiftKey freshId)) KeyUndo in
        polygonPoints s' = polygonPoints s /\
        annotations s' = annotations s /\
        undoStackRef s' = undoStackRef s).
Proof.
  intros s Ht.
  assert (Hlocal : forall s0, tool s0 = Polygon -> polygonPoints s0 <> [] ->
                     step s0 KeyUndo = step s0 ClickUndoPolygonPoint /\
                     polygonPoints (step s0 KeyUndo) = removelast (polygonPoints s0) /\
                     annotations (step s0 KeyUndo) = annotations s0 /\
                     undoStackRef (step s0 KeyUndo) = undoStackRef s0).
  { intros s0 Ht0 Hp0.
    assert (E : handle KeyUndo s0 = handle ClickUndoPolygonPoint s0).
    { cbn [handle]. unfold handleUndoKey, handleUndoPolygonPoint. rewrite Ht0.
      destruct (polygonPoints s0); [contradiction|reflexivity]. }
    unfold step. rewrite E, runEffects_annotations, runEffects_undoStackRef.
    destruct (runEffects_same_tool_fields s0 (handle ClickUndoPolygonPoint s0))
      as (-> & _); [reflexivity|].
    now repeat split. }
  split; [now apply Hlocal|].
  intros coords shiftKey freshId Hc s'. unfold s'.
  set (s1 := step s (MouseDown coords shiftKey freshId)).
  assert (H1 : tool s1 = Polygon /\ polygonPoints s1 = polygonPoints s ++ [coords]
               /\ annotations s1 = annotations s /\ undoStackRef s1 = undoStackRef s).
  { unfold s1, step. rewrite runEffects_annotations, runEffects_undoStackRef.
    pose proof (handleMouseDown_polygon_tool coords shiftKey freshId s Ht) as Htool.
    destruct (runEffects_same_tool_fields s (handle (MouseDown coords shiftKey freshId) s))
      as (-> & _ & _ & _ & _ & -> & _); [cbn [handle]; congruence|].
    cbn [handle]. rewrite handleMouseDown_polygon_appends by assumption.
    destruct (_ =? _)%nat; now repeat split. }
  destruct H1 as (Ht1 & Hp1 & Ha1 & Hu1).
  destruct (Hlocal s1 Ht1) as (_ & Hp2 & Ha2 & Hu2).
  { rewrite Hp1. now destruct (polygonPoints s). }
  rewrite Hp2, Ha2, Hu2, Hp1, Ha1, Hu1, removelast_last. now repeat split.
Qed.

End PolygonUndo.

Lemma polygon_undo_is_local_witness :
  polygonPoints (step three_vertices KeyUndo)
  = removelast (polygonPoints three_vertices) /\
  polygonPoints (step (step three_vertices (MouseDown (mkPoint 40 40) false "q"))
                   KeyUndo)
  = polygonPoints three_vertices.
Proof.
  destruct (polygon_undo_is_local three_vertices eq_refl) as [H1 H2]. split.
  - apply H1. vm_compute. discriminate.
  - apply (H2 (mkPoint 40 40) false "q"%string).
    intros (_ & first & Hf & Hd). vm_compute in Hf. injection Hf as <-.
    vm_compute in Hd. discriminate.
Defined.

(** * Further properties of the editor *)

(** ** Polylines *)

Lemma consecutive_cons {A} (a b c : A) (l : list A) :
  consecutive a b l -> consecutive a b (c :: l).
Proof. intros (before & after & ->). now exists (c :: before), after. Qed.

Lemma consecutive_inv {A} (a b c : A) (l : list A) :
  consecutive a b (c :: l) ->
  (a = c /\ exists after, l = b :: after) \/ consecutive a b l.
Proof.
  intros (before & after & H). destruct before as [|c' before]; simpl in H.
  - injection H as -> ->. left. split; [reflexivity|now exists after].
  - injection H as -> ->. right. now exists before, after.
Qed.

Section Polylines.
Context {engine : Engine}.

Lemma isPointNearPolyline_iff p tol polyline :
  isPointNearPolyline p polyline tol = true
  <-> exists a b, consecutive a b polyline
                  /\ num_le (distancePointToSegment p a b) tol = true.
Proof.
  induction polyline as [|start rest IH].
  - simpl. split; [discriminate|].
    intros (a & b & (before & after & H) & _). now destruct before.
  - destruct rest as [|stop rest].
    + simpl. split; [discriminate|].
      intros (a & b & (before & after & H) & _).
      destruct before as [|c [|c' before]]; discriminate.
    + change (isPointNearPolyline p (start :: stop :: rest) tol)
        with (if num_le (distancePointToSegment p start stop) tol then true
              else isPointNearPolyline p (stop :: rest) tol).
      destruct (num_le (distancePointToSegment p start stop) tol) eqn:Ed.
      * split; [|reflexivity]. intros _.
        exists start, stop. split; [now exists [], rest|exact Ed].
      * rewrite IH. split.
        -- intros (a & b & Hc & H).
           exists a, b. split; [now apply consecutive_cons|exact H].
        -- intros (a & b & Hc & Hd).
           apply consecutive_inv in Hc as [[-> [after Hafter]]|Hc].
           ++ injection Hafter as <- _. congruence.
           ++ now exists a, b.
Qed.

(** X5. [isPointNearPolyline] holds exactly when, for one of the segments
    between consecutive points of the polyline, the distance that
    [distancePointToSegment] returns is at most the tolerance ([<=] on
    doubles).  So a polyline of fewer than two points is near nothing, a
    tolerance that is NaN matches nothing, and a larger tolerance keeps
    every hit. *)
Theorem isPointNearPolyline_within_tolerance :
  forall (p : AnnotationPoint) (polyline : list AnnotationPoint) (tol : float),
    (isPointNearPolyline p polyline tol = true
     <-> exists a b, consecutive a b polyline
                     /\ num_le (distancePointToSegment p a b) tol = true) /\
    ((length polyline < 2)%nat -> isPointNearPolyline p polyline tol = false) /\
    (is_nan tol = true -> isPointNearPolyline p polyline tol = false) /\
    (forall tol', num_le tol tol' = true ->
                  isPointNearPolyline p polyline tol = true ->
                  isPointNearPolyline p polyline tol' = true).
Proof.
  intros p polyline tol. split; [apply isPointNearPolyline_iff|].
  split; [|split].
  - intros Hlen. destruct polyline as [|a [|b l]]; simpl in *; try reflexivity; lia.
  - intros Hnan. destruct (isPointNearPolyline p polyline tol) eqn:Hn; [|reflexivity].
    apply isPointNearPolyline_iff in Hn as (a & b & _ & Hd).
    unfold num_le in Hd. apply leb_true in Hd as (_ & Hnum & _).
    unfold isNumber in Hnum. congruence.
  - intros tol' Hle H. apply isPointNearPolyline_iff in H as (a & b & Hc & Hd).
    apply isPointNearPolyline_iff. exists a, b. split; [exact Hc|].
    unfold num_le in *. now apply (leb_trans _ tol).
Qed.

End Polylines.

(** On the reference engine the point (12,11) is at [sqrt 5] from the
    second segment of the zigzag. *)
Lemma isPointNearPolyline_within_tolerance_witness :
  isPointNearPolyline (mkPoint 12 11) [mkPoint 12 11] 8 = false /\
  isPointNearPolyline (mkPoint 12 11) zigzag nan = false /\
  isPointNearPolyline (mkPoint 12 11) zigzag 8 = true.
Proof.
  split; [|split].
  - apply (proj1 (proj2 (isPointNearPolyline_within_tolerance
                           (mkPoint 12 11) [mkPoint 12 11] 8))).
    simpl. lia.
  - apply (proj1 (proj2 (proj2 (isPointNearPolyline_within_tolerance
                                  (mkPoint 12 11) zigzag nan)))).
    reflexivity.
  - apply (proj2 (proj2 (proj2 (isPointNearPolyline_within_tolerance
                                  (mkPoint 12 11) zigzag 3))) 8).
    + reflexivity.
    + vm_compute. reflexivity.
Defined.

(** ** The closing vertex of a polygon *)

Lemma last_default_irrelevant {A} (a d d' : A) (l : list A) :
  last (a :: l) d = last (a :: l) d'.
Proof.
  revert a. induction l as [|b l IH]; intros a; [reflexivity|].
  change (last (a :: b :: l) d) with (last (b :: l) d).
  change (last (a :: b :: l) d') with (last (b :: l) d').
  apply IH.
Qed.

(** The edges of a path that returns to its first point [c]. *)
Lemma edges_of_closed_path (h c : AnnotationPoint) (rest : list AnnotationPoint) :
  combine (rest ++ [c]) (h :: rest ++ [c])
  = combine rest (h :: rest) ++ [(c, last (h :: rest) h)].
Proof.
  revert h. induction rest as [|r rest IH]; intros h; [reflexivity|].
  cbn [app combine]. rewrite IH. cbn [app]. do 2 f_equal.
  change (last (h :: r :: rest) h) with (last (r :: rest) h).
  now rewrite (last_default_irrelevant r r h).
Qed.

Lemma crossesRay_point (p v : AnnotationPoint) : crossesRay p (v, v) = false.
Proof. unfold crossesRay. now rewrite xorb_nilpotent. Qed.

Lemma last_app_single {A} (a d : A) (l : list A) : last (l ++ [a]) d = a.
Proof. apply last_last. Qed.

Lemma isPointInPolygon_closed (p v0 : AnnotationPoint) (rest : list AnnotationPoint) :
  isPointInPolygon p (v0 :: rest ++ [v0]) = isPointInPolygon p (v0 :: rest).
Proof.
  rewrite !isPointInPolygon_rayCast. unfold rayCast, polygonEdges.
  change (v0 :: rest ++ [v0]) with ((v0 :: rest) ++ [v0]) at 2.
  rewrite last_app_single.
  cbn [combine filter]. rewrite crossesRay_point, edges_of_closed_path.
  rewrite filter_app, length_app. cbn [filter].
  destruct (crossesRay p (v0, last (v0 :: rest) v0)); cbn [length].
  - rewrite Nat.add_1_r. reflexivity.
  - rewrite Nat.add_0_r. reflexivity.
Qed.

Section ClosingVertex.
Context {engine : Engine}.

(** X6. The closing vertex does not count: a polygon whose first vertex
    is repeated at its end contains the same points as without the
    repeat, so a path that [ensureClosed] closed by appending its first
    point is hit where the open path is. *)
Theorem isPointInPolygon_closing_vertex :
  (forall (p v0 : AnnotationPoint) (rest : list AnnotationPoint),
      isPointInPolygon p (v0 :: rest ++ [v0]) = isPointInPolygon p (v0 :: rest)) /\
  (forall (p : AnnotationPoint) (pts : list AnnotationPoint) (thr : float),
      length (ensureClosed pts thr) = S (length pts) ->
      isPointInPolygon p (ensureClosed pts thr) = isPointInPolygon p pts).
Proof.
  split; [apply isPointInPolygon_closed|].
  intros p pts thr Hlen.
  destruct pts as [|first [|q rest]];
    try (rewrite ensureClosed_short in Hlen by (simpl; lia); simpl in Hlen; lia).
  revert Hlen. rewrite ensureClosed_unfold by (simpl; lia). cbv zeta.
  destruct (num_eq _ _); [simpl; lia|].
  destruct (num_le _ _).
  - rewrite length_app, length_removelast. simpl. lia.
  - intros _. apply (isPointInPolygon_closed p first (q :: rest)).
Qed.

End ClosingVertex.

Lemma isPointInPolygon_closing_vertex_witness :
  isPointInPolygon (mkPoint 8 3) (ensureClosed triangle_path 14)
  = isPointInPolygon (mkPoint 8 3) triangle_path.
Proof.
  apply (proj2 isPointInPolygon_closing_vertex). vm_compute. reflexivity.
Defined.

(** ** Polygons of fewer than three vertices *)

Section Degenerate.
Context {engine : Engine}.

(** X7. A polygon of fewer than two vertices contains no point.  A polygon
    of two vertices has one edge, which the loop tests once in each
    direction; the two quotients are rounded separately and the tests can
    disagree, so that the "polygon" from (1,3) to (0,0) contains the
    point (0.3333333333333333, 1).  The hit test does not get there: it
    consults the ray cast for three or more points only, so a shape of
    fewer than three points that is neither a bbox nor freehand is never
    hit. *)
Theorem isPointInPolygon_degenerate :
  (forall (p : AnnotationPoint) (polygon : list AnnotationPoint),
      (length polygon < 2)%nat -> isPointInPolygon p polygon = false) /\
  (forall p a b : AnnotationPoint,
      isPointInPolygon p [a; b] = xorb (crossesRay p (a, b)) (crossesRay p (b, a))) /\
  isPointInPolygon (mkPoint 0.3333333333333333 1) [mkPoint 1 3; mkPoint 0 0] = true /\
  (forall (p : AnnotationPoint) (shape : AnnotationShape) (pts : list AnnotationPoint),
      bbox shape = None -> points shape = Some pts -> (length pts < 3)%nat ->
      type shape <> freehand_t ->
      shapeHit p shape = false).
Proof.
  split; [|split; [|split]].
  - intros p [|a [|b l]] Hlen; simpl in Hlen; try lia; [reflexivity|].
    rewrite isPointInPolygon_rayCast. unfold rayCast. cbn [polygonEdges last combine filter].
    now rewrite crossesRay_point.
  - intros p a b. rewrite isPointInPolygon_rayCast. unfold rayCast.
    cbn [polygonEdges last combine filter].
    now destruct (crossesRay p (a, b)), (crossesRay p (b, a)).
  - vm_compute. reflexivity.
  - intros p shape pts Hb Hp Hlen Ht. unfold shapeHit. rewrite Hb, Hp.
    replace (3 <=? length pts)%nat with false
      by (symmetry; apply Nat.leb_gt; exact Hlen).
    destruct (type shape); try reflexivity. contradiction.
Qed.

End Degenerate.

Lemma isPointInPolygon_degenerate_witness :
  isPointInPolygon (mkPoint 5 5) [mkPoint 0 0] = false /\
  shapeHit (mkPoint 0.3333333333333333 1) two_point_polygon = false.
Proof.
  split.
  - apply (proj1 isPointInPolygon_degenerate). simpl. lia.
  - apply (proj2 (proj2 (proj2 isPointInPolygon_degenerate))
             (mkPoint 0.3333333333333333 1) two_point_polygon
             [mkPoint 1 3; mkPoint 0 0]);
      try reflexivity; [simpl; lia|discriminate].
Defined.

(** ** Rectangles as polygons *)

(** The quotient of the ray-casting test on a vertical edge at [xv]: the
    difference [xv - xv] is zero, and zero it stays through the product,
    the quotient and the sum. *)
Lemma vertical_edge_abscissa (xv py ya yb : float) :
  is_finite xv = true -> is_finite (py - ya) = true ->
  isNumber (yb - ya) -> num_eq (yb - ya) 0 = false ->
  num_eq ((xv - xv) * (py - ya) / (yb - ya) + xv) xv = true.
Proof.
  intros Hx Hp Hn Hz. unfold num_eq in *. rewrite (sub_diag xv Hx).
  apply add_zero_l; [|now apply is_finite_number].
  apply div_zero_l; [|assumption|assumption].
  now apply mul_zero_l.
Qed.

Lemma edgeIntersect_vertical p xv ya yb :
  is_finite xv = true -> is_finite (y p - ya) = true ->
  isNumber ya -> isNumber yb ->
  edgeIntersect p (mkPoint xv ya) (mkPoint xv yb)
  = negb (Bool.eqb (num_gt ya (y p)) (num_gt yb (y p))) && num_lt (x p) xv.
Proof.
  intros Hx Hp Ha Hb. unfold edgeIntersect. cbv zeta. cbn [x y].
  destruct (negb (Bool.eqb _ _)) eqn:Es; [|reflexivity].
  cbn [andb]. unfold num_lt. apply ltb_compat_r.
  pose proof (straddle_denominator _ _ _ Es) as Hz.
  apply vertical_edge_abscissa; try assumption.
  apply sub_number; try assumption.
  destruct (yb =? ya) eqn:Ey; [|reflexivity].
  unfold num_gt, num_lt in Es.
  rewrite (ltb_compat_r yb ya (y p) Ey), Bool.eqb_reflx in Es. discriminate.
Qed.

Lemma edgeIntersect_horizontal p xa xb yh :
  edgeIntersect p (mkPoint xa yh) (mkPoint xb yh) = false.
Proof.
  unfold edgeIntersect. cbv zeta. simpl. now rewrite Bool.eqb_reflx.
Qed.

(** Between two bounds: below the upper one and not below the lower one. *)
Lemma between_bounds (a b c : float) :
  (a <? b) = true -> xorb (c <? a) (c <? b) = (a <=? c) && (c <? b).
Proof.
  intros H.
  destruct (c <? a) eqn:E1, (c <? b) eqn:E2, (a <=? c) eqn:E3;
    try reflexivity; exfalso; float_order.
Qed.

(** The ray cast on a rectangle of finite corners. *)
Lemma rectangle_half_open (x0 y0 x1 y1 : float) (p : AnnotationPoint) :
  num_lt x0 x1 = true -> num_lt y0 y1 = true ->
  is_finite x0 = true -> is_finite x1 = true ->
  is_finite (y p - y0) = true -> is_finite (y p - y1) = true ->
  isPointInPolygon p (rectanglePolygon x0 y0 x1 y1)
  = num_le x0 (x p) && num_lt (x p) x1 && num_le y0 (y p) && num_lt (y p) y1.
Proof.
  intros Hx Hy Hf0 Hf1 Hd0 Hd1.
  assert (Hn0 : isNumber y0) by (unfold num_lt in Hy; apply ltb_true in Hy; tauto).
  assert (Hn1 : isNumber y1) by (unfold num_lt in Hy; apply ltb_true in Hy; tauto).
  unfold rectanglePolygon, isPointInPolygon. cbn [last pip_loop].
  rewrite !edgeIntersect_vertical, !edgeIntersect_horizontal by assumption.
  unfold num_gt, num_lt, num_le in *.
  rewrite <- (between_bounds x0 x1 (x p) Hx), <- andb_assoc.
  rewrite <- (between_bounds y0 y1 (y p) Hy).
  destruct (y p <? y0), (y p <? y1), (x p <? x0), (x p <? x1); reflexivity.
Qed.

(** X8. On an axis-aligned rectangle of finite corners the ray-casting
    test is half-open: a point whose differences [py - y0] and [py - y1]
    are finite (they are unless they overflow) is inside exactly when
    [x0 <= px < x1] and [y0 <= py < y1], so the left and the upper edge
    belong to the rectangle and the right and the lower edge do not.
    Finiteness is needed: on the rectangle from (0,0) to (Infinity,10)
    the abscissa of the right edge is computed as NaN, and the point
    (5,5), which is within the four bounds, is not inside. *)
Theorem isPointInPolygon_rectangle :
  (forall (x0 y0 x1 y1 : float) (p : AnnotationPoint),
      num_lt x0 x1 = true -> num_lt y0 y1 = true ->
      is_finite x0 = true -> is_finite x1 = true ->
      is_finite (y p - y0) = true -> is_finite (y p - y1) = true ->
      isPointInPolygon p (rectanglePolygon x0 y0 x1 y1)
      = num_le x0 (x p) && num_lt (x p) x1 && num_le y0 (y p) && num_lt (y p) y1) /\
  (isPointInPolygon (mkPoint 5 5) (rectanglePolygon 0 0 infinity 10) = false /\
   num_le 0 5 && num_lt 5 infinity && num_le 0 5 && num_lt 5 10 = true).
Proof.
  split; [exact rectangle_half_open|]. split; vm_compute; reflexivity.
Qed.

Lemma isPointInPolygon_rectangle_witness :
  isPointInPolygon (mkPoint 0 5) (rectanglePolygon 0 0 10 10) = true /\
  isPointInPolygon (mkPoint 10 5) (rectanglePolygon 0 0 10 10) = false /\
  isPointInPolygon (mkPoint 0.1 0.2) (rectanglePolygon 0.1 0.2 0.3 0.7) = true.
Proof.
  split; [|split].
  - rewrite (proj1 isPointInPolygon_rectangle 0 0 10 10 (mkPoint 0 5)); reflexivity.
  - rewrite (proj1 isPointInPolygon_rectangle 0 0 10 10 (mkPoint 10 5)); reflexivity.
  - rewrite (proj1 isPointInPolygon_rectangle 0.1 0.2 0.3 0.7 (mkPoint 0.1 0.2));
      reflexivity.
Defined.

(** ** Closing a closed path *)

Section ClosingTwice.
Context {engine : Engine}.

(** A path of finite coordinates that ends with its first point is left
    as it is, on an engine whose [Math.hypot(0, 0)] is zero. *)
Lemma ensureClosed_fixed first middle thr :
  is_finite (x first) = true -> is_finite (y first) = true ->
  num_eq (Math_hypot 0 0) 0 = true ->
  ensureClosed (first :: middle ++ [first]) thr = first :: middle ++ [first].
Proof.
  intros Hx Hy Hh.
  assert (Hlast : last (first :: middle ++ [first]) first = first).
  { change (first :: middle ++ [first]) with ((first :: middle) ++ [first]).
    apply last_last. }
  destruct (middle ++ [first]) as [|p rest] eqn:Em; [now destruct middle|].
  apply (ensureClosed_cases first p rest thr). cbv zeta.
  rewrite Hlast. unfold distanceBetween. now rewrite !sub_diag.
Qed.

Lemma ensureClosed_again (pts : list AnnotationPoint) (thr : float) :
  firstn (length pts - 1) (ensureClosed pts thr) = removelast pts /\
  (num_eq (Math_hypot 0 0) 0 = true ->
   (forall first, hd_error pts = Some first ->
                  is_finite (x first) = true /\ is_finite (y first) = true) ->
   ensureClosed (ensureClosed pts thr) thr = ensureClosed pts thr).
Proof.
  destruct pts as [|first [|p rest]].
  - now split.
  - now split.
  - rewrite (ensureClosed_unfold first (p :: rest) thr) by (simpl; lia). cbv zeta.
    set (pts := first :: p :: rest).
    assert (Hpre : firstn (length pts - 1) pts = removelast pts).
    { rewrite <- length_removelast.
      rewrite (app_removelast_last first (l := pts)) at 2 by discriminate.
      now rewrite firstn_app, Nat.sub_diag, firstn_all, app_nil_r. }
    destruct (num_eq _ _) eqn:Ez; [|destruct (num_le _ _)].
    + split; [exact Hpre|]. intros _ _.
      now apply (ensureClosed_cases first p rest thr).
    + split.
      * rewrite <- length_removelast, firstn_app, Nat.sub_diag, firstn_all.
        cbn [firstn]. apply app_nil_r.
      * intros Hh Hfin. destruct (Hfin first eq_refl) as [Hx Hy].
        unfold pts. rewrite removelast_cons_hd. now apply ensureClosed_fixed.
    + split.
      * rewrite firstn_app.
        replace (length pts - 1 - length pts)%nat with 0%nat by lia.
        rewrite Hpre. cbn [firstn]. apply app_nil_r.
      * intros Hh Hfin. destruct (Hfin first eq_refl) as [Hx Hy].
        unfold pts. change ((first :: p :: rest) ++ [first])
          with (first :: (p :: rest) ++ [first]). now apply ensureClosed_fixed.
Qed.

(** A distance that is NaN is neither zero nor within a threshold. *)
Lemma nan_distance (d thr : float) :
  is_nan d = true -> num_eq d 0 = false /\ num_le d thr = false.
Proof.
  intros Hd. unfold num_eq, num_le. split.
  - destruct (d =? 0) eqn:E; [|reflexivity].
    apply eqb_true in E. unfold isNumber in E. destruct E as (E & _). congruence.
  - destruct (d <=? thr) eqn:E; [|reflexivity].
    apply leb_true in E. unfold isNumber in E. destruct E as (E & _). congruence.
Qed.

(** X9. [ensureClosed] only touches the end of the path: the result
    always starts with every point of the input but the last one, in
    order.  It is idempotent on the paths the tools produce: when the
    first point has finite coordinates, on an engine whose
    [Math.hypot(0, 0)] is zero (as ECMAScript requires), closing a path
    that [ensureClosed] returned changes nothing.  Finiteness is needed:
    a path that starts and ends at a point at infinity has NaN for the
    distance between its ends (on an engine whose [Math.hypot(NaN, 0)]
    is NaN, as ECMAScript requires) and gains a closing vertex every
    time. *)
Theorem ensureClosed_idempotent :
  (forall (pts : list AnnotationPoint) (thr : float),
      firstn (length pts - 1) (ensureClosed pts thr) = removelast pts /\
      (num_eq (Math_hypot 0 0) 0 = true ->
       (forall first, hd_error pts = Some first ->
                      is_finite (x first) = true /\ is_finite (y first) = true) ->
       ensureClosed (ensureClosed pts thr) thr = ensureClosed pts thr)) /\
  (forall thr : float,
      is_nan (Math_hypot nan 0) = true ->
      length (ensureClosed unbounded_path thr) = 3%nat /\
      length (ensureClosed (ensureClosed unbounded_path thr) thr) = 4%nat).
Proof.
  split; [exact ensureClosed_again|].
  intros thr Hnan. destruct (nan_distance _ thr Hnan) as [Hz Hle].
  unfold num_eq, num_le in Hz, Hle.
  unfold unbounded_path, ensureClosed, num_eq, num_le.
  cbn [length Nat.ltb Nat.leb last x y app].
  change (infinity - infinity) with nan. change (0 - 0) with 0.
  rewrite Hz, Hle. cbn [length Nat.ltb Nat.leb last x y app].
  change (infinity - infinity) with nan. change (0 - 0) with 0.
  rewrite Hz, Hle. split; reflexivity.
Qed.

End ClosingTwice.

Lemma ensureClosed_idempotent_witness :
  ensureClosed (ensureClosed triangle_path 14) 14 = ensureClosed triangle_path 14 /\
  ensureClosed (ensureClosed boundary_path 14) 14 = ensureClosed boundary_path 14.
Proof.
  split.
  - apply (proj2 (proj1 ensureClosed_idempotent triangle_path 14)); [reflexivity|].
    intros first Hf. injection Hf as <-. split; reflexivity.
  - apply (proj2 (proj1 ensureClosed_idempotent boundary_path 14)); [reflexivity|].
    intros first Hf. injection Hf as <-. split; reflexivity.
Defined.

(** ** Freehand sampling *)

Section Sampling.
Context {engine : Engine}.

Lemma spaced_nil : spaced [].
Proof. intros a b (before & after & H). now destruct before. Qed.

Lemma spaced_single p : spaced [p].
Proof.
  intros a b (before & after & H). destruct before as [|c [|d before]]; discriminate.
Qed.

Lemma consecutive_snoc {A} (a b c : A) (l : list A) :
  consecutive a b (l ++ [c]) ->
  consecutive a b l \/ (b = c /\ lastElement l = Some a).
Proof.
  intros (before & after & H).
  destruct after as [|d after] using rev_ind.
  - right. change (before ++ [a; b]) with (before ++ [a] ++ [b]) in H.
    rewrite app_assoc in H. apply app_inj_tail in H as [-> ->].
    split; [reflexivity|apply lastElement_app].
  - left. clear IHafter.
    change (before ++ a :: b :: after ++ [d])
      with (before ++ (a :: b :: after) ++ [d]) in H.
    rewrite app_assoc in H. apply app_inj_tail in H as [-> _].
    now exists before, after.
Qed.

Lemma appendFreehandPoint_spaced point s :
  spaced (freehandPointsRef s) ->
  spaced (freehandPointsRef (appendFreehandPoint point false s)).
Proof.
  intros Hs. unfold appendFreehandPoint.
  destruct (lastElement (freehandPointsRef s)) as [lastp|] eqn:El.
  - cbn [orb]. destruct (num_ge _ _) eqn:Eg; [|exact Hs].
    simpl. intros a b Hc. apply consecutive_snoc in Hc as [Hc|[-> Ha]].
    + now apply Hs.
    + rewrite El in Ha. injection Ha as <-. exact Eg.
  - simpl. destruct (freehandPointsRef s); [apply spaced_single|discriminate].
Qed.

Lemma pushUndoSnapshot_freehand snapshot s :
  freehandPointsRef (pushUndoSnapshot snapshot s) = freehandPointsRef s.
Proof. unfold pushUndoSnapshot. now destruct (_ <? _)%nat. Qed.

Lemma finalizePolygon_freehand pts freshId s :
  freehandPointsRef (finalizePolygon pts freshId s) = freehandPointsRef s.
Proof.
  unfold finalizePolygon, commitShape. destruct (_ <? _)%nat; [reflexivity|].
  simpl. apply pushUndoSnapshot_freehand.
Qed.

Lemma finalizeFreehand_freehand freshId s :
  freehandPointsRef (finalizeFreehand freshId s) = [].
Proof. unfold finalizeFreehand. now destruct (_ <? _)%nat. Qed.

Lemma finalizeBoundingBox_freehand coords freshId s :
  freehandPointsRef (finalizeBoundingBox coords freshId s) = freehandPointsRef s.
Proof.
  unfold finalizeBoundingBox, commitShape.
  destruct (startPos s); [|reflexivity]. destruct (_ || _); [reflexivity|].
  simpl. apply pushUndoSnapshot_freehand.
Qed.

Lemma selectOnMouseUp_freehand coords shiftKey s :
  freehandPointsRef (selectOnMouseUp coords shiftKey s) = freehandPointsRef s.
Proof.
  unfold selectOnMouseUp.
  repeat match goal with
         | |- context [match ?c with _ => _ end] => destruct c
         end; reflexivity.
Qed.

Lemma handleMouseUp_spaced coords shiftKey freshId s :
  spaced (freehandPointsRef s) ->
  spaced (freehandPointsRef (handleMouseUp coords shiftKey freshId s)).
Proof.
  intros Hs. unfold handleMouseUp. destruct (tool s); try exact Hs.
  - destruct (negb _); [exact Hs|]. simpl.
    now rewrite finalizeBoundingBox_freehand.
  - destruct (negb _); [exact Hs|].
    rewrite finalizeFreehand_freehand. apply spaced_nil.
  - now rewrite selectOnMouseUp_freehand.
Qed.

Lemma handle_spaced e s :
  spaced (freehandPointsRef s) -> spaced (freehandPointsRef (handle e s)).
Proof.
  intros Hs. destruct e; cbn [handle]; try exact Hs.
  - unfold handleMouseDown. destruct (tool s).
    + exact Hs.
    + destruct (_ && _).
      * rewrite finalizePolygon_freehand. now destruct (_ =? _)%nat.
      * now destruct (_ =? _)%nat.
    + rewrite appendFreehandPoint_forced. apply spaced_single.
    + now destruct (negb shiftKey).
    + destruct (findAnnotationAt s coords) as [found|]; [|exact Hs].
      destruct (truthy found); [|exact Hs].
      simpl. now rewrite pushUndoSnapshot_freehand.
  - unfold handleMouseMove.
    destruct (tool s), (selectionStartRef s), (negb (isDrawing s)), (startPos s);
      try exact Hs; now apply appendFreehandPoint_spaced.
  - now apply handleMouseUp_spaced.
  - unfold handleMouseLeave.
    destruct (tool s), (selectionStartRef s), (negb (isDrawing s));
      try exact Hs;
      try (now apply handleMouseUp_spaced);
      rewrite finalizeFreehand_freehand; apply spaced_nil.
  - unfold handleFinishPolygon. now rewrite finalizePolygon_freehand.
  - unfold handleDeleteSelected. destruct (_ =? _)%nat; [exact Hs|].
    simpl. now rewrite pushUndoSnapshot_freehand.
  - unfold handleUndoKey, undoLastAnnotationChange.
    destruct (_ && _); [exact Hs|]. now destruct (rev _).
Qed.

Lemma runEffects_freehand prev s :
  freehandPointsRef (runEffects prev s) = freehandPointsRef s
  \/ freehandPointsRef (runEffects prev s) = [].
Proof.
  unfold runEffects, toolEffect, colorEffect.
  repeat match goal with
         | |- context [if ?c then _ else _] => destruct c
         end; simpl; auto.
Qed.

Lemma step_spaced s e :
  spaced (freehandPointsRef s) -> spaced (freehandPointsRef (step s e)).
Proof.
  intros Hs. unfold step.
  destruct (runEffects_freehand s (handle e s)) as [-> | ->];
    [now apply handle_spaced|apply spaced_nil].
Qed.

(** X18. Freehand sampling is distance gated: in every state that the
    events reach from a freshly opened item, any two consecutive points of
    the freehand buffer passed the distance test of [appendFreehandPoint]: the
    distance that the code measures from the earlier to the later one,
    [Math.hypot(b.x - a.x, b.y - a.y)], is at least 2 ([>=] on doubles),
    however densely the pointer-move events arrive. *)
Theorem freehand_buffer_is_spaced :
  forall (seed : list AnnotationShape) (events : list Event)
         (a b : AnnotationPoint),
    consecutive a b (freehandPointsRef (run events (initialState seed))) ->
    num_ge (Math_hypot (x b - x a) (y b - y a)) 2 = true.
Proof.
  intros seed events.
  assert (H : forall s, spaced (freehandPointsRef s) ->
                        spaced (freehandPointsRef (run events s))).
  { induction events as [|e events IH]; intros s Hs; [exact Hs|].
    rewrite run_cons. apply IH. now apply step_spaced. }
  apply H. apply spaced_nil.
Qed.

End Sampling.

(** On the reference engine: of five densely sampled points two are kept;
    and a point whose distance to the previous one rounds to 2 is kept. *)
Lemma freehand_buffer_is_spaced_witness :
  freehandPointsRef (run slow_stroke (initialState []))
  = [mkPoint 0 0; mkPoint 3 0] /\
  num_ge (Math_hypot (3 - 0) (0 - 0)) 2 = true /\
  freehandPointsRef (run boundary_stroke (initialState []))
  = [mkPoint 0 0; mkPoint 2 0; mkPoint 3.414213562373095 1.4142135623730951] /\
  num_ge (Math_hypot (3.414213562373095 - 2) (1.4142135623730951 - 0)) 2 = true.
Proof.
  split; [vm_compute; reflexivity|].
  split.
  { apply (freehand_buffer_is_spaced [] slow_stroke (mkPoint 0 0) (mkPoint 3 0)).
    exists [], []. vm_compute. reflexivity. }
  split; [vm_compute; reflexivity|].
  apply (freehand_buffer_is_spaced [] boundary_stroke (mkPoint 2 0)
           (mkPoint 3.414213562373095 1.4142135623730951)).
  exists [mkPoint 0 0], []. vm_compute. reflexivity.
Defined.

(** ** Selection rectangles *)

Lemma normalizeRect_sym (a b : AnnotationPoint) :
  normalizeRect a b = normalizeRect b a.
Proof.
  unfold normalizeRect, Math_abs.
  now rewrite (Math_min_comm (x a)), (Math_min_comm (y a)),
    (abs_sub_sym (x b)), (abs_sub_sym (y b)).
Qed.

(** X2. The rectangle of a drag does not depend on the direction of
    the drag; its sizes are never negative, and are at least zero
    unless a difference of coordinates is NaN; on numbers its corner is
    a coordinate of one end and is not beyond either end.  The far
    corner [x + width] is a rounded sum and can fall short of the far
    end: from 325.3 to 871.6 it is the double just below 871.6. *)
Theorem normalizeRect_normalizes :
  forall a b : AnnotationPoint,
    let r := normalizeRect a b in
    normalizeRect b a = r /\
    num_lt (width r) 0 = false /\ num_lt (height r) 0 = false /\
    (isNumber (x b - x a) -> num_le 0 (width r) = true) /\
    (isNumber (y b - y a) -> num_le 0 (height r) = true) /\
    (isNumber (x a) -> isNumber (x b) ->
       (rx r = x a \/ rx r = x b) /\
       num_le (rx r) (x a) = true /\ num_le (rx r) (x b) = true) /\
    (isNumber (y a) -> isNumber (y b) ->
       (ry r = y a \/ ry r = y b) /\
       num_le (ry r) (y a) = true /\ num_le (ry r) (y b) = true) /\
    (let r := normalizeRect (mkPoint 325.3 0) (mkPoint 871.6 10) in
     num_lt (rx r + width r) 871.6 = true).
Proof.
  intros a b r. split; [apply normalizeRect_sym|].
  unfold r, normalizeRect, num_lt, num_le, Math_abs. cbn [rx ry width height].
  split; [apply abs_not_negative|]. split; [apply abs_not_negative|].
  split; [apply abs_number|]. split; [apply abs_number|].
  split; [apply Math_min_spec|]. split; [apply Math_min_spec|].
  vm_compute. reflexivity.
Qed.

Lemma normalizeRect_normalizes_witness :
  normalizeRect (mkPoint 30 5) (mkPoint 10 25) = mkRect 10 5 20 20 /\
  normalizeRect (mkPoint 10 25) (mkPoint 30 5) = mkRect 10 5 20 20 /\
  num_le (rx (normalizeRect (mkPoint 30 5) (mkPoint 10 25))) 10 = true.
Proof.
  pose proof (normalizeRect_normalizes (mkPoint 30 5) (mkPoint 10 25))
    as (Hs & _ & _ & _ & _ & Hx & _).
  split; [vm_compute; reflexivity|]. split; [rewrite Hs; vm_compute; reflexivity|].
  apply Hx; reflexivity.
Defined.

Lemma rectsIntersect_sym (a b : Rect) : rectsIntersect a b = rectsIntersect b a.
Proof.
  unfold rectsIntersect, num_lt, num_gt.
  destruct (rx a <? rx b + width b), (rx b <? rx a + width a),
    (ry a <? ry b + height b), (ry b <? ry a + height a); reflexivity.
Qed.

(** X3. The overlap test is symmetric.  It holds of two rectangles
    when some point is strictly inside the first and inside the second,
    edges included, the far edges being the computed sums [x + width]
    and [y + height]; it fails when, on one
    axis, the computed far edge of one rectangle is not beyond the near
    edge of the other, so that rectangles that only touch do not
    overlap.  The rounding of the sums is visible: the rectangle from
    325.3 of width 546.3 does not overlap one that starts at
    871.5999999999999. *)
Theorem rectsIntersect_overlap :
  forall a b : Rect,
    rectsIntersect a b = rectsIntersect b a /\
    (forall p, strictlyInside p a -> pointInRect p b = true ->
       rectsIntersect a b = true) /\
    (num_le (rx b + width b) (rx a) = true \/
     num_le (rx a + width a) (rx b) = true \/
     num_le (ry b + height b) (ry a) = true \/
     num_le (ry a + height a) (ry b) = true ->
     rectsIntersect a b = false) /\
    rectsIntersect rounded_rect abutting_rect = false.
Proof.
  intros a b. split; [apply rectsIntersect_sym|]. split; [|split].
  - intros p (A1 & A2 & A3 & A4) B. unfold pointInRect in B.
    apply andb_prop in B as [B B4]. apply andb_prop in B as [B B3].
    apply andb_prop in B as [B1 B2].
    unfold rectsIntersect, num_lt, num_le, num_gt in *.
    rewrite (ltb_leb_trans _ _ _ A1 B2), (leb_ltb_trans _ _ _ B1 A2),
      (ltb_leb_trans _ _ _ A3 B4), (leb_ltb_trans _ _ _ B3 A4). reflexivity.
  - unfold rectsIntersect, num_lt, num_gt, num_le.
    intros [H|[H|[H|H]]];
      match type of H with
      | (?u <=? ?v) = true =>
          assert (Hn : (v <? u) = false)
            by (destruct (v <? u) eqn:E; [exfalso; float_order|reflexivity]);
          rewrite Hn
      end; rewrite ?andb_false_r; reflexivity.
  - vm_compute. reflexivity.
Qed.

Lemma rectsIntersect_overlap_witness :
  rectsIntersect (mkRect 0 0 10 10) (mkRect 5 5 10 10) = true /\
  rectsIntersect (mkRect 0 0 10 10) (mkRect 10 0 5 5) = false.
Proof.
  pose proof (rectsIntersect_overlap (mkRect 0 0 10 10) (mkRect 5 5 10 10))
    as (_ & Hin & _).
  pose proof (rectsIntersect_overlap (mkRect 0 0 10 10) (mkRect 10 0 5 5))
    as (_ & _ & Hout & _).
  split.
  - apply (Hin (mkPoint 5 7)); [repeat split; reflexivity|reflexivity].
  - apply Hout. right. left. reflexivity.
Defined.

(** ** Selecting *)

Section Selecting.
Context {engine : Engine}.

Lemma select_release s coords shiftKey freshId :
  tool s = Select ->
  let s' := step s (MouseUp coords shiftKey freshId) in
  selectedIds s' = selectedIds (selectOnMouseUp coords shiftKey s) /\
  annotations s' = annotations s /\ undoStackRef s' = undoStackRef s.
Proof.
  intros Ht s'. unfold s', step.
  rewrite runEffects_annotations, runEffects_undoStackRef.
  assert (E : handle (MouseUp coords shiftKey freshId) s
              = selectOnMouseUp coords shiftKey s).
  { cbn [handle]. unfold handleMouseUp. now rewrite Ht. }
  destruct (runEffects_same_tool_fields s (handle (MouseUp coords shiftKey freshId) s))
    as (_ & -> & _).
  { apply handle_keeps_tool. intros t. discriminate. }
  rewrite E. destruct (selectOnMouseUp_same coords shiftKey s) as [-> ->].
  now repeat split.
Qed.

Lemma selectOnMouseUp_click s start r coords shiftKey :
  selectionStartRef s = Some start -> selectionRect s = Some r ->
  num_lt (Math_max (width r) (height r)) 5 = true ->
  selectedIds (selectOnMouseUp coords shiftKey s)
  = match findAnnotationAt s coords with
    | Some found =>
        if truthy found then
          if shiftKey
          then if includes (selectedIds s) found
               then withoutId found (selectedIds s)
               else selectedIds s ++ [found]
          else [found]
        else if shiftKey then selectedIds s else []
    | None => if shiftKey then selectedIds s else []
    end.
Proof.
  intros Hs Hr Hsmall. unfold selectOnMouseUp. rewrite Hs, Hr.
  rewrite Hsmall.
  destruct (findAnnotationAt s coords) as [found|];
    [destruct (truthy found)|]; destruct shiftKey; reflexivity.
Qed.

Lemma topmostMatch_none point shapes :
  Forall (fun shape => shapeMatches point shape = false) shapes ->
  topmostMatch shapes point = None.
Proof.
  intros H. unfold topmostMatch.
  rewrite <- (app_nil_r (rev shapes)).
  rewrite find_skip_prefix by now apply Forall_rev. reflexivity.
Qed.

(** X21. Releasing a click.  When the selection rectangle measures less
    than 5 px on its larger side, the release is a click at the release
    point: it hit-tests the topmost shape there.  Without the extend
    modifier the selection becomes that shape alone, or empty when nothing
    is hit; with it, a hit toggles the membership of that shape and leaves
    every other id as it was, and a miss leaves the selection as it is.
    The collection and the history are not touched. *)
Theorem click_release_selects_topmost :
  forall (s : EditorState) (start : AnnotationPoint) (r : Rect)
         (coords : AnnotationPoint) (shiftKey : bool) (freshId : string),
    tool s = Select ->
    selectionStartRef s = Some start -> selectionRect s = Some r ->
    num_lt (Math_max (width r) (height r)) 5 = true ->
    let s' := step s (MouseUp coords shiftKey freshId) in
    (forall older shape newer,
        annotations s = older ++ shape :: newer ->
        shapeMatches coords shape = true ->
        Forall (fun later => shapeMatches coords later = false) newer ->
        id shape <> EmptyString ->
        (shiftKey = false -> selectedIds s' = [id shape]) /\
        (shiftKey = true ->
         (In (id shape) (selectedIds s') <-> ~ In (id shape) (selectedIds s)) /\
         (forall i, i <> id shape ->
                    (In i (selectedIds s') <-> In i (selectedIds s))))) /\
    (Forall (fun shape => shapeMatches coords shape = false) (annotations s) ->
     selectedIds s' = if shiftKey then selectedIds s else []) /\
    annotations s' = annotations s /\ undoStackRef s' = undoStackRef s.
Proof.
  intros s start r coords shiftKey freshId Ht Hs Hr Hsmall s'.
  destruct (select_release s coords shiftKey freshId Ht) as (Hsel & Ha & Hu).
  fold s' in Hsel, Ha, Hu.
  rewrite (selectOnMouseUp_click s start r coords shiftKey Hs Hr Hsmall) in Hsel.
  rewrite findAnnotationAt_is_topmostMatch in Hsel.
  split; [|split; [|now split]].
  - intros older shape newer Hanns Hm Hnewer Hid.
    assert (Hfound : topmostMatch (annotations s) coords = Some (id shape)).
    { rewrite Hanns. now apply topmostMatch_found. }
    rewrite Hfound in Hsel. apply truthy_nonempty in Hid. rewrite Hid in Hsel.
    split.
    + intros ->. exact Hsel.
    + intros ->. rewrite Hsel.
      destruct (includes (selectedIds s) (id shape)) eqn:Ei.
      * apply includes_In in Ei. split.
        -- rewrite withoutId_In. tauto.
        -- intros i Hne. rewrite withoutId_In. tauto.
      * assert (Hnot : ~ In (id shape) (selectedIds s)).
        { intros H. apply includes_In in H. congruence. }
        split.
        -- rewrite in_app_iff. simpl. tauto.
        -- intros i Hne. rewrite in_app_iff. simpl. split; [|tauto].
           intros [H|[H|[]]]; [exact H|]. now contradiction Hne.
  - intros Hnone. rewrite (topmostMatch_none _ _ Hnone) in Hsel. exact Hsel.
Qed.

End Selecting.

Lemma click_release_selects_topmost_witness :
  selectedIds (step clicking (MouseUp (mkPoint 8 6) false "s"))
  = [id sample_polygon] /\
  selectedIds (step clicking (MouseUp (mkPoint 90 90) true "s"))
  = selectedIds clicking.
Proof.
  assert (Ht : tool clicking = Select) by (vm_compute; reflexivity).
  assert (Hs : selectionStartRef clicking = Some (mkPoint 5 3))
    by (vm_compute; reflexivity).
  assert (Hr : selectionRect clicking = Some (mkRect 5 3 3 3))
    by (vm_compute; reflexivity).
  assert (Hsmall : num_lt (Math_max (width (mkRect 5 3 3 3)) (height (mkRect 5 3 3 3))) 5
                   = true)
    by (vm_compute; reflexivity).
  assert (Hanns : annotations clicking = [sample_box] ++ sample_polygon :: [hollow_shape])
    by (vm_compute; reflexivity).
  assert (Hhit : shapeMatches (mkPoint 8 6) sample_polygon = true)
    by (vm_compute; reflexivity).
  assert (Hnewer : Forall (fun later => shapeMatches (mkPoint 8 6) later = false)
                     [hollow_shape]).
  { constructor; [vm_compute; reflexivity|constructor]. }
  assert (Hmiss : Forall (fun shape => shapeMatches (mkPoint 90 90) shape = false)
                    (annotations clicking)).
  { rewrite Hanns. repeat (constructor; [vm_compute; reflexivity|]). constructor. }
  assert (Hid : id sample_polygon <> EmptyString) by discriminate.
  split.
  - pose proof (click_release_selects_topmost clicking (mkPoint 5 3) (mkRect 5 3 3 3)
                  (mkPoint 8 6) false "s"%string Ht Hs Hr Hsmall) as (H1 & _).
    destruct (H1 [sample_box] sample_polygon [hollow_shape] Hanns Hhit Hnewer Hid)
      as [H _].
    exact (H eq_refl).
  - pose proof (click_release_selects_topmost clicking (mkPoint 5 3) (mkRect 5 3 3 3)
                  (mkPoint 90 90) true "s"%string Ht Hs Hr Hsmall) as (_ & H2 & _).
    exact (H2 Hmiss).
Defined.


(** ** Deleting the selection *)

Section Deleting.
Context {engine : Engine}.

Lemma delete_step s : step s ClickDeleteSelected = handleDeleteSelected s.
Proof.
  unfold step. cbn [handle]. unfold handleDeleteSelected.
  destruct (_ =? _)%nat; [apply runEffects_nothing|].
  unfold runEffects, colorDepsChanged, pushUndoSnapshot.
  destruct (_ <? _)%nat; simpl;
    now rewrite String.eqb_refl, Bool.eqb_reflx, Nat.eqb_refl, Tool_eqb_refl.
Qed.

(** X22. Deleting the selection removes exactly the selected shapes: with
    an empty selection the command changes nothing and pushes no snapshot;
    otherwise a shape stays in the collection if and only if its id is not
    selected, the shapes that stay keep their order, the collection as it
    was is pushed on the history, and the selection becomes empty. *)
Theorem delete_selected_removes_exactly_the_selection :
  forall s : EditorState,
    let s' := step s ClickDeleteSelected in
    (selectedIds s = [] -> s' = s) /\
    (selectedIds s <> [] ->
     (forall shape,
         In shape (annotations s')
         <-> In shape (annotations s) /\ ~ In (id shape) (selectedIds s)) /\
     (exists keep, annotations s' = filter keep (annotations s)) /\
     undoStackRef s' = evictOldest (undoStackRef s ++ [annotations s]) /\
     selectedIds s' = []).
Proof.
  intros s s'. unfold s'. rewrite delete_step. unfold handleDeleteSelected. split.
  - intros ->. reflexivity.
  - intros Hne.
    replace (length (selectedIds s) =? 0)%nat with false
      by (destruct (selectedIds s); [contradiction|reflexivity]).
    cbn [set_selectedIds set_annotations annotations undoStackRef selectedIds].
    rewrite pushUndoSnapshot_stack.
    split; [|split; [|now split]].
    + intros shape. rewrite filter_In, negb_true_iff.
      split; intros [H1 H2]; split; auto.
      * intros Hin. apply includes_In in Hin. congruence.
      * destruct (includes (selectedIds s) (id shape)) eqn:Ei; [|reflexivity].
        apply includes_In in Ei. contradiction.
    + now eexists.
Qed.

End Deleting.

Lemma delete_selected_removes_exactly_the_selection_witness :
  step hollow_state ClickDeleteSelected = hollow_state /\
  selectedIds (step selected_state ClickDeleteSelected) = [].
Proof.
  split.
  - apply (proj1 (delete_selected_removes_exactly_the_selection hollow_state)).
    reflexivity.
  - apply (proj2 (delete_selected_removes_exactly_the_selection selected_state)).
    vm_compute. discriminate.
Defined.


(** ** Ending a freehand stroke *)

Section EndingStroke.
Context {engine : Engine}.

Lemma freehand_commit_shape pinned s freshId :
  drawingColorRef s = pinned -> (2 <= length (freehandPointsRef s))%nat ->
  annotations (finalizeFreehand freshId s)
  = annotations s
      ++ [{| id := freshId; type := freehand_t; color := Some pinned; label := None;
             points := Some (ensureClosed (freehandPointsRef s) FREEHAND_CLOSE_DISTANCE);
             bbox := None |}].
Proof.
  intros Hc Hlen. unfold finalizeFreehand.
  replace (length (freehandPointsRef s) <? 2)%nat with false
    by (symmetry; now apply Nat.ltb_ge).
  simpl. now rewrite Hc.
Qed.

(** X23. Ending a freehand stroke.  Releasing the pointer appends the
    release point unconditionally and always commits: the shape holds the
    buffered points and the release point, closed with the 12 px
    threshold, so even a press and release without movement commits a
    stroke.  Leaving the canvas appends nothing: it commits the buffered
    points when there are two or more, and otherwise discards the stroke
    without touching the collection or the history. *)
Theorem freehand_release_commits_leave_may_discard :
  forall (pinned : string) (shapes : list AnnotationShape) (s : EditorState)
         (coords : AnnotationPoint) (shiftKey : bool) (freshId : string),
    freehandInProgress pinned shapes s ->
    annotations (step s (MouseUp coords shiftKey freshId))
    = shapes
        ++ [{| id := freshId; type := freehand_t; color := Some pinned; label := None;
               points := Some (ensureClosed (freehandPointsRef s ++ [coords]) 12);
               bbox := None |}] /\
    ((2 <= length (freehandPointsRef s))%nat ->
     annotations (step s (MouseLeave coords shiftKey freshId))
     = shapes
         ++ [{| id := freshId; type := freehand_t; color := Some pinned; label := None;
                points := Some (ensureClosed (freehandPointsRef s) 12);
                bbox := None |}]) /\
    ((length (freehandPointsRef s) < 2)%nat ->
     let s' := step s (MouseLeave coords shiftKey freshId) in
     annotations s' = shapes /\ undoStackRef s' = undoStackRef s /\
     freehandPointsRef s' = [] /\ isDrawing s' = false /\ draftShape s' = None).
Proof.
  intros pinned shapes s coords shiftKey freshId (Ht & Hd & Hc & Ha & Hp).
  assert (Hleave : handle (MouseLeave coords shiftKey freshId) s
                   = finalizeFreehand freshId s).
  { cbn [handle]. unfold handleMouseLeave. now rewrite Ht, Hd. }
  split; [|split].
  - unfold step. rewrite runEffects_annotations. cbn [handle].
    unfold handleMouseUp. rewrite Ht, Hd. cbn [negb].
    destruct (appendFreehandPoint_fields coords true s)
      as (_ & _ & Hc' & Ha' & _ & _ & _).
    pose proof (appendFreehandPoint_forced coords s) as Hpts.
    rewrite (freehand_commit_shape pinned).
    + now rewrite Ha', Ha, Hpts.
    + congruence.
    + rewrite Hpts, length_app.
      destruct (freehandPointsRef s); [contradiction|simpl; lia].
  - intros Hlen. unfold step. rewrite runEffects_annotations, Hleave.
    rewrite (freehand_commit_shape pinned) by assumption. now rewrite Ha.
  - intros Hlen s'. unfold s', step.
    rewrite runEffects_annotations, runEffects_undoStackRef, Hleave.
    assert (E : finalizeFreehand freshId s
                = (s |> set_freehandPointsRef [] |> set_draftShape None
                     |> set_isDrawing false |> set_startPos None)).
    { unfold finalizeFreehand. apply Nat.ltb_lt in Hlen. now rewrite Hlen. }
    rewrite E.
    destruct (runEffects_same_tool_fields s
                (s |> set_freehandPointsRef [] |> set_draftShape None
                   |> set_isDrawing false |> set_startPos None))
      as (_ & _ & Hd' & Hf' & _); [reflexivity|].
    rewrite Hd', Hf'. simpl. repeat split; auto.
    destruct (runEffects_same_tool s
                (s |> set_freehandPointsRef [] |> set_draftShape None
                   |> set_isDrawing false |> set_startPos None)) as [-> | ->];
      reflexivity.
Qed.

End EndingStroke.

Lemma freehand_release_commits_leave_may_discard_witness :
  annotations (step pressed (MouseUp (mkPoint 7 7) false "f"))
  = [{| id := "f"; type := freehand_t; color := Some COLORS_0; label := None;
        points := Some (ensureClosed (freehandPointsRef pressed ++ [mkPoint 7 7]) 12);
        bbox := None |}] /\
  annotations (step pressed (MouseLeave (mkPoint 7 7) false "f")) = [].
Proof.
  assert (H : freehandInProgress COLORS_0 [] pressed).
  { repeat split; try (vm_compute; reflexivity). vm_compute. discriminate. }
  destruct (freehand_release_commits_leave_may_discard COLORS_0 [] pressed
              (mkPoint 7 7) false "f"%string H) as (H1 & _ & H3).
  split; [exact H1|]. apply H3. vm_compute. lia.
Defined.

